(** * Analytics adapters: metric registry, time window, query building,
      request signing and response normalisation.

    Two express handlers are verified here:
    - the CDN adapter (GraphQL upstream): [METRIC_MAP], [ZONE_TOPN_CONFIG],
      [getTimeConfig] and the [/traffic] route;
    - the edge adapter (signed REST upstream): [METRIC_CONFIG],
      [percentEncode], [calculateSignature] and the [/traffic] route.

    Conventions of the embedding.
    - A JavaScript string is a [string]; for the ASCII text the adapters
      handle (dates, identifiers, query text) characters, UTF-16 code units
      and bytes coincide.  Where the edge adapter encodes a string
      ([encodeURIComponent], [TextEncoder], [URLSearchParams]) the
      [string] is the sequence of the bytes of its UTF-8 form.
    - A JavaScript number that holds a count, a byte total or a time value
      is an integer [Z]; [NaN] is [None] where the code can produce it.
      The values of the account-scope time series, which the CDN adapter
      adds up, are doubles, [JS.number], and their addition rounds as
      the one of the language does.
    - [undefined] is [None]; a parameter of [req.query] is a string or
      absent.
    - The clock ([new Date()]), the nonce, the credentials [getKeys()]
      finds and the replies of the upstream services are inputs; a
      handler is a tree whose nodes are its awaited upstream requests and
      whose leaves are the responses it sends.  [getKeys] itself is a
      function of the environment and of the text of [key.txt]. *)

From Stdlib Require Import ZArith List String Ascii Bool Lia.
From Stdlib Require Import Permutation Sorted DecimalString DecimalZ DecimalPos.
Import ListNotations.
Local Open Scope string_scope.
Local Open Scope Z_scope.

(** ** JavaScript prelude *)

Module JS.

(** Truthiness of a possibly undefined string: [undefined] and the empty
    string are falsy. *)
Definition truthy (o : option string) : bool :=
  match o with
  | Some s => negb (s =? "")%string
  | None => false
  end.

(** [a || b] on possibly undefined strings, [b] being a string. *)
Definition or_else (a : option string) (b : string) : string :=
  match a with
  | Some s => if (s =? "")%string then b else s
  | None => b
  end.

(** Template-literal interpolation of a possibly undefined string. *)
Definition interp (o : option string) : string :=
  match o with
  | Some s => s
  | None => "undefined"
  end.

(** [s.slice(0, n)] for a non-negative [n]. *)
Definition slice0 (n : nat) (s : string) : string := substring 0 n s.

(** Own-property lookup in an object literal written as an association
    list. *)
Fixpoint own {V : Type} (o : list (string * V)) (k : string) : option V :=
  match o with
  | [] => None
  | (k', v) :: o' => if (k' =? k)%string then Some v else own o' k
  end.

(** The property names every object literal inherits from
    [Object.prototype]; each of them reads as a truthy value (a function,
    or the prototype object itself for [__proto__]). *)
Definition object_prototype_keys : list string :=
  [ "constructor"; "__proto__"; "hasOwnProperty"; "isPrototypeOf";
    "propertyIsEnumerable"; "toLocaleString"; "toString"; "valueOf";
    "__defineGetter__"; "__defineSetter__"; "__lookupGetter__";
    "__lookupSetter__" ].

Definition inherited (k : string) : bool :=
  existsb (fun p => (p =? k)%string) object_prototype_keys.

(** The result of [obj[key]] on an object literal: an own entry, an
    inherited member of [Object.prototype], or [undefined]. *)
Inductive lookup_result (V : Type) : Type :=
| Own (v : V)
| Inherited
| Undefined.
Arguments Own {V} v.
Arguments Inherited {V}.
Arguments Undefined {V}.

Definition get {V : Type} (o : list (string * V)) (k : string)
  : lookup_result V :=
  match own o k with
  | Some v => Own v
  | None => if inherited k then Inherited else Undefined
  end.

(** A query parameter that is absent reads as [undefined], which as a
    property key is the string ["undefined"]. *)
Definition property_key (o : option string) : string := interp o.

(** [Array.prototype.sort(cmp)]: the sort is stable, so for a consistent
    comparator its result is the one of a stable insertion sort.  The
    comparator's sign decides; an element moves in front of the elements
    it does not compare greater than.  For a comparator that is not
    consistent the order is the engine's, and this function is not
    used. *)
Section Sort.
Context {A : Type}.
Variable cmp : A -> A -> Z.

Fixpoint insert (x : A) (l : list A) : list A :=
  match l with
  | [] => [x]
  | y :: l' => if cmp x y <=? 0 then x :: y :: l' else y :: insert x l'
  end.

Definition sort (l : list A) : list A := fold_right insert [] l.
End Sort.

(** *** Dates

    A time value is a number of milliseconds since the epoch, or [NaN].
    The day and calendar functions are the ones of the language
    definition ([Day], [TimeWithinDay], [DayFromYear], [YearFromTime],
    [MonthFromTime], [DateFromTime], [MakeDay], [MakeTime]). *)

Definition msPerDay : Z := 86400000.
Definition maxTime : Z := 8640000000000000.

Definition Day (t : Z) : Z := t / msPerDay.
Definition TimeWithinDay (t : Z) : Z := t mod msPerDay.

Definition DayFromYear (y : Z) : Z :=
  365 * (y - 1970) + (y - 1969) / 4 - (y - 1901) / 100 + (y - 1601) / 400.

Definition InLeapYear (y : Z) : bool :=
  (y mod 4 =? 0) && (negb (y mod 100 =? 0) || (y mod 400 =? 0)).

(** The year of a day number: the largest [y] with [DayFromYear y <= d],
    found from the mean year length and one step of adjustment. *)
Definition YearFromDay (d : Z) : Z :=
  let y := 1970 + d * 400 / 146097 in
  if d <? DayFromYear y then y - 1
  else if DayFromYear (y + 1) <=? d then y + 1
  else y.

(** Day number within the year at which month [m] (0 to 11) starts; 12
    gives the length of the year. *)
Definition MonthStart (leap : bool) (m : Z) : Z :=
  let l := if leap then 1 else 0 in
  if m <=? 0 then 0
  else if m =? 1 then 31
  else if m =? 2 then 59 + l
  else if m =? 3 then 90 + l
  else if m =? 4 then 120 + l
  else if m =? 5 then 151 + l
  else if m =? 6 then 181 + l
  else if m =? 7 then 212 + l
  else if m =? 8 then 243 + l
  else if m =? 9 then 273 + l
  else if m =? 10 then 304 + l
  else if m =? 11 then 334 + l
  else 365 + l.

Definition MonthFromDay (leap : bool) (dwy : Z) : Z :=
  if dwy <? MonthStart leap 1 then 0
  else if dwy <? MonthStart leap 2 then 1
  else if dwy <? MonthStart leap 3 then 2
  else if dwy <? MonthStart leap 4 then 3
  else if dwy <? MonthStart leap 5 then 4
  else if dwy <? MonthStart leap 6 then 5
  else if dwy <? MonthStart leap 7 then 6
  else if dwy <? MonthStart leap 8 then 7
  else if dwy <? MonthStart leap 9 then 8
  else if dwy <? MonthStart leap 10 then 9
  else if dwy <? MonthStart leap 11 then 10
  else 11.

Definition YearFromTime (t : Z) : Z := YearFromDay (Day t).
Definition DayWithinYear (t : Z) : Z := Day t - DayFromYear (YearFromTime t).
Definition MonthFromTime (t : Z) : Z :=
  MonthFromDay (InLeapYear (YearFromTime t)) (DayWithinYear t).
Definition DateFromTime (t : Z) : Z :=
  DayWithinYear t
  - MonthStart (InLeapYear (YearFromTime t)) (MonthFromTime t) + 1.
Definition HourFromTime (t : Z) : Z := TimeWithinDay t / 3600000.
Definition MinFromTime (t : Z) : Z := TimeWithinDay t / 60000 mod 60.
Definition SecFromTime (t : Z) : Z := TimeWithinDay t / 1000 mod 60.
Definition msFromTime (t : Z) : Z := TimeWithinDay t mod 1000.

(** [MakeDay] for a month already in 0..11 and [MakeTime], [MakeDate]. *)
Definition MakeDay (year month date : Z) : Z :=
  DayFromYear year + MonthStart (InLeapYear year) month + date - 1.
Definition MakeTime (h m s ms : Z) : Z :=
  h * 3600000 + m * 60000 + s * 1000 + ms.
Definition MakeDate (day time : Z) : Z := day * msPerDay + time.

Definition DaysInMonth (year month : Z) : Z :=
  MonthStart (InLeapYear year) (month + 1)
  - MonthStart (InLeapYear year) month.

(** Decimal digits. *)
Definition digit_char (d : Z) : ascii := ascii_of_N (48 + Z.to_N d).

Definition digit_val (c : ascii) : option Z :=
  let n := Z.of_N (N_of_ascii c) in
  if (48 <=? n) && (n <=? 57) then Some (n - 48) else None.

(** The [k] low decimal digits of [n], most significant first, in front
    of [acc]. *)
Fixpoint digits (k : nat) (n : Z) (acc : string) : string :=
  match k with
  | O => acc
  | S k' => digits k' (n / 10) (String (digit_char (n mod 10)) acc)
  end.

Definition pad (k : nat) (n : Z) : string := digits k n "".

(** [Date.prototype.toISOString]: [None] is the [RangeError] of an
    invalid date.  Years outside 0..9999 print as a sign and six
    digits. *)
Definition year_string (y : Z) : string :=
  if (0 <=? y) && (y <=? 9999) then pad 4 y
  else if y <? 0 then String "-" (pad 6 (- y))
  else String "+" (pad 6 y).

Definition toISOString (t : Z) : option string :=
  if (- maxTime <=? t) && (t <=? maxTime) then
    Some (year_string (YearFromTime t) ++ "-"
          ++ pad 2 (MonthFromTime t + 1) ++ "-"
          ++ pad 2 (DateFromTime t) ++ "T"
          ++ pad 2 (HourFromTime t) ++ ":"
          ++ pad 2 (MinFromTime t) ++ ":"
          ++ pad 2 (SecFromTime t) ++ "."
          ++ pad 3 (msFromTime t) ++ "Z")
  else None.

(** Reading a run of decimal digits. *)
Fixpoint number_of (cs : list ascii) (acc : Z) : option Z :=
  match cs with
  | [] => Some acc
  | c :: cs' =>
      match digit_val c with
      | Some d => number_of cs' (10 * acc + d)
      | None => None
      end
  end.

Definition num (cs : list ascii) : option Z := number_of cs 0.

(** The time of day of a date-time string after the ["T"]: [HH:mm:ssZ]
    or [HH:mm:ss.sssZ], in UTC. *)
Definition parse_time (s : string) : option Z :=
  match list_ascii_of_string s with
  | [h1; h2; c1; m1; m2; c2; s1; s2; z] =>
      if (c1 =? ":")%char && (c2 =? ":")%char && (z =? "Z")%char then
        match num [h1; h2], num [m1; m2], num [s1; s2] with
        | Some h, Some m, Some sec =>
            if (h <=? 23) && (m <=? 59) && (sec <=? 59)
            then Some (MakeTime h m sec 0) else None
        | _, _, _ => None
        end
      else None
  | [h1; h2; c1; m1; m2; c2; s1; s2; dot; f1; f2; f3; z] =>
      if (c1 =? ":")%char && (c2 =? ":")%char && (dot =? ".")%char
         && (z =? "Z")%char then
        match num [h1; h2], num [m1; m2], num [s1; s2], num [f1; f2; f3] with
        | Some h, Some m, Some sec, Some ms =>
            if (h <=? 23) && (m <=? 59) && (sec <=? 59)
            then Some (MakeTime h m sec ms) else None
        | _, _, _, _ => None
        end
      else None
  | _ => None
  end.

(** The calendar date [YYYY-MM-DD] at the head of a date-time string:
    the day number, when the month and the day of the month exist. *)
Definition parse_date (y1 y2 y3 y4 d1 m1 m2 d2 a1 a2 : ascii) : option Z :=
  if (d1 =? "-")%char && (d2 =? "-")%char then
    match num [y1; y2; y3; y4], num [m1; m2], num [a1; a2] with
    | Some y, Some m, Some d =>
        if (1 <=? m) && (m <=? 12) && (1 <=? d)
           && (d <=? DaysInMonth y (m - 1))
        then Some (MakeDay y (m - 1) d) else None
    | _, _, _ => None
    end
  else None.

(** The part of the date-time string format this development reads
    exactly: [YYYY-MM-DD], [YYYY-MM-DDTHH:mm:ssZ] and
    [YYYY-MM-DDTHH:mm:ss.sssZ] with every element in range, all in UTC. *)
Definition parse_iso (s : string) : option Z :=
  match s with
  | String y1 (String y2 (String y3 (String y4 (String d1
    (String m1 (String m2 (String d2 (String a1 (String a2 rest))))))))) =>
      match parse_date y1 y2 y3 y4 d1 m1 m2 d2 a1 a2 with
      | Some day =>
          match rest with
          | EmptyString => Some (MakeDate day 0)
          | String t rest' =>
              if (t =? "T")%char then
                match parse_time rest' with
                | Some time => Some (MakeDate day time)
                | None => None
                end
              else None
          end
      | None => None
      end
  | _ => None
  end.

(** [Date.parse] / [new Date(string).getTime()].  Every other string
    (another format, a local time, an element out of range) is left to
    the engine by the language definition: [fallback] stands for what the
    engine in use answers there, [None] being [NaN]. *)
Definition Date_parse (fallback : string -> option Z) (s : string)
  : option Z :=
  match parse_iso s with
  | Some t => Some t
  | None => fallback s
  end.

(** *** Exceptions and awaited values *)

(** What a [throw] carries; [error.message] is fixed by the program only
    for its own [new Error(...)]. *)
Inductive exn : Type :=
| TypeError
| RangeError
| Error (message : string).

(** The outcome of awaiting [fetch(...)] and [response.json()]. *)
Inductive awaited (A : Type) : Type :=
| Rejected (e : exn)
| Fulfilled (a : A).
Arguments Rejected {A} e.
Arguments Fulfilled {A} a.

(** *** Objects used as maps

    An object written to by [o[k] = v] keeps its string keys in creation
    order; [Object.entries] lists the keys that are array indices first,
    in ascending numeric order, then the other keys in creation order. *)

Definition newline : string := String "010"%char "".
Definition quote : string := String "034"%char "".
Definition unlines (l : list string) : string := String.concat newline l.

Fixpoint set {V : Type} (o : list (string * V)) (k : string) (v : V)
  : list (string * V) :=
  match o with
  | [] => [(k, v)]
  | (k', v') :: o' =>
      if (k' =? k)%string then (k', v) :: o' else (k', v') :: set o' k v
  end.

(** [String(n)] of an integer below 10^21 in absolute value and of
    [NaN]. *)
Definition ToString (n : option Z) : string :=
  match n with
  | Some z => NilZero.string_of_int (Z.to_int z)
  | None => "NaN"
  end.

(** [Number(k)] and [parseInt(k, 10)] for a key [k] that [ToString]
    wrote: the integer back, [NaN] for ["NaN"]. *)
Definition Number_of_key (k : string) : option Z :=
  option_map Z.of_int (NilZero.int_of_string k).

Definition is_array_index (k : string) : bool :=
  match Number_of_key k with
  | Some n => (0 <=? n) && (n <=? 4294967294) && (ToString (Some n) =? k)%string
  | None => false
  end.

(** [(a, b) => Number(a[0]) - Number(b[0])] on entries; the sort reads a
    [NaN] difference as 0.  Also the ascending order of array indices. *)
Definition by_number {V : Type} (a b : string * V) : Z :=
  match Number_of_key (fst a), Number_of_key (fst b) with
  | Some x, Some y => x - y
  | _, _ => 0
  end.

(** [Object.entries(o)] *)
Definition Object_entries {V : Type} (o : list (string * V))
  : list (string * V) :=
  sort by_number (filter (fun e => is_array_index (fst e)) o)
  ++ filter (fun e => negb (is_array_index (fst e))) o.

(** The order of two strings by their code units, as a comparator: the
    order of [sort()] without an argument. *)
Definition code_unit_order (a b : string) : Z :=
  match String.compare a b with
  | Lt => -1
  | Eq => 0
  | Gt => 1
  end.

(** [a.localeCompare(b)] on the date keys [YYYY-MM-DD], which are made of
    digits and hyphens at the same places: the order of the code
    units. *)
Definition localeCompare (a b : string) : Z := code_unit_order a b.

(** *** Numbers that are added

    Where a handler adds the numbers upstream sent, the numbers are
    doubles (binary64).  The doubles these sums go through are the
    integer-valued ones, [Finite z] for a representable [z], the two
    infinities and [NaN]. *)
Inductive number : Type :=
| Finite (z : Z)
| Infinite (negative : bool)
| NaN.

(** The representable integer nearest to a non-negative integer, ties to
    the even significand: below [2^53] every integer is representable;
    from there on 53 bits are kept. *)
Definition nearest (m : Z) : Z :=
  if m <? 2 ^ 53 then m
  else
    let k := Z.log2 m - 52 in
    let q := m / 2 ^ k in
    let r := m mod 2 ^ k in
    let half := 2 ^ (k - 1) in
    if (half <? r) || ((r =? half) && Z.odd q)
    then (q + 1) * 2 ^ k else q * 2 ^ k.

(** The double an integer is read as, and the double an exact integer
    result is rounded to: [2^1024] and beyond overflow to an infinity. *)
Definition double (z : Z) : number :=
  let m := nearest (Z.abs z) in
  if 2 ^ 1024 <=? m then Infinite (z <? 0) else Finite (Z.sgn z * m).

(** [x + y] *)
Definition plus (x y : number) : number :=
  match x, y with
  | Finite a, Finite b => double (a + b)
  | NaN, _ | _, NaN => NaN
  | Infinite s, Infinite s' => if Bool.eqb s s' then Infinite s else NaN
  | Infinite s, Finite _ | Finite _, Infinite s => Infinite s
  end.

(** [x || 0] for a number that may be [undefined]: [0] and [NaN] are
    falsy. *)
Definition or_zero (o : option number) : number :=
  match o with
  | Some (Finite z) => Finite z
  | Some (Infinite s) => Infinite s
  | Some NaN | None => Finite 0
  end.

End JS.

(** ** CDN adapter: the registry *)

Module Cdn.

(** An entry of [METRIC_MAP].  A field the literal does not write is
    [undefined]. *)
Record config : Type := mkConfig {
  name : option string;
  sumid : option string;
  scope : option string;
  isDistribution : option bool;
  dimension : option string
}.

Definition series (n s sc : string) : config :=
  mkConfig (Some n) (Some s) (Some sc) None None.

Definition distribution (n s sc d : string) : config :=
  mkConfig (Some n) (Some s) (Some sc) (Some true) (Some d).

Definition METRIC_MAP : list (string * config) :=
  [ ("l7Flow_flux", series "l7Flow_flux" "bytes" "account");
    ("l7Flow_outFlux", series "l7Flow_outFlux" "cachedBytes" "account");
    ("l7Flow_request", series "l7Flow_request" "requests" "account");
    ("l7Flow_inFlux", series "l7Flow_inFlux" "pageViews" "account");
    ("l7Flow_outcc", series "l7Flow_outcc" "threats" "account");
    ("l7Flow_cachedRequests",
      series "l7Flow_cachedRequests" "cachedRequests" "account");
    ("l7Flow_outFlux_resourceType",
      distribution "l7Flow_outFlux_resourceType" "bytes" "account"
                   "edgeResponseContentTypeName");
    ("l7Flow_request_resourceType",
      distribution "l7Flow_request_resourceType" "requests" "account"
                   "edgeResponseContentTypeName");
    ("l7Flow_outFlux_country",
      distribution "l7Flow_outFlux_country" "bytes" "account"
                   "clientCountryName");
    ("l7Flow_request_country",
      distribution "l7Flow_request_country" "requests" "account"
                   "clientCountryName");
    ("function_requestCount",
      series "function_requestCount" "requests" "account");
    ("function_cpuCostTime",
      series "function_cpuCostTime" "cpuTimeUs" "account");
    ("l7Flow_outFlux_domain", series "l7Flow_outFlux_domain" "bytes" "zone");
    ("l7Flow_request_domain",
      series "l7Flow_request_domain" "requests" "zone") ].

Definition ZONE_TOPN_CONFIG : list (string * string) :=
  [ ("l7Flow_request_sip", "clientIP");
    ("l7Flow_request_ua_device", "clientRequestHTTPMethodName");
    ("l7Flow_request_ua_browser", "cacheStatus");
    ("l7Flow_request_zym", "clientRequestHTTPHost") ].

(** What the handler reads from [METRIC_MAP[key]] when [key] names a
    member of [Object.prototype]: a function (whose [name] is its own
    name, ["Object"] for [constructor]) or the prototype object; none of
    them has [sumid], [scope], [isDistribution] or [dimension]. *)
Definition inherited_metric (k : string) : config :=
  mkConfig
    (if (k =? "constructor")%string then Some "Object"
     else if (k =? "__proto__")%string then None
     else Some k)
    None None None None.

(** [config.isDistribution] used as a condition. *)
Definition is_distribution (c : config) : bool :=
  match isDistribution c with
  | Some b => b
  | None => false
  end.

(** *** Credentials and the request *)

(** What [getKeys()] returns (from the environment, else from
    [key.txt]). *)
Record keys : Type := mkKeys {
  secretId : option string;
  secretKey : option string;
  accountTag : option string;
  zonetag : option string
}.

(** [req.query]: each parameter is a string or absent. *)
Record query : Type := mkQuery {
  metric : option string;
  startTime : option string;
  endTime : option string
}.

(** *** The time window: [getTimeConfig] *)

Record timeCfg : Type := mkTimeCfg {
  start : string;
  end_ : string;
  queryFrom : string;
  queryTo : string;
  datasetMode : string;
  orderBy : string;
  dimensionKey : string;
  isLongTerm : bool;
  filterObj : list (string * string)
}.

Section WithDateParser.

(** What the engine's [Date.parse] answers outside the formats
    [JS.parse_iso] reads. *)
Variable fallback : string -> option Z.

(** [now.getTime() - fromTime > 3 * 24 * 60 * 60 * 1000]; a comparison
    with [NaN] is false. *)
Definition long_term (now : Z) (fromTime : option Z) : bool :=
  match fromTime with
  | Some f => 3 * 24 * 60 * 60 * 1000 <? now - f
  | None => false
  end.

(** [getTimeConfig(reqStartTime, reqEndTime)] at the clock reading [now];
    [None] is the [RangeError] of [toISOString] on an invalid date. *)
Definition getTimeConfig (now : Z) (reqStartTime reqEndTime : option string)
  : option timeCfg :=
  let yesterday := now - 24 * 60 * 60 * 1000 in
  match (if JS.truthy reqStartTime then reqStartTime
         else JS.toISOString yesterday),
        (if JS.truthy reqEndTime then reqEndTime
         else JS.toISOString now) with
  | Some start, Some end_ =>
      let fromTime := JS.Date_parse fallback start in
      let isLongTerm := long_term now fromTime in
      if isLongTerm then
        let queryFrom := JS.slice0 10 start in
        let queryTo := JS.slice0 10 end_ in
        Some (mkTimeCfg start end_ queryFrom queryTo
                "httpRequests1dGroups" "date_ASC" "date" isLongTerm
                [("date_geq", queryFrom); ("date_leq", queryTo)])
      else
        let queryFrom := start in
        let queryTo := end_ in
        Some (mkTimeCfg start end_ queryFrom queryTo
                "httpRequests1hGroups" "datetime_ASC" "datetime" isLongTerm
                [("datetime_geq", queryFrom); ("datetime_leq", queryTo)])
  | _, _ => None
  end.

End WithDateParser.

(** *** Upstream payloads

    A reply is typed after the selection set of the query that asked for
    it; a field is optional where the handler tests for its absence or
    fails on it. *)

(** [apiData.errors]: absent, or an array of messages (truthy even when
    empty). *)
Definition errors : Type := option (list string).

Record topn_group : Type := mkTopnGroup {
  count : Z;                        (* group.count *)
  group_dimension : string          (* group.dimensions[targetField] *)
}.

Record topn_zone : Type := mkTopnZone {
  httpRequestsAdaptiveGroups : option (list topn_group)
}.

Record topn_payload : Type := mkTopnPayload {
  topn_errors : errors;
  topn_zones : option (list topn_zone)   (* apiData.data.viewer.zones *)
}.

Record zone_row : Type := mkZoneRow {
  row_sum : option Z                (* item.sum?.[config.sumid] *)
}.

Record zone_entry : Type := mkZoneEntry {
  zoneTag : string;
  zone_rows : option (list zone_row)   (* zone[timeCfg.datasetMode] *)
}.

Record zone_payload : Type := mkZonePayload {
  zone_errors : errors;
  zone_zones : option (list zone_entry)   (* apiData?.data?.viewer?.zones *)
}.

Record row : Type := mkRow {
  dimension_value : string;         (* item.dimensions[...] *)
  sum_value : Z                     (* item.sum[config.sumid], as written *)
}.

Record account : Type := mkAccount {
  resultData : option (list row)
}.

Record account_payload : Type := mkAccountPayload {
  account_errors : errors;
  accounts : option (list account)   (* apiData?.data?.viewer?.accounts *)
}.

(** An item of the zone listing ([data.result]). *)
Record zone_item : Type := mkZoneItem {
  zone_id : string;
  zone_name : string
}.

(** The reply to the zone listing: the request or the body failed, or a
    response with its [ok] flag, status text and [data?.result] (when it
    is an array). *)
Inductive zones_reply : Type :=
| ZonesRejected (e : JS.exn)
| ZonesResponse (ok : bool) (statusText : string)
                (result : option (list zone_item)).

(** *** The unified response *)

Module Pair.
Record t : Type := mk { Key : string; Value : Z }.
End Pair.

Module Point.
(** [Timestamp] is [NaN] when the time string did not parse; [Value] is
    a sum of doubles. *)
Record t : Type := mk { Timestamp : option Z; Value : JS.number }.
End Point.

Record type_value : Type := mkTypeValue {
  Detail : list Point.t;
  MetricName : option string;
  Sum : JS.number
}.

(** An item of [Data].  [TypeValueUnsorted] is the [TypeValue] item of a
    time series whose comparator orders its keys inconsistently: the
    points are the entries of [merged], in the order the engine's sort
    leaves them, and [Sum] is their sum added in that order. *)
Inductive data_item : Type :=
| DetailData (l : list Pair.t)
| TypeValue (l : list type_value)
| TypeValueUnsorted (merged : list (string * JS.number))
                    (MetricName : option string).

Inductive body : Type :=
| Error_body (error : string)          (* { error: "..." } *)
| Exception_body (e : JS.exn)          (* { error: error.message } *)
| Raw_topn (apiData : topn_payload)
| Raw_zone (apiData : zone_payload)
| Raw_account (apiData : account_payload)
| Data (l : list data_item).           (* { Data: [...] } *)

(** *** The handler as a tree of upstream calls

    A leaf is the response sent; a node is one awaited upstream request
    with the continuation that receives its reply. *)

Record auth : Type := mkAuth { X_Auth_Email : string; X_Auth_Key : string }.

Record zone_variables : Type := mkZoneVariables {
  zoneIds : list string;
  from : string;
  to : string
}.

Record account_variables : Type := mkAccountVariables {
  var_accountTag : string;
  var_filter : list (string * string)
}.

Inductive prog : Type :=
| Respond (status : Z) (b : body)
| FetchZones (a : auth) (k : zones_reply -> prog)
| PostTopN (a : auth) (query : string)
           (k : JS.awaited topn_payload -> prog)
| PostZone (a : auth) (query : string) (variables : zone_variables)
           (k : JS.awaited zone_payload -> prog)
| PostAccount (a : auth) (query : string) (variables : account_variables)
              (k : JS.awaited account_payload -> prog).

(** The upstream side: what each endpoint answers. *)
Record upstream : Type := mkUpstream {
  zones_api : zones_reply;
  graphql_topn : string -> JS.awaited topn_payload;
  graphql_zone : string -> zone_variables -> JS.awaited zone_payload;
  graphql_account :
    string -> account_variables -> JS.awaited account_payload
}.

(** The upstream requests of a run, by endpoint. *)
Inductive call : Type :=
| ZoneListing
| GraphQL (query : string).

(** Running a handler against an upstream: the response and the calls
    made, in order. *)
Fixpoint run (u : upstream) (p : prog) : (Z * body) * list call :=
  match p with
  | Respond st b => ((st, b), [])
  | FetchZones _ k =>
      let (r, cs) := run u (k (zones_api u)) in (r, ZoneListing :: cs)
  | PostTopN _ q k =>
      let (r, cs) := run u (k (graphql_topn u q)) in (r, GraphQL q :: cs)
  | PostZone _ q v k =>
      let (r, cs) := run u (k (graphql_zone u q v)) in (r, GraphQL q :: cs)
  | PostAccount _ q v k =>
      let (r, cs) := run u (k (graphql_account u q v)) in
      (r, GraphQL q :: cs)
  end.

(** *** Query texts *)

(** The text an inherited member of [Object.prototype] interpolates
    as. *)
Definition inherited_text (k : string) : string :=
  if (k =? "__proto__")%string then "[object Object]"
  else "function "
       ++ (if (k =? "constructor")%string then "Object" else k)
       ++ "() { [native code] }".

Definition topn_query (zonetag queryFrom queryTo targetField : string)
  : string :=
  JS.unlines
    [ "";
      "            query{";
      "                viewer {";
      "                    zones(filter: { zoneTag: " ++ JS.quote ++ zonetag
        ++ JS.quote ++ " }) {";
      "                        httpRequestsAdaptiveGroups(";
      "                            limit: 10,";
      "                            orderBy: [count_DESC],";
      "                            filter: {";
      "                                datetime_geq: " ++ JS.quote
        ++ queryFrom ++ JS.quote ++ ",";
      "                                datetime_lt: " ++ JS.quote ++ queryTo
        ++ JS.quote;
      "                            }";
      "                        ) {";
      "                             count";
      "                            dimensions {";
      "                                " ++ targetField;
      "                            }";
      "                        }";
      "                    }";
      "                }";
      "            }" ].

Definition zone_query_text (datasetMode dimensionKey orderBy sumid : string)
  : string :=
  JS.unlines
    [ "";
      "            query getTrafficTrend($zoneIds: [String!], $from: String!) {";
      "              viewer {";
      "                zones(filter: { zoneTag_in: $zoneIds }) {";
      "                  zoneTag";
      "                  " ++ datasetMode ++ "(";
      "                    limit: 1000,";
      "                    filter: { ";
      "                        " ++ dimensionKey ++ "_geq: $from";
      "                    },";
      "                    orderBy: [" ++ orderBy ++ "]";
      "                  ) {";
      "                    dimensions { " ++ dimensionKey ++ " }";
      "                    sum { " ++ sumid ++ " }";
      "                  }";
      "                }";
      "              }";
      "            }";
      "            " ].

Definition zone_query (t : timeCfg) (c : config) : string :=
  zone_query_text (datasetMode t) (dimensionKey t) (orderBy t)
                  (JS.interp (sumid c)).

Definition account_query (operation httpMode limit orderByMode : string)
  (c : config) (dimensionMode : string) : string :=
  JS.unlines
    [ "";
      "                    query " ++ operation
        ++ "($accountTag: String, $filter: AccountHttpRequestsAdaptiveGroupsFilter_InputObject) {";
      "                        viewer {";
      "                            accounts(filter: {accountTag: $accountTag}) {";
      "                                resultData: " ++ httpMode
        ++ "(filter: $filter, limit: " ++ limit ++ ", orderBy: ["
        ++ orderByMode ++ "]) {";
      "                                    sum { " ++ JS.interp (sumid c)
        ++ " }";
      "                                    dimensions { " ++ dimensionMode
        ++ " }";
      "                                }";
      "                            }";
      "                        }";
      "                    }";
      "                " ].

(** *** Normalisers *)

(** [(a, b) => b.Value - a.Value] *)
Definition by_value_desc (a b : Pair.t) : Z := Pair.Value b - Pair.Value a.

(** The ad-hoc Top-N rows, in upstream order. *)
Definition topn_detail (groups : list topn_group) : list Pair.t :=
  map (fun group => Pair.mk (group_dimension group) (count group)) groups.

(** [fetchZones]: the identifiers and the identifier-to-name object. *)
Definition zone_ids (result : list zone_item) : list string := map zone_id result.

Definition id_name_map (result : list zone_item) : list (string * string) :=
  fold_left (fun idNameMap item => JS.set idNameMap (zone_id item) (zone_name item))
            result [].

(** [dataArr.reduce((acc, item) => acc + (item.sum?.[sumid] || 0), 0)] *)
Definition zone_total (dataArr : list zone_row) : Z :=
  fold_left (fun acc item => acc + match row_sum item with
                                   | Some v => v
                                   | None => 0
                                   end) dataArr 0.

Definition opt_list {A : Type} (o : option (list A)) : list A :=
  match o with
  | Some l => l
  | None => []
  end.

(** The zone-scope result: one pair per zone, sorted.  Zone tags are
    upstream identifiers; none is the name of a member of
    [Object.prototype]. *)
Definition zone_result (idNameMap : list (string * string))
  (zonesData : list zone_entry) : list Pair.t :=
  JS.sort by_value_desc
    (map (fun zone =>
            let zoneId := zoneTag zone in
            let domainName := JS.or_else (JS.own idNameMap zoneId) zoneId in
            Pair.mk domainName (zone_total (opt_list (zone_rows zone))))
         zonesData).

(** The account-scope distribution: one pair per row, sorted. *)
Definition distribution_detail (resultData : list row) : list Pair.t :=
  JS.sort by_value_desc
    (map (fun item => Pair.mk (dimension_value item) (sum_value item))
         resultData).

(** [(o[k] || 0) + v] written back to [o[k]]. *)
Definition accumulate (o : list (string * JS.number)) (k : string)
  (v : JS.number) : list (string * JS.number) :=
  JS.set o k (JS.plus (JS.or_zero (JS.own o k)) v).

(** [detail.reduce((acc, curr) => acc + curr.Value, 0)] *)
Definition total (detail : list Point.t) : JS.number :=
  fold_left (fun acc curr => JS.plus acc (Point.Value curr)) detail
            (JS.Finite 0).

Section Handler.

Variable fallback : string -> option Z.

(** [Math.floor(Date.parse(timeValue) / 1000)] *)
Definition epoch_seconds (timeValue : string) : option Z :=
  option_map (fun t => t / 1000) (JS.Date_parse fallback timeValue).

(** The loop that fills [merged]. *)
Definition merge (resultData : list row) : list (string * JS.number) :=
  fold_left (fun merged item =>
               let ts := epoch_seconds (dimension_value item) in
               accumulate merged (JS.ToString ts)
                          (JS.double (sum_value item)))
            resultData [].

(** Whether [(a, b) => Number(a[0]) - Number(b[0])] is a consistent
    comparator on the entries of [merged]: it is when no key is [NaN].
    With the key [NaN] a difference is [NaN], which a consistent
    comparator never returns. *)
Definition consistently_ordered (entries : list (string * JS.number))
  : bool :=
  forallb (fun e => match JS.Number_of_key (fst e) with
                    | Some _ => true
                    | None => false
                    end) entries.

(** [detail]: the entries of [merged] sorted by their numeric key.
    [None] when the comparator is not consistent on them: the order of
    the points is then left to the engine. *)
Definition detail_of (resultData : list row) : option (list Point.t) :=
  let entries := JS.Object_entries (merge resultData) in
  if consistently_ordered entries then
    Some (map (fun e => Point.mk (JS.Number_of_key (fst e)) (snd e))
              (JS.sort JS.by_number entries))
  else None.

(** The UTC day of a point, [YYYY-MM-DD]; [None] is the [RangeError] of
    [toISOString]. *)
Definition day_of (item : Point.t) : option string :=
  match Point.Timestamp item with
  | Some ts => option_map (JS.slice0 10) (JS.toISOString (ts * 1000))
  | None => None
  end.

(** The loop that fills [dayMerged]. *)
Fixpoint day_merge (detail : list Point.t)
  (dayMerged : list (string * JS.number))
  : option (list (string * JS.number)) :=
  match detail with
  | [] => Some dayMerged
  | item :: rest =>
      match day_of item with
      | Some day => day_merge rest (accumulate dayMerged day (Point.Value item))
      | None => None
      end
  end.

Definition by_day (a b : string * JS.number) : Z :=
  JS.localeCompare (fst a) (fst b).

(** The hour-to-day rollup of [detail]. *)
Definition rollup (detail : list Point.t) : option (list Point.t) :=
  match day_merge detail [] with
  | Some dayMerged =>
      Some (map (fun e => Point.mk (epoch_seconds (fst e ++ "T00:00:00Z"))
                                   (snd e))
                (JS.sort by_day (JS.Object_entries dayMerged)))
  | None => None
  end.

Definition isFunctionMetric (metricParam : option string) : bool :=
  match metricParam with
  | Some m => (m =? "function_requestCount")%string
              || (m =? "function_cpuCostTime")%string
  | None => false
  end.

(** [finalDetail] *)
Definition final_detail (metricParam : option string) (t : timeCfg)
  (detail : list Point.t) : option (list Point.t) :=
  if isFunctionMetric metricParam && isLongTerm t then rollup detail
  else Some detail.

(** *** The [/traffic] route *)

(** The [catch] of the route: [500] with the message of the error. *)
Definition caught (e : JS.exn) : prog := Respond 500 (Exception_body e).

(** [!secretId || !secretKey || !accountTag || !zonetag] *)
Definition credentials_missing (ks : keys) : bool :=
  negb (JS.truthy (secretId ks)) || negb (JS.truthy (secretKey ks))
  || negb (JS.truthy (accountTag ks)) || negb (JS.truthy (zonetag ks)).

(** [ZONE_TOPN_CONFIG[metricParam]] when it is truthy. *)
Definition topn_field (key : string) : option string :=
  match JS.get ZONE_TOPN_CONFIG key with
  | JS.Own f => if JS.truthy (Some f) then Some f else None
  | JS.Inherited => Some (inherited_text key)
  | JS.Undefined => None
  end.

(** [METRIC_MAP[metricParam]] when it is truthy. *)
Definition metric_config (key : string) : option config :=
  match JS.get METRIC_MAP key with
  | JS.Own c => Some c
  | JS.Inherited => Some (inherited_metric key)
  | JS.Undefined => None
  end.

Definition topn_branch (a : auth) (zonetag targetField : string)
  (t : timeCfg) : prog :=
  PostTopN a (topn_query zonetag (queryFrom t) (queryTo t) targetField)
    (fun reply =>
       match reply with
       | JS.Rejected e => caught e
       | JS.Fulfilled apiData =>
           match topn_errors apiData with
           | Some _ => Respond 400 (Raw_topn apiData)
           | None =>
               match topn_zones apiData with
               | Some (zone0 :: _) =>
                   match httpRequestsAdaptiveGroups zone0 with
                   | Some groups =>
                       Respond 200 (Data [DetailData (topn_detail groups)])
                   | None => caught JS.TypeError
                   end
               | _ => caught JS.TypeError
               end
           end
       end).

Definition zone_branch (a : auth) (c : config) (t : timeCfg) : prog :=
  FetchZones a
    (fun listing =>
       match listing with
       | ZonesRejected e => caught e
       | ZonesResponse ok statusText result =>
           if negb ok then
             caught (JS.Error ("Fetch Zones Failed: " ++ statusText))
           else
             let zoneIds := zone_ids (opt_list result) in
             let idNameMap := id_name_map (opt_list result) in
             match zoneIds with
             | [] => Respond 200 (Data [])
             | _ :: _ =>
                 PostZone a (zone_query t c)
                   (mkZoneVariables zoneIds (queryFrom t) (queryTo t))
                   (fun reply =>
                      match reply with
                      | JS.Rejected e => caught e
                      | JS.Fulfilled apiData =>
                          match zone_errors apiData with
                          | Some _ => Respond 400 (Raw_zone apiData)
                          | None =>
                              let zonesData := opt_list (zone_zones apiData) in
                              Respond 200
                                (Data [DetailData
                                         (zone_result idNameMap zonesData)])
                          end
                      end)
             end
       end).

(** The account-scope request: the query text and the filter sent. *)
Definition account_request (metricParam : option string) (c : config)
  (t : timeCfg) : string * string * list (string * string) :=
  if is_distribution c then
    let httpMode := "httpRequestsOverviewAdaptiveGroups" in
    let orderByMode := "sum_" ++ JS.interp (sumid c) ++ "_DESC" in
    let dimensionMode := JS.interp (dimension c) in
    let filterMode :=
      [("datetime_geq", start t); ("datetime_leq", end_ t)] in
    (account_query "GetAccountDistribution" httpMode "100" orderByMode c
                   dimensionMode,
     dimensionMode, filterMode)
  else
    let '(httpMode, orderByMode, dimensionMode) :=
      if isFunctionMetric metricParam
      then ("workersInvocationsAdaptive", "datetimeHour_ASC", "datetimeHour")
      else (datasetMode t, orderBy t, dimensionKey t) in
    (account_query "GetAccountTraffic" httpMode "1000" orderByMode c
                   dimensionMode,
     dimensionMode, filterObj t).

Definition account_branch (a : auth) (tag : string)
  (metricParam : option string) (c : config) (t : timeCfg) : prog :=
  let '(query, _, filterMode) := account_request metricParam c t in
  PostAccount a query (mkAccountVariables tag filterMode)
    (fun reply =>
       match reply with
       | JS.Rejected e => caught e
       | JS.Fulfilled apiData =>
           match account_errors apiData with
           | Some _ => Respond 400 (Raw_account apiData)
           | None =>
               match accounts apiData with
               | None | Some [] => Respond 200 (Data [])
               | Some (account0 :: _) =>
                   let resultData := opt_list (resultData account0) in
                   if is_distribution c then
                     Respond 200
                       (Data [DetailData (distribution_detail resultData)])
                   else
                     match detail_of resultData with
                     | Some detail =>
                         match final_detail metricParam t detail with
                         | None => caught JS.RangeError
                         | Some finalDetail =>
                             Respond 200
                               (Data [TypeValue
                                        [mkTypeValue finalDetail (name c)
                                                     (total detail)]])
                         end
                     | None =>
                         (* a point of [detail] has the timestamp [NaN]:
                            the day loop fails on it wherever it stands *)
                         if isFunctionMetric metricParam && isLongTerm t
                         then caught JS.RangeError
                         else
                           Respond 200
                             (Data [TypeValueUnsorted (merge resultData)
                                                      (name c)])
                     end
               end
           end
       end).

(** [app.get("/traffic", ...)] at the clock reading [now], with the
    credentials [getKeys()] found. *)
Definition traffic (now : Z) (ks : keys) (q : query) : prog :=
  if credentials_missing ks then
    Respond 401 (Error_body "Missing credentials")
  else
    let a := mkAuth (JS.interp (secretId ks)) (JS.interp (secretKey ks)) in
    let metricParam := metric q in
    let key := JS.property_key metricParam in
    match topn_field key with
    | Some targetField =>
        match getTimeConfig fallback now (startTime q) (endTime q) with
        | None => caught JS.RangeError
        | Some t => topn_branch a (JS.interp (zonetag ks)) targetField t
        end
    | None =>
        match metric_config key with
        | None => Respond 400 (Error_body "Invalid metric")
        | Some c =>
            match getTimeConfig fallback now (startTime q) (endTime q) with
            | None => caught JS.RangeError
            | Some t =>
                if match scope c with
                   | Some sc => (sc =? "zone")%string
                   | None => false
                   end
                then zone_branch a c t
                else account_branch a (JS.interp (accountTag ks))
                                    metricParam c t
            end
        end
    end.

End Handler.

End Cdn.

(** ** Edge adapter: the registry *)

Module Edge.

(** An entry of [METRIC_CONFIG]; [action] and [type] are optional in the
    literal. *)
Record config : Type := mkConfig {
  action : option string;
  field : option string;
  dimension : option string;
  type : option string
}.

Definition ts (f : string) : config :=
  mkConfig (Some "DescribeSiteTimeSeriesData") (Some f) (Some "ALL")
           (Some "TS").

Definition top (f d : string) : config :=
  mkConfig None (Some f) (Some d) None.

(** The literal as written, before the default fill. *)
Definition METRIC_CONFIG_literal : list (string * config) :=
  [ ("l7Flow_flux", ts "Traffic");
    ("l7Flow_inFlux", ts "RequestTraffic");
    ("l7Flow_outFlux", ts "Traffic");
    ("l7Flow_request", ts "Requests");
    ("l7Flow_request_country", top "Requests" "ClientCountryCode");
    ("l7Flow_outFlux_country", top "Traffic" "ClientCountryCode");
    ("l7Flow_outFlux_province", top "Traffic" "ClientProvinceCode");
    ("l7Flow_request_province", top "Requests" "ClientProvinceCode");
    ("l7Flow_outFlux_statusCode", top "Traffic" "EdgeResponseStatusCode");
    ("l7Flow_request_statusCode", top "Requests" "EdgeResponseStatusCode");
    ("l7Flow_outFlux_domain", top "Traffic" "ClientRequestHost");
    ("l7Flow_request_domain", top "Requests" "ClientRequestHost");
    ("l7Flow_outFlux_url", top "Traffic" "ClientRequestPath");
    ("l7Flow_request_url", top "Requests" "ClientRequestPath");
    ("l7Flow_outFlux_resourceType", top "Traffic" "EdgeResponseContentType");
    ("l7Flow_request_resourceType", top "Requests" "EdgeResponseContentType");
    ("l7Flow_outFlux_sip", top "Traffic" "ClientIP");
    ("l7Flow_request_sip", top "Requests" "ClientIP");
    ("l7Flow_outFlux_referers", top "Traffic" "ClientRequestReferer");
    ("l7Flow_request_referers", top "Requests" "ClientRequestReferer");
    ("l7Flow_outFlux_ua_os", top "Traffic" "ClientOS");
    ("l7Flow_request_ua_os", top "Requests" "ClientOS");
    ("l7Flow_outFlux_ua", top "Traffic" "ClientRequestUserAgent");
    ("l7Flow_request_ua", top "Requests" "ClientRequestUserAgent");
    ("l7Flow_outFlux_ua_device", top "Traffic" "ClientRequestMethod");
    ("l7Flow_request_ua_device", top "Requests" "ClientRequestMethod");
    ("l7Flow_outFlux_ua_browser", top "Traffic" "EdgeCacheStatus");
    ("l7Flow_request_ua_browser", top "Requests" "EdgeCacheStatus");
    ("l7Flow_outFlux_urlquery", top "Traffic" "ClientRequestQuery");
    ("l7Flow_url_res_query", top "Requests" "ClientRequestQuery") ].

(** The load-time loop over [Object.keys(METRIC_CONFIG)]: an entry
    without a truthy [action] becomes a Top-N entry. *)
Definition fill (m : config) : config :=
  if JS.truthy (action m) then m
  else mkConfig (Some "DescribeSiteTopData") (field m) (dimension m)
                (Some "TOP").

Definition METRIC_CONFIG : list (string * config) :=
  map (fun e => (fst e, fill (snd e))) METRIC_CONFIG_literal.

(** [METRIC_CONFIG[key]] for a member of [Object.prototype]: none of the
    four fields exists on it. *)
Definition inherited_metric : config := mkConfig None None None None.

(** *** Bytes, SHA-1, HMAC and base64

    [TextEncoder.encode] of a string is its bytes; [crypto.subtle.sign]
    with [{ name: 'HMAC', hash: 'SHA-1' }] is HMAC (RFC 2104) over SHA-1
    (FIPS 180); [btoa] is base64.  A 32-bit word is a [Z] reduced modulo
    2^32. *)

Definition bytes_of_string (s : string) : list Z :=
  map (fun c => Z.of_N (N_of_ascii c)) (list_ascii_of_string s).

Definition w32 (x : Z) : Z := x mod 2 ^ 32.
Definition rotl (n x : Z) : Z :=
  w32 (Z.lor (Z.shiftl x n) (Z.shiftr x (32 - n))).

(** Big-endian bytes of a word and of a 64-bit length. *)
Definition word_bytes (w : Z) : list Z :=
  [ Z.shiftr w 24 mod 256; Z.shiftr w 16 mod 256; Z.shiftr w 8 mod 256;
    w mod 256 ].

Definition length_bytes (n : Z) : list Z :=
  [ Z.shiftr n 56 mod 256; Z.shiftr n 48 mod 256; Z.shiftr n 40 mod 256;
    Z.shiftr n 32 mod 256; Z.shiftr n 24 mod 256; Z.shiftr n 16 mod 256;
    Z.shiftr n 8 mod 256; n mod 256 ].

(** The padded message: the bit 1, zeros up to 56 modulo 64, the bit
    length. *)
Definition sha1_pad (m : list Z) : list Z :=
  let len := Z.of_nat (List.length m) in
  let zeros := Z.to_nat ((55 - len) mod 64) in
  m ++ [128] ++ repeat 0 zeros ++ length_bytes (8 * len).

Fixpoint words_of (bs : list Z) : list Z :=
  match bs with
  | b0 :: b1 :: b2 :: b3 :: rest =>
      (Z.shiftl b0 24 + Z.shiftl b1 16 + Z.shiftl b2 8 + b3) :: words_of rest
  | _ => []
  end.

(** The message schedule: the sixteen words of the block, then sixty-four
    words each made from the window of the last sixteen. *)
Fixpoint schedule (n : nat) (window : list Z) : list Z :=
  match n with
  | O => []
  | S n' =>
      let w := rotl 1 (Z.lxor (Z.lxor (nth 13 window 0) (nth 8 window 0))
                              (Z.lxor (nth 2 window 0) (nth 0 window 0))) in
      w :: schedule n' (tl window ++ [w])
  end.

Definition state : Type := (Z * Z * Z * Z * Z)%type.

Definition round (t : Z) (s : state) (w : Z) : state :=
  let '(a, b, c, d, e) := s in
  let notb := Z.lxor b 4294967295 in
  let '(f, k) :=
    if t <? 20 then (Z.lor (Z.land b c) (Z.land notb d), 1518500249)
    else if t <? 40 then (Z.lxor (Z.lxor b c) d, 1859775393)
    else if t <? 60 then
      (Z.lor (Z.lor (Z.land b c) (Z.land b d)) (Z.land c d), 2400959708)
    else (Z.lxor (Z.lxor b c) d, 3395469782) in
  (w32 (rotl 5 a + f + e + k + w), a, rotl 30 b, c, d).

Fixpoint rounds (t : Z) (ws : list Z) (s : state) : state :=
  match ws with
  | [] => s
  | w :: ws' => rounds (t + 1) ws' (round t s w)
  end.

Definition compress (h : state) (block : list Z) : state :=
  let ws := words_of block in
  let '(a, b, c, d, e) := rounds 0 (ws ++ schedule 64 ws) h in
  let '(h0, h1, h2, h3, h4) := h in
  (w32 (h0 + a), w32 (h1 + b), w32 (h2 + c), w32 (h3 + d), w32 (h4 + e)).

(** The blocks of 64 bytes of a padded message; [n] bounds their
    number. *)
Fixpoint blocks (n : nat) (bs : list Z) : list (list Z) :=
  match n with
  | O => []
  | S n' =>
      match bs with
      | [] => []
      | _ => firstn 64 bs :: blocks n' (skipn 64 bs)
      end
  end.

Definition sha1_init : state :=
  (1732584193, 4023233417, 2562383102, 271733878, 3285377520).

Definition sha1_state (m : list Z) : state :=
  let p := sha1_pad m in
  fold_left compress (blocks (List.length p) p) sha1_init.

Definition state_bytes (s : state) : list Z :=
  let '(h0, h1, h2, h3, h4) := s in
  word_bytes h0 ++ word_bytes h1 ++ word_bytes h2 ++ word_bytes h3
  ++ word_bytes h4.

Definition sha1 (m : list Z) : list Z := state_bytes (sha1_state m).

(** HMAC: the key is hashed when longer than a block and padded with
    zeros to a block. *)
Definition hmac_key (key : list Z) : list Z :=
  let k := if (64 <? Z.of_nat (List.length key)) then sha1 key else key in
  k ++ repeat 0 (64 - List.length k).

Definition hmac_state (key msg : list Z) : state :=
  let k := hmac_key key in
  let ipad := map (fun b => Z.lxor b 54) k in
  let opad := map (fun b => Z.lxor b 92) k in
  sha1_state (opad ++ sha1 (ipad ++ msg)).

Definition hmac_sha1 (key msg : list Z) : list Z :=
  state_bytes (hmac_state key msg).

Definition base64_char (n : Z) : ascii :=
  if n <? 26 then ascii_of_N (Z.to_N (65 + n))
  else if n <? 52 then ascii_of_N (Z.to_N (97 + (n - 26)))
  else if n <? 62 then ascii_of_N (Z.to_N (48 + (n - 52)))
  else if n =? 62 then "+"%char
  else "/"%char.

Fixpoint btoa (bs : list Z) : string :=
  match bs with
  | [] => ""
  | [b0] =>
      String (base64_char (b0 / 4))
        (String (base64_char (b0 mod 4 * 16)) "==")
  | [b0; b1] =>
      String (base64_char (b0 / 4))
        (String (base64_char (b0 mod 4 * 16 + b1 / 16))
           (String (base64_char (b1 mod 16 * 4)) "="))
  | b0 :: b1 :: b2 :: rest =>
      String (base64_char (b0 / 4))
        (String (base64_char (b0 mod 4 * 16 + b1 / 16))
           (String (base64_char (b1 mod 16 * 4 + b2 / 64))
              (String (base64_char (b2 mod 64)) (btoa rest))))
  end.

(** [calculateSignature(secretKey, stringToSign)] *)
Definition calculateSignature (secretKey stringToSign : string) : string :=
  let keyBytes := bytes_of_string (secretKey ++ "&") in
  let messageBytes := bytes_of_string stringToSign in
  btoa (hmac_sha1 keyBytes messageBytes).

(** *** Percent encoding and the query string *)

Definition hex_digit (n : Z) : ascii :=
  if n <? 10 then ascii_of_N (Z.to_N (48 + n))
  else ascii_of_N (Z.to_N (55 + n)).

Definition percent (c : ascii) : string :=
  let n := Z.of_N (N_of_ascii c) in
  String "%" (String (hex_digit (n / 16)) (String (hex_digit (n mod 16)) "")).

Definition alphanumeric (c : ascii) : bool :=
  let n := Z.of_N (N_of_ascii c) in
  ((48 <=? n) && (n <=? 57)) || ((65 <=? n) && (n <=? 90))
  || ((97 <=? n) && (n <=? 122)).

Definition one_of (cs : string) (c : ascii) : bool :=
  existsb (fun x => (x =? c)%char) (list_ascii_of_string cs).

(** [encodeURIComponent]: letters, digits and [-_.!~*'()] stay, every
    other byte of the UTF-8 text becomes [%XX]. *)
Definition uri_unreserved (c : ascii) : bool :=
  alphanumeric c || one_of "-_.!~*'()" c.

Fixpoint encodeURIComponent (s : string) : string :=
  match s with
  | EmptyString => ""
  | String c s' =>
      (if uri_unreserved c then String c "" else percent c)
      ++ encodeURIComponent s'
  end.

(** [s.replace(/c/g, rep)] for a one-character pattern. *)
Fixpoint replace_char (c : ascii) (rep : string) (s : string) : string :=
  match s with
  | EmptyString => ""
  | String x s' =>
      if (x =? c)%char then rep ++ replace_char c rep s'
      else String x (replace_char c rep s')
  end.

(** [s.replace(/abc/g, rep)] for a three-character pattern. *)
Fixpoint replace3 (a b c : ascii) (rep : string) (s : string) : string :=
  match s with
  | EmptyString => ""
  | String x s1 =>
      match s1 with
      | String y (String z rest) =>
          if (x =? a)%char && (y =? b)%char && (z =? c)%char
          then rep ++ replace3 a b c rep rest
          else String x (replace3 a b c rep s1)
      | _ => String x (replace3 a b c rep s1)
      end
  end.

Definition percentEncode (str : string) : string :=
  replace3 "%" "7" "E" "~"
    (replace_char "*" "%2A"
       (replace_char "+" "%20" (encodeURIComponent str))).

(** [new URLSearchParams(params).toString()]: the form encoding, pairs in
    insertion order. *)
Fixpoint form_encode (s : string) : string :=
  match s with
  | EmptyString => ""
  | String c s' =>
      (if alphanumeric c || one_of "*-._" c then String c ""
       else if (c =? " ")%char then "+"
       else percent c)
      ++ form_encode s'
  end.

Definition URLSearchParams (params : list (string * string)) : string :=
  String.concat "&"
    (map (fun p => form_encode (fst p) ++ "=" ++ form_encode (snd p)) params).

(** *** Credentials, request and parameters *)

Record keys : Type := mkKeys {
  secretId : option string;
  secretKey : option string
}.

Record query : Type := mkQuery {
  metric : option string;
  startTime : option string;
  endTime : option string;
  interval : option string;
  Limit : option string;
  siteId : option string
}.

(** [d.toISOString().slice(0, 19) + 'Z'] *)
Definition formatISO (d : Z) : option string :=
  option_map (fun s => JS.slice0 19 s ++ "Z") (JS.toISOString d).

(** [JSON.stringify([{ FieldName: field, Dimension: [dimension] }])]; the
    registry's names are letters only, so a string prints between
    quotes; an undefined property is left out and an undefined array
    element prints as [null]. *)
Definition json_string (s : string) : string := JS.quote ++ s ++ JS.quote.

Definition Fields (c : config) : string :=
  "[{"
  ++ match field c with
     | Some f => json_string "FieldName" ++ ":" ++ json_string f ++ ","
     | None => ""
     end
  ++ json_string "Dimension" ++ ":["
  ++ match dimension c with
     | Some d => json_string d
     | None => "null"
     end
  ++ "]}]".

(** The [params] object, in the order of the literal.  [nonce] is the
    value of [Math.random().toString(36).substring(2) + Date.now()];
    [None] is the [RangeError] of [toISOString]. *)
Definition make_params (now : Z) (nonce : string) (id : string) (q : query)
  (c : config) : option (list (string * string)) :=
  let yesterday := now - 24 * 60 * 60 * 1000 in
  match (if JS.truthy (endTime q) then endTime q else formatISO now),
        (if JS.truthy (startTime q) then startTime q
         else formatISO yesterday),
        formatISO now with
  | Some EndTime, Some StartTime, Some Timestamp =>
      Some [ ("AccessKeyId", id);
             ("Action", JS.interp (action c));
             ("EndTime", EndTime);
             ("Fields", Fields c);
             ("Format", "json");
             ("Interval", JS.or_else (interval q) "60");
             ("Limit", JS.or_else (Limit q) "10");
             ("Metric", JS.interp (dimension c));
             ("SignatureMethod", "HMAC-SHA1");
             ("SignatureNonce", nonce);
             ("SignatureVersion", "1.0");
             ("SiteId", JS.or_else (siteId q) "");
             ("StartTime", StartTime);
             ("Timestamp", Timestamp);
             ("Version", "2024-09-10") ]
  | _, _, _ => None
  end.

(** [Object.keys(params).sort()]: the default order of strings. *)
Definition sorted_keys (params : list (string * string)) : list string :=
  JS.sort JS.code_unit_order (map fst params).

Definition canonicalizedQuery (params : list (string * string)) : string :=
  String.concat "&"
    (map (fun key =>
            percentEncode key ++ "="
            ++ percentEncode (JS.interp (JS.own params key)))
         (sorted_keys params)).

Definition stringToSign (params : list (string * string)) : string :=
  "GET&" ++ percentEncode "/" ++ "&"
  ++ percentEncode (canonicalizedQuery params).

Definition Signature (secretKey : string) (params : list (string * string))
  : string :=
  calculateSignature secretKey (stringToSign params).

(** [params] after [params.Signature = ...] and the URL fetched. *)
Definition signed_params (secretKey : string)
  (params : list (string * string)) : list (string * string) :=
  JS.set params "Signature" (Signature secretKey params).

Definition apiUrl (secretKey : string) (params : list (string * string))
  : string :=
  "https://esa.cn-hangzhou.aliyuncs.com/?"
  ++ URLSearchParams (signed_params secretKey params).

(** *** Upstream payload and response *)

(** The upstream JSON, typed where the handler reads it; [fields] are the
    members it passes through untouched. *)
Module Api.
Record row : Type := mkRow {
  Value : option Z;
  DimensionValue : option string;
  TimeStamp : option string
}.
Record item : Type := mkItem {
  DetailData : option (list row);    (* when it is an array *)
  fields : list (string * string)
}.
Record summary : Type := mkSummary { SummaryValue : option Z }.
Record data : Type := mkData {
  Data : option (list item);
  SummarizedData : option (list summary);
  rest : list (string * string)
}.
End Api.

(** The body sent back on success: [apiData] after the rewriting. *)
Module Out.
Record point : Type := mkPoint { Value : Z; Timestamp : option Z }.
Record type_value : Type := mkTypeValue {
  MetricName : option string;
  Sum : Z;
  Detail : list point
}.
Record row : Type := mkRow {
  RowValue : option Z;               (* Value *)
  Key : option string;
  TimeStamp : option string          (* present when truthy upstream *)
}.
(** A Top-N item with its rows rewritten, the series item with
    [TypeValue] in place of [DetailData], or an item left as it came. *)
Inductive item : Type :=
| TopItem (DetailData : list row) (fields : list (string * string))
| SeriesItem (TypeValue : list type_value) (fields : list (string * string))
| Untouched (i : Api.item).
Record data : Type := mkData {
  Data : option (list item);
  SummarizedData : option (list Api.summary);
  rest : list (string * string)
}.
End Out.

Inductive body : Type :=
| Error_body (error : string)          (* { error: "..." } *)
| Exception_body (e : JS.exn)          (* { error: "Server error: " + message } *)
| Api_error (detail : string)          (* { error: "Aliyun API error", detail } *)
| Json (apiData : Out.data).

(** The reply to the signed request: the request failed; or a response
    came, with its [ok] flag, its status, the text of its body and the
    outcome of reading the body as JSON; or a response came that is not
    [ok] and whose body cannot be read, [text()] rejecting. *)
Inductive api_reply : Type :=
| ApiRejected (e : JS.exn)
| ApiResponse (ok : bool) (status : Z) (text : string)
              (json : JS.awaited Api.data)
| ApiUnreadable (status : Z) (e : JS.exn).

Inductive prog : Type :=
| Respond (status : Z) (b : body)
| Fetch (url : string) (k : api_reply -> prog).

Fixpoint run (upstream : string -> api_reply) (p : prog)
  : (Z * body) * list string :=
  match p with
  | Respond st b => ((st, b), [])
  | Fetch url k =>
      let (r, cs) := run upstream (k (upstream url)) in (r, url :: cs)
  end.

(** A row of a Top-N item: [DimensionValue] renamed to [Key], [Value]
    kept, [TimeStamp] kept when truthy. *)
Definition top_row (r : Api.row) : Out.row :=
  Out.mkRow (Api.Value r) (Api.DimensionValue r)
            (if JS.truthy (Api.TimeStamp r) then Api.TimeStamp r else None).

Definition top_item (i : Api.item) : Out.item :=
  match Api.DetailData i with
  | Some l => Out.TopItem (map top_row l) (Api.fields i)
  | None => Out.Untouched i
  end.

Section Handler.

Variable fallback : string -> option Z.

(** A point of a time series: [item.Value || 0] and the epoch second of
    [item.TimeStamp], 0 when it is falsy. *)
Definition ts_point (r : Api.row) : Out.point :=
  Out.mkPoint
    (match Api.Value r with Some v => v | None => 0 end)
    (if JS.truthy (Api.TimeStamp r)
     then option_map (fun t => t / 1000)
            (JS.Date_parse fallback (JS.interp (Api.TimeStamp r)))
     else Some 0).

(** [apiData.SummarizedData?.[0]?.Value || 0] *)
Definition summarized (d : Api.data) : Z :=
  match Api.SummarizedData d with
  | Some (s0 :: _) =>
      match Api.SummaryValue s0 with Some v => v | None => 0 end
  | _ => 0
  end.

(** The rewriting of [apiData] before it is sent. *)
Definition transform (metricKey : option string) (c : config)
  (apiData : Api.data) : Out.data :=
  match Api.Data apiData with
  | Some (item0 :: items) =>
      if match type c with
         | Some t => (t =? "TS")%string
         | None => false
         end
      then
        let detailList :=
          map ts_point (match Api.DetailData item0 with
                        | Some l => l
                        | None => []
                        end) in
        Out.mkData
          (Some (Out.SeriesItem
                   [Out.mkTypeValue metricKey (summarized apiData)
                                    detailList]
                   (Api.fields item0)
                 :: map Out.Untouched items))
          None (Api.rest apiData)
      else
        Out.mkData (Some (map top_item (item0 :: items)))
                   (Api.SummarizedData apiData) (Api.rest apiData)
  | other =>
      Out.mkData (option_map (map Out.Untouched) other)
                 (Api.SummarizedData apiData) (Api.rest apiData)
  end.

(** The [catch] of the route: [500] with the message of the error
    behind ["Server error: "]. *)
Definition caught (e : JS.exn) : prog := Respond 500 (Exception_body e).

(** The [error] member of a body sent, [message] being the
    [error.message] of what was thrown. *)
Definition error_member (message : JS.exn -> string) (b : body)
  : option string :=
  match b with
  | Error_body error => Some error
  | Exception_body e => Some ("Server error: " ++ message e)
  | Api_error _ => Some "Aliyun API error"
  | Json _ => None
  end.

(** [!secretId || !secretKey] *)
Definition credentials_missing (ks : keys) : bool :=
  negb (JS.truthy (secretId ks)) || negb (JS.truthy (secretKey ks)).

(** [METRIC_CONFIG[metricKey]] when it is truthy. *)
Definition metric_config (key : string) : option config :=
  match JS.get METRIC_CONFIG key with
  | JS.Own c => Some c
  | JS.Inherited => Some inherited_metric
  | JS.Undefined => None
  end.

(** [app.get('/traffic', ...)] at the clock reading [now], with the
    nonce drawn for this request. *)
Definition traffic (now : Z) (nonce : string) (ks : keys) (q : query)
  : prog :=
  if credentials_missing ks then
    Respond 500 (Error_body "Missing credentials")
  else
    let metricKey := metric q in
    match metric_config (JS.property_key metricKey) with
    | None => Respond 400 (Error_body "Invalid metric parameter")
    | Some c =>
        match make_params now nonce (JS.interp (secretId ks)) q c with
        | None => caught JS.RangeError
        | Some params =>
            Fetch (apiUrl (JS.interp (secretKey ks)) params)
              (fun reply =>
                 match reply with
                 | ApiRejected e => caught e
                 | ApiResponse ok status text json =>
                     if negb ok then Respond status (Api_error text)
                     else
                       match json with
                       | JS.Rejected e => caught e
                       | JS.Fulfilled apiData =>
                           Respond 200 (Json (transform metricKey c apiData))
                       end
                 | ApiUnreadable _ e => caught e
                 end)
        end
    end.

End Handler.

End Edge.

(** ** Reading the credentials: [getKeys]

    Both adapters take their credentials from the environment and, when
    one is missing there, from the file [key.txt] of the working
    directory.  The text of the file is the string
    [readFileSync(keyPath, "utf-8")] returns, kept as the bytes of its
    UTF-8 form: a character outside ASCII is the two or three bytes that
    encode it, and a search for it is a search for these bytes. *)

Module KeyFile.

(** The file as [getKeys] meets it: absent ([existsSync] is false),
    unreadable (a failure inside the [try], which the [catch] logs), or
    read. *)
Inductive key_file : Type :=
| Absent
| Unreadable
| Content (content : string).

(** The UTF-8 form of a code point of the basic plane. *)
Definition utf8 (cp : N) : string :=
  if (cp <? 128)%N then String (ascii_of_N cp) ""
  else if (cp <? 2048)%N then
    String (ascii_of_N (192 + cp / 64))
      (String (ascii_of_N (128 + cp mod 64)) "")
  else
    String (ascii_of_N (224 + cp / 4096))
      (String (ascii_of_N (128 + cp / 64 mod 64))
         (String (ascii_of_N (128 + cp mod 64)) "")).

(** The full-width colon U+FF1A, which the pattern of [line.split]
    accepts next to the ASCII colon. *)
Definition fullwidth_colon : string := utf8 65306.

(** The white space and the line terminators [trim] removes: TAB, LF,
    VT, FF, CR, SP, NBSP, the space separators U+1680, U+2000 to U+200A,
    U+202F, U+205F and U+3000, the separators U+2028 and U+2029, and
    U+FEFF. *)
Definition white_space : list string :=
  map utf8
    [ 9; 10; 11; 12; 13; 32; 160; 5760; 8192; 8193; 8194; 8195; 8196; 8197;
      8198; 8199; 8200; 8201; 8202; 8232; 8233; 8239; 8287; 12288;
      65279 ]%N.

Definition is_space (w : string) : bool :=
  existsb (String.eqb w) white_space.

Fixpoint reverse (s : string) : string :=
  match s with
  | EmptyString => ""
  | String c s' => reverse s' ++ String c ""
  end.

(** The bytes [a], [b], [c] met in that order when reading forwards, or
    in the opposite order when reading a reversed text. *)
Definition spell (backwards : bool) (w : string) : string :=
  if backwards then reverse w else w.

(** Dropping the white space a text starts with; with [backwards], the
    text is a reversed one. *)
Fixpoint strip (backwards : bool) (s : string) : string :=
  match s with
  | EmptyString => ""
  | String a r1 =>
      if is_space (String a "") then strip backwards r1
      else
        match r1 with
        | EmptyString => s
        | String b r2 =>
            if is_space (spell backwards (String a (String b "")))
            then strip backwards r2
            else
              match r2 with
              | EmptyString => s
              | String c r3 =>
                  if is_space (spell backwards
                                 (String a (String b (String c ""))))
                  then strip backwards r3
                  else s
              end
        end
  end.

Definition trimStart (s : string) : string := strip false s.
Definition trimEnd (s : string) : string :=
  reverse (strip true (reverse s)).

(** [s.trim()] *)
Definition trim (s : string) : string := trimEnd (trimStart s).

(** [s.includes(pat)] *)
Fixpoint includes (s pat : string) : bool :=
  String.prefix pat s
  || match s with
     | EmptyString => false
     | String _ s' => includes s' pat
     end.

(** A character in front of the first piece of a split. *)
Definition push (c : ascii) (pieces : list string) : list string :=
  match pieces with
  | piece :: rest => String c piece :: rest
  | [] => [String c ""]
  end.

(** [content.split("\n")] *)
Fixpoint split_lines (s : string) : list string :=
  match s with
  | EmptyString => [""]
  | String c rest =>
      if (c =? "010")%char then "" :: split_lines rest
      else push c (split_lines rest)
  end.

(** [line.split(pattern)], the pattern being the class of the two
    colons: the pieces between them. *)
Fixpoint split_colon (s : string) : list string :=
  match s with
  | EmptyString => [""]
  | String a r1 =>
      if (a =? ":")%char then "" :: split_colon r1
      else
        match r1 with
        | String b (String c r3) =>
            if (String a (String b (String c "")) =? fullwidth_colon)%string
            then "" :: split_colon r3
            else push a (split_colon r1)
        | _ => push a (split_colon r1)
        end
  end.

End KeyFile.

(** [getKeys] of the CDN adapter; [env] holds [CFSECRET_ID],
    [CFSECRET_KEY], [CFACCOUNT_TAG] and [CFZONE_TAG] of the
    environment. *)
Module CdnKeys.

Import JS KeyFile Cdn.

(** The body of the [forEach] over the lines: [val] is the second piece
    of the line; a line without one, or with an empty one, is skipped,
    and any other line gives its trimmed [val] to every credential whose
    marker it includes. *)
Definition read_line (ks : keys) (line : string) : keys :=
  match nth_error (split_colon line) 1 with
  | None => ks
  | Some val =>
      if (val =? "")%string then ks
      else
        let trimmedVal := Some (trim val) in
        mkKeys
          (if includes line "cfid" then trimmedVal else secretId ks)
          (if includes line "cfkey" then trimmedVal else secretKey ks)
          (if includes line "cfuserid" then trimmedVal else accountTag ks)
          (if includes line "zonetag" then trimmedVal else zonetag ks)
  end.

Definition getKeys (env : keys) (file : key_file) : keys :=
  if truthy (secretId env) && truthy (secretKey env)
     && truthy (accountTag env) && truthy (zonetag env)
  then env
  else
    match file with
    | Content content => fold_left read_line (split_lines content) env
    | Absent | Unreadable => env
    end.

End CdnKeys.

(** [getKeys] of the edge adapter; [env] holds [ESASECRET_ID] and
    [ESASECRET_KEY]. *)
Module EdgeKeys.

Import JS KeyFile Edge.

(** The body of the [forEach]: a line that includes a marker gives the
    credential [line.split(pattern)[1]?.trim()], which is [undefined]
    for a line without a colon. *)
Definition read_line (ks : keys) (line : string) : keys :=
  let value := option_map trim (nth_error (split_colon line) 1) in
  mkKeys
    (if includes line "accessKeyId" then value else secretId ks)
    (if includes line "accessKeySecret" then value else secretKey ks).

Definition getKeys (env : keys) (file : key_file) : keys :=
  if truthy (secretId env) && truthy (secretKey env) then env
  else
    match file with
    | Content content => fold_left read_line (split_lines content) env
    | Absent | Unreadable => env
    end.

End EdgeKeys.

(** * Notions of the statements and of the proofs *)

(** ** Orders, calendar ranges and texts *)

Module JSSpec.

Import JS.

(** The comparator orders the elements of [l] as the key [f] does. *)
Definition ordered_by {A : Type} (cmp : A -> A -> Z) (f : A -> Z)
  (l : list A) : Prop :=
  forall x y, In x l -> In y l -> (cmp x y <=? 0) = (f x <=? f y).

(** A list in descending order of [f]. *)
Definition descending_by {A : Type} (f : A -> Z) (l : list A) : Prop :=
  StronglySorted (fun a b => f b <= f a) l.

(** [output] keeps the elements of equal [f] in the order [input] has
    them. *)
Definition ties_in_order {A : Type} (f : A -> Z) (input output : list A)
  : Prop :=
  forall v, filter (fun a => f a =? v) output
            = filter (fun a => f a =? v) input.

(** [output] is [input] sorted descending by [f] by a stable sort. *)
Definition stable_descending {A : Type} (f : A -> Z)
  (input output : list A) : Prop :=
  Permutation input output /\ descending_by f output
  /\ ties_in_order f input output.

(** The instants of the years 0000 to 9999, from
    [0000-01-01T00:00:00.000Z] to [9999-12-31T23:59:59.999Z]. *)
Definition in_four_digit_years (t : Z) : Prop :=
  -62167219200000 <= t <= 253402300799999.

(** The calendar date of an instant as [toISOString] prints it in those
    years. *)
Definition date_text (t : Z) : string :=
  pad 4 (YearFromTime t) ++ "-" ++ pad 2 (MonthFromTime t + 1) ++ "-"
  ++ pad 2 (DateFromTime t).

(** A text of ten characters that spells a calendar date,
    [YYYY-MM-DD]. *)
Definition date_only (s : string) : bool :=
  (String.length s =? 10)%nat
  && match parse_iso s with
     | Some _ => true
     | None => false
     end.

(** Whether [pat] occurs in [s]. *)
Fixpoint includes (pat s : string) : bool :=
  String.prefix pat s
  || match s with
     | EmptyString => false
     | String _ s' => includes pat s'
     end.

End JSSpec.

(** ** Rows, points and buckets of the CDN adapter *)

Module CdnSpec.

Import JS JSSpec Cdn.

(** A bound as [getTimeConfig] resolves it: the request's value when it
    is truthy, else the ISO text of the default instant. *)
Definition resolved (req : option string) (default : Z) (s : string) : Prop :=
  if truthy req then req = Some s else toISOString default = Some s.

(** The two shapes of a time configuration. *)
Definition day_dataset (t : timeCfg) : Prop :=
  queryFrom t = slice0 10 (start t) /\ queryTo t = slice0 10 (end_ t)
  /\ datasetMode t = "httpRequests1dGroups" /\ orderBy t = "date_ASC"
  /\ dimensionKey t = "date"
  /\ filterObj t = [("date_geq", queryFrom t); ("date_leq", queryTo t)].

Definition hour_dataset (t : timeCfg) : Prop :=
  queryFrom t = start t /\ queryTo t = end_ t
  /\ datasetMode t = "httpRequests1hGroups" /\ orderBy t = "datetime_ASC"
  /\ dimensionKey t = "datetime"
  /\ filterObj t
     = [("datetime_geq", queryFrom t); ("datetime_leq", queryTo t)].

(** The filter clause of the zone-scope query, as the template writes
    it. *)
Definition zone_filter_clause (dimensionKey : string) : string :=
  unlines [ "                    filter: { ";
            "                        " ++ dimensionKey ++ "_geq: $from";
            "                    }," ].

(** The pairs the two sorting paths start from: one per row of the
    account-scope distribution, one per zone of the zone-scope reply. *)
Definition distribution_pairs (resultData : list row) : list Pair.t :=
  map (fun item => Pair.mk (dimension_value item) (sum_value item))
      resultData.

Definition zone_pairs (idNameMap : list (string * string))
  (zonesData : list zone_entry) : list Pair.t :=
  map (fun zone =>
         Pair.mk (or_else (own idNameMap (zoneTag zone)) (zoneTag zone))
                 (zone_total (opt_list (zone_rows zone))))
      zonesData.

(** The epoch second a time string stands for: the whole seconds of the
    instant it spells in the date-time format, else of what the engine
    reads it as, if anything. *)
Definition second_of (fallback : string -> option Z) (s : string)
  : option Z :=
  match parse_iso s with
  | Some instant => Some (instant / 1000)
  | None => match fallback s with
            | Some instant => Some (instant / 1000)
            | None => None
            end
  end.

(** Every row carries a time string that parses. *)
Definition parses (fallback : string -> option Z) (rows : list row)
  : Prop :=
  forall r, In r rows -> second_of fallback (dimension_value r) <> None.

(** The rows whose time string resolves to the epoch second [ts], and the
    sum of the values of some rows. *)
Definition same_second (fallback : string -> option Z) (ts : Z) (r : row)
  : bool :=
  match second_of fallback (dimension_value r) with
  | Some t => t =? ts
  | None => false
  end.

Definition rows_at (fallback : string -> option Z) (ts : Z)
  (rows : list row) : list row :=
  filter (same_second fallback ts) rows.

Definition sum_values (rows : list row) : Z :=
  fold_right (fun r acc => sum_value r + acc) 0 rows.

(** The rows whose time string does not parse. *)
Definition unparsed (fallback : string -> option Z) (rows : list row)
  : list row :=
  filter (fun r => match second_of fallback (dimension_value r) with
                   | Some _ => false
                   | None => true
                   end) rows.

(** Rows whose values, in absolute value, sum to less than [2^53]: every
    sum of some of them is then an integer a double holds exactly. *)
Definition magnitude (rows : list row) : Z :=
  fold_right (fun r acc => Z.abs (sum_value r) + acc) 0 rows.

Definition exactly_summable (rows : list row) : Prop :=
  magnitude rows < 2 ^ 53.

(** A point strictly earlier than another; no [NaN] on either side. *)
Definition before (p q : Point.t) : Prop :=
  match Point.Timestamp p, Point.Timestamp q with
  | Some a, Some b => a < b
  | _, _ => False
  end.

(** The UTC day of an epoch second, the points of [detail] on a day and
    the exact sum of the values of some points, each an integer. *)
Definition day_number (ts : Z) : Z := ts / 86400.

Definition on_day (day : Z) (p : Point.t) : bool :=
  match Point.Timestamp p with
  | Some ts => day_number ts =? day
  | None => false
  end.

Definition points_on (day : Z) (detail : list Point.t) : list Point.t :=
  filter (on_day day) detail.

Definition integral (p : Point.t) : Prop :=
  exists z, Point.Value p = Finite z.

Definition integer (x : number) : Z :=
  match x with
  | Finite z => z
  | _ => 0
  end.

Definition sum_points (l : list Point.t) : Z :=
  fold_right (fun p acc => integer (Point.Value p) + acc) 0 l.

(** Points that all carry a timestamp within the years 0000 to 9999. *)
Definition dated (detail : list Point.t) : Prop :=
  forall p, In p detail ->
            exists ts, Point.Timestamp p = Some ts
                       /\ in_four_digit_years (ts * 1000).

End CdnSpec.

(** ** The sums of the time series in exact arithmetic

    For the proofs: the merge, its sorted entries, the total and the
    rollup written over the integers, where no addition rounds.
    [NumberFacts] shows that the handler computes the same when every
    time string parses, so that the sort has a consistent comparator,
    and every sum stays within the integers a double holds exactly. *)

Module Exact.

Import JS JSSpec CdnSpec.

Module Point.
Record t : Type := mk { Timestamp : option Z; Value : Z }.
End Point.

Definition accumulate (o : list (string * Z)) (k : string) (v : Z)
  : list (string * Z) :=
  set o k (match own o k with
           | Some x => x
           | None => 0
           end + v).

Definition total (detail : list Point.t) : Z :=
  fold_left (fun acc curr => acc + Point.Value curr) detail 0.

Definition merge (fallback : string -> option Z) (resultData : list Cdn.row)
  : list (string * Z) :=
  fold_left (fun merged item =>
               let ts := second_of fallback (Cdn.dimension_value item) in
               accumulate merged (ToString ts) (Cdn.sum_value item))
            resultData [].

Definition detail_of (fallback : string -> option Z)
  (resultData : list Cdn.row) : list Point.t :=
  map (fun e => Point.mk (Number_of_key (fst e)) (snd e))
      (sort by_number (Object_entries (merge fallback resultData))).

Definition day_of (item : Point.t) : option string :=
  match Point.Timestamp item with
  | Some ts => option_map (slice0 10) (toISOString (ts * 1000))
  | None => None
  end.

Fixpoint day_merge (detail : list Point.t) (dayMerged : list (string * Z))
  : option (list (string * Z)) :=
  match detail with
  | [] => Some dayMerged
  | item :: rest =>
      match day_of item with
      | Some day => day_merge rest (accumulate dayMerged day (Point.Value item))
      | None => None
      end
  end.

Definition by_day (a b : string * Z) : Z := localeCompare (fst a) (fst b).

Definition rollup (fallback : string -> option Z) (detail : list Point.t)
  : option (list Point.t) :=
  match day_merge detail [] with
  | Some dayMerged =>
      Some (map (fun e => Point.mk (second_of fallback (fst e ++ "T00:00:00Z"))
                                   (snd e))
                (sort by_day (Object_entries dayMerged)))
  | None => None
  end.

(** The vocabulary of [CdnSpec] for these points. *)
Definition before (p q : Point.t) : Prop :=
  match Point.Timestamp p, Point.Timestamp q with
  | Some a, Some b => a < b
  | _, _ => False
  end.

Definition on_day (day : Z) (p : Point.t) : bool :=
  match Point.Timestamp p with
  | Some ts => day_number ts =? day
  | None => false
  end.

Definition points_on (day : Z) (detail : list Point.t) : list Point.t :=
  filter (on_day day) detail.

Definition sum_points (l : list Point.t) : Z :=
  fold_right (fun p acc => Point.Value p + acc) 0 l.

Definition dated (detail : list Point.t) : Prop :=
  forall p, In p detail ->
            exists ts, Point.Timestamp p = Some ts
                       /\ in_four_digit_years (ts * 1000).

(** Reading an object with 0 for an absent key, an object filled by
    [accumulate] from a list of items, and the sum filed under a key. *)
Definition lookup0 (o : list (string * Z)) (k : string) : Z :=
  match own o k with
  | Some x => x
  | None => 0
  end.

Definition accumulate_all {I : Type} (kf : I -> string) (vf : I -> Z)
  (l : list I) (o : list (string * Z)) : list (string * Z) :=
  fold_left (fun m item => accumulate m (kf item) (vf item)) l o.

Fixpoint filed {I : Type} (kf : I -> string) (vf : I -> Z) (k : string)
  (l : list I) : Z :=
  match l with
  | [] => 0
  | item :: l' =>
      (if (kf item =? k)%string then vf item else 0) + filed kf vf k l'
  end.

Definition sum_entries (o : list (string * Z)) : Z :=
  fold_right (fun e acc => snd e + acc) 0 o.

(** The key of a row in [merged], the number a key spells and the sorted
    entries of [merged]. *)
Definition row_key (fallback : string -> option Z) (r : Cdn.row) : string :=
  ToString (second_of fallback (Cdn.dimension_value r)).

Definition key_number (e : string * Z) : Z :=
  match Number_of_key (fst e) with
  | Some z => z
  | None => 0
  end.

Definition sorted_entries (fallback : string -> option Z)
  (rows : list Cdn.row) : list (string * Z) :=
  sort by_number (Object_entries (merge fallback rows)).

(** The key of a point in [dayMerged] and the sorted entries of
    [dayMerged]. *)
Definition day_key (p : Point.t) : string :=
  match Point.Timestamp p with
  | Some ts => date_text (ts * 1000)
  | None => ""
  end.

Definition day_entries (detail : list Point.t) : list (string * Z) :=
  sort by_day (Object_entries (accumulate_all day_key Point.Value detail [])).

(** The handler's points and entries these stand for. *)
Definition number_entry (e : string * Z) : string * number :=
  (fst e, Finite (snd e)).

Definition number_point (p : Point.t) : Cdn.Point.t :=
  Cdn.Point.mk (Point.Timestamp p) (Finite (Point.Value p)).

(** The sum of the absolute values of the entries of an object and of
    the points of a list. *)
Definition weight (o : list (string * Z)) : Z :=
  fold_right (fun e acc => Z.abs (snd e) + acc) 0 o.

Definition points_weight (l : list Point.t) : Z :=
  fold_right (fun p acc => Z.abs (Point.Value p) + acc) 0 l.

(** The sum of the absolute values a list of items adds to an object. *)
Definition load {I : Type} (vf : I -> Z) (l : list I) : Z :=
  fold_right (fun i acc => Z.abs (vf i) + acc) 0 l.

End Exact.

(** ** Encodings, digests and parameter maps of the edge adapter *)

Module EdgeSpec.

Import JS JSSpec Edge.

(** The value of a Top-N row, as a number. *)
Definition row_value (r : Out.row) : Z :=
  match Out.RowValue r with
  | Some v => v
  | None => 0
  end.

(** The keys of the [params] literal. *)
Definition param_keys : list string :=
  [ "AccessKeyId"; "Action"; "EndTime"; "Fields"; "Format"; "Interval";
    "Limit"; "Metric"; "SignatureMethod"; "SignatureNonce";
    "SignatureVersion"; "SiteId"; "StartTime"; "Timestamp"; "Version" ].

(** A request for [l7Flow_flux] with the site identifier [s] and no
    other parameter, and its [params] at midnight of 1 January 2024 with
    the access key ["id"] and the nonce ["n1"]. *)
Definition site_query (s : string) : query :=
  mkQuery (Some "l7Flow_flux") None None None None (Some s).

Definition site_params (s : string) : list (string * string) :=
  [ ("AccessKeyId", "id");
    ("Action", "DescribeSiteTimeSeriesData");
    ("EndTime", "2024-01-01T00:00:00Z");
    ("Fields", "[{" ++ quote ++ "FieldName" ++ quote ++ ":" ++ quote
               ++ "Traffic" ++ quote ++ "," ++ quote ++ "Dimension" ++ quote
               ++ ":[" ++ quote ++ "ALL" ++ quote ++ "]}]");
    ("Format", "json");
    ("Interval", "60");
    ("Limit", "10");
    ("Metric", "ALL");
    ("SignatureMethod", "HMAC-SHA1");
    ("SignatureNonce", "n1");
    ("SignatureVersion", "1.0");
    ("SiteId", s);
    ("StartTime", "2023-12-31T00:00:00Z");
    ("Timestamp", "2024-01-01T00:00:00Z");
    ("Version", "2024-09-10") ].

(** For the proofs: what [percentEncode] makes of one character and of a
    string, character by character; what [encodeURIComponent] makes of
    one character. *)
Definition pe_char (c : ascii) : string :=
  if uri_unreserved c && negb (c =? "*")%char then String c "" else percent c.

Fixpoint pe (s : string) : string :=
  match s with
  | EmptyString => ""
  | String c s' => pe_char c ++ pe s'
  end.

Definition uri_token (c : ascii) : string :=
  if uri_unreserved c then String c "" else percent c.

(** For the proofs: reading one encoded character back. *)
Definition hex_value (c : ascii) : N :=
  let n := N_of_ascii c in
  if (n <? 58)%N then (n - 48)%N else (n - 55)%N.

Definition decode_head (s : string) : option (ascii * string) :=
  match s with
  | EmptyString => None
  | String c rest =>
      if (c =? "%")%char then
        match rest with
        | String x (String y rest') =>
            Some (ascii_of_N (16 * hex_value x + hex_value y), rest')
        | _ => None
        end
      else Some (c, rest)
  end.

(** For the proofs: whether a character occurs in a string, and one
    [key=value] pair of the canonical query. *)
Fixpoint has_char (x : ascii) (s : string) : bool :=
  match s with
  | EmptyString => false
  | String c s' => (c =? x)%char || has_char x s'
  end.

Definition canonical_pair (params : list (string * string)) (key : string)
  : string :=
  percentEncode key ++ "=" ++ percentEncode (interp (own params key)).

(** For the proofs: a state of five 32-bit words and the number below
    2^160 it spells. *)
Definition words (s : state) : Prop :=
  let '(a, b, c, d, e) := s in
  0 <= a < 2 ^ 32 /\ 0 <= b < 2 ^ 32 /\ 0 <= c < 2 ^ 32
  /\ 0 <= d < 2 ^ 32 /\ 0 <= e < 2 ^ 32.

Definition digest_number (s : state) : Z :=
  let '(a, b, c, d, e) := s in
  a * 2 ^ 128 + b * 2 ^ 96 + c * 2 ^ 64 + d * 2 ^ 32 + e.

End EdgeSpec.

(** ** Lines and values of the key file *)

Module KeysSpec.

Import JS KeyFile.

(** The value a line of the CDN key file carries: its second piece,
    trimmed, when it has one that is not empty. *)
Definition cdn_value (line : string) : option string :=
  match nth_error (split_colon line) 1 with
  | Some val => if (val =? "")%string then None else Some (trim val)
  | None => None
  end.

(** The lines that set the credential of [marker] in the CDN adapter,
    and what the file holds for it: the value of the last such line. *)
Definition cdn_sets (marker line : string) : bool :=
  includes line marker
  && match cdn_value line with Some _ => true | None => false end.

Definition cdn_from_file (marker : string) (content : string)
  (default : option string) : option string :=
  match find (cdn_sets marker) (rev (split_lines content)) with
  | Some line => cdn_value line
  | None => default
  end.

(** The same for the edge adapter, where every line that includes the
    marker sets the credential, to [undefined] when it has no second
    piece. *)
Definition edge_value (line : string) : option string :=
  option_map trim (nth_error (split_colon line) 1).

Definition edge_from_file (marker : string) (content : string)
  (default : option string) : option string :=
  match find (fun line => includes line marker)
             (rev (split_lines content)) with
  | Some line => edge_value line
  | None => default
  end.

(** A value that can be written in a key file and read back: not empty,
    without a colon of either kind or a line feed, without white space
    at either end, and without any of the markers. *)
Definition plain (markers : list string) (v : string) : bool :=
  negb (v =? "")%string
  && negb (includes v ":") && negb (includes v fullwidth_colon)
  && negb (includes v newline)
  && (trim v =? v)%string
  && forallb (fun marker => negb (includes v marker)) markers.

Definition cdn_markers : list string :=
  ["cfid"; "cfkey"; "cfuserid"; "zonetag"].

Definition edge_markers : list string := ["accessKeyId"; "accessKeySecret"].

(** A key file with one line per credential. *)
Definition cdn_key_file (id key account zone : string) : string :=
  "cfid:" ++ id ++ newline ++ "cfkey:" ++ key ++ newline
  ++ "cfuserid:" ++ account ++ newline ++ "zonetag:" ++ zone.

Definition edge_key_file (id secret : string) : string :=
  "accessKeyId:" ++ id ++ newline ++ "accessKeySecret:" ++ secret.

End KeysSpec.

(** ** Runs of the routes *)

Module RouteSpec.

Import JS Cdn.

(** The credentials the upstream requests of a run carry as
    [X-Auth-Email] and [X-Auth-Key], in order. *)
Fixpoint headers (u : upstream) (p : prog) : list auth :=
  match p with
  | Respond _ _ => []
  | FetchZones a k => a :: headers u (k (zones_api u))
  | PostTopN a q k => a :: headers u (k (graphql_topn u q))
  | PostZone a q v k => a :: headers u (k (graphql_zone u q v))
  | PostAccount a q v k => a :: headers u (k (graphql_account u q v))
  end.

(** An upstream that cannot be reached: every request fails with [e]. *)
Definition unreachable (e : exn) : upstream :=
  mkUpstream (ZonesRejected e) (fun _ => Rejected e)
             (fun _ _ => Rejected e) (fun _ _ => Rejected e).

(** The item of a zone listing that names the zone [id]: the last one
    with that identifier. *)
Definition last_named (id : string) (result : list zone_item)
  : option zone_item :=
  find (fun item => (zone_id item =? id)%string) (rev result).

(** The name a zone of the GraphQL reply is reported under: the name
    the listing gives its tag, or the tag itself when the listing has
    no name for it or an empty one; and the total of its rows, a row
    without a sum counting for nothing. *)
Definition zone_label (result : list zone_item) (zone : zone_entry)
  : string :=
  match last_named (zoneTag zone) result with
  | Some item =>
      if (zone_name item =? "")%string then zoneTag zone else zone_name item
  | None => zoneTag zone
  end.

Definition rows_total (zone : zone_entry) : Z :=
  fold_right (fun item acc => match row_sum item with
                              | Some v => v
                              | None => 0
                              end + acc) 0 (opt_list (zone_rows zone)).

(** The account-scope request of a route, given its continuation. *)
Definition account_post (ks : keys) (text : string)
  (filter : list (string * string))
  (k : awaited account_payload -> prog) : prog :=
  PostAccount (mkAuth (interp (secretId ks)) (interp (secretKey ks))) text
              (mkAccountVariables (interp (accountTag ks)) filter) k.

(** What the text of an account-scope query asks: the operation it
    names, the dataset it reads as [resultData] with its limit and its
    order, the sum and the dimension it selects. *)
Definition asks (text operation dataset limit order sum dim : string)
  : Prop :=
  JSSpec.includes ("query " ++ operation ++ "($accountTag: String, ") text
  = true
  /\ JSSpec.includes
       ("accounts(filter: {accountTag: $accountTag}) {" ++ newline
        ++ "                                resultData: " ++ dataset
        ++ "(filter: $filter, limit: " ++ limit ++ ", orderBy: [" ++ order
        ++ "]) {") text = true
  /\ JSSpec.includes ("sum { " ++ sum ++ " }") text = true
  /\ JSSpec.includes ("dimensions { " ++ dim ++ " }") text = true.

(** The filter of a window: by date under [isLongTerm], on the first
    ten characters of the bounds; else by date and time, on the bounds
    as they are. *)
Definition window_filter (t : timeCfg) : list (string * string) :=
  if isLongTerm t
  then [("date_geq", slice0 10 (start t)); ("date_leq", slice0 10 (end_ t))]
  else [("datetime_geq", start t); ("datetime_leq", end_ t)].

(** What the text of the ad-hoc Top-N query asks: the zone it reads, the
    ten largest groups by count, the two bounds of its filter and the
    field it groups by. *)
Definition asks_topn (text zone lower upper field : string) : Prop :=
  JSSpec.includes
    ("zones(filter: { zoneTag: " ++ quote ++ zone ++ quote ++ " }) {"
     ++ newline ++ "                        httpRequestsAdaptiveGroups("
     ++ newline ++ "                            limit: 10,"
     ++ newline ++ "                            orderBy: [count_DESC],")
    text = true
  /\ JSSpec.includes
       ("filter: {" ++ newline
        ++ "                                datetime_geq: " ++ quote
        ++ lower ++ quote ++ "," ++ newline
        ++ "                                datetime_lt: " ++ quote
        ++ upper ++ quote ++ newline
        ++ "                            }") text = true
  /\ JSSpec.includes
       ("dimensions {" ++ newline ++ "                                "
        ++ field ++ newline ++ "                            }") text
     = true.

End RouteSpec.

(** ** Texts of the signer *)

Module SignerSpec.

Import JS JSSpec Edge EdgeSpec.

(** Reading percent-encoded text back: [%XX] is the byte [XX], every
    other character is itself. *)
Fixpoint percent_decode (s : string) : string :=
  match s with
  | EmptyString => ""
  | String c rest =>
      if (c =? "%")%char then
        match rest with
        | String x (String y rest') =>
            String (ascii_of_N (16 * hex_value x + hex_value y))
                   (percent_decode rest')
        | _ => String c (percent_decode rest)
        end
      else String c (percent_decode rest)
  end.

(** The number of occurrences of a character in a text. *)
Fixpoint count_char (x : ascii) (s : string) : nat :=
  match s with
  | EmptyString => O
  | String c s' => (if (c =? x)%char then 1 else 0) + count_char x s'
  end.

(** The characters [percentEncode] writes: the unreserved characters of
    a URI, the marks [!'()] and the percent sign. *)
Definition encoded_char (c : ascii) : bool :=
  alphanumeric c || one_of "-_.~!'()%" c.

(** The base64 alphabet, padding apart. *)
Definition base64_digit (c : ascii) : bool :=
  alphanumeric c || one_of "+/" c.

End SignerSpec.

(** * Properties *)

(** ** Facts about the prelude *)

Module JSFacts.

Import JS JSSpec.

(** *** [Array.prototype.sort] *)

Section SortFacts.
Context {A : Type}.
Variable cmp : A -> A -> Z.

Lemma insert_perm (x : A) (l : list A) :
  Permutation (x :: l) (insert cmp x l).
Proof.
  induction l as [|y l IH]; simpl; [reflexivity|].
  destruct (cmp x y <=? 0); [reflexivity|].
  etransitivity; [apply perm_swap|]. now constructor.
Qed.

Lemma sort_perm (l : list A) : Permutation l (sort cmp l).
Proof.
  induction l as [|x l IH]; simpl; [constructor|].
  etransitivity; [|apply insert_perm]. now constructor.
Qed.

Lemma sort_In (l : list A) (x : A) : In x (sort cmp l) <-> In x l.
Proof.
  split; apply Permutation_in;
    [symmetry|]; apply sort_perm.
Qed.

Lemma sort_length (l : list A) :
  List.length (sort cmp l) = List.length l.
Proof. symmetry. apply Permutation_length, sort_perm. Qed.

Lemma ordered_by_incl (f : A -> Z) (l l' : list A) :
  incl l' l -> ordered_by cmp f l -> ordered_by cmp f l'.
Proof. intros Hi Ho x y Hx Hy. apply Ho; auto. Qed.

Lemma insert_sorted (f : A -> Z) (x : A) (l : list A) :
  ordered_by cmp f (x :: l) ->
  StronglySorted (fun a b => f a <= f b) l ->
  StronglySorted (fun a b => f a <= f b) (insert cmp x l).
Proof.
  intros Ho Hs. induction Hs as [|y l Hs IH Hy]; simpl.
  - repeat constructor.
  - rewrite (Ho x y) by (simpl; auto).
    destruct (f x <=? f y) eqn:E.
    + apply Z.leb_le in E. constructor.
      * now constructor.
      * constructor; [exact E|].
        rewrite Forall_forall in *. intros z Hz.
        specialize (Hy z Hz). lia.
    + apply Z.leb_gt in E. constructor.
      * apply IH. eapply ordered_by_incl; [|exact Ho].
        intros z [->|Hz]; simpl; auto.
      * rewrite Forall_forall in *. intros z Hz.
        apply (Permutation_in _ (Permutation_sym (insert_perm x l))) in Hz.
        destruct Hz as [<-|Hz]; [lia|auto].
Qed.

Lemma sort_sorted (f : A -> Z) (l : list A) :
  ordered_by cmp f l ->
  StronglySorted (fun a b => f a <= f b) (sort cmp l).
Proof.
  induction l as [|x l IH]; intros Ho; simpl; [constructor|].
  apply insert_sorted.
  - intros a b Ha Hb. apply Ho.
    + destruct Ha as [<-|Ha]; [now left|right; now apply sort_In].
    + destruct Hb as [<-|Hb]; [now left|right; now apply sort_In].
  - apply IH. eapply ordered_by_incl; [|exact Ho]. intros z Hz; now right.
Qed.

Lemma insert_stable (f : A -> Z) (v : Z) (x : A) (l : list A) :
  ordered_by cmp f (x :: l) ->
  StronglySorted (fun a b => f a <= f b) l ->
  filter (fun a => f a =? v) (insert cmp x l)
  = filter (fun a => f a =? v) (x :: l).
Proof.
  intros Ho Hs. induction Hs as [|y l Hs IH Hy]; [reflexivity|].
  cbn [insert]. rewrite (Ho x y) by (simpl; auto).
  destruct (f x <=? f y) eqn:E; [reflexivity|].
  apply Z.leb_gt in E. cbn [filter].
  assert (IH' : filter (fun a => f a =? v) (insert cmp x l)
                = filter (fun a => f a =? v) (x :: l)).
  { apply IH. eapply ordered_by_incl; [|exact Ho].
    intros z [->|Hz]; simpl; auto. }
  rewrite IH'. cbn [filter].
  destruct (f y =? v) eqn:Ey, (f x =? v) eqn:Ex; try reflexivity.
  apply Z.eqb_eq in Ey, Ex. lia.
Qed.

Lemma sort_stable (f : A -> Z) (v : Z) (l : list A) :
  ordered_by cmp f l ->
  filter (fun a => f a =? v) (sort cmp l) = filter (fun a => f a =? v) l.
Proof.
  induction l as [|x l IH]; intros Ho; [reflexivity|].
  cbn [sort fold_right]. fold (sort cmp l).
  rewrite insert_stable.
  - cbn [filter]. rewrite IH; [reflexivity|].
    eapply ordered_by_incl; [|exact Ho]. intros z Hz; now right.
  - intros a b Ha Hb. apply Ho.
    + destruct Ha as [<-|Ha]; [now left|right; now apply sort_In].
    + destruct Hb as [<-|Hb]; [now left|right; now apply sort_In].
  - apply sort_sorted. eapply ordered_by_incl; [|exact Ho].
    intros z Hz; now right.
Qed.
End SortFacts.

(** *** Objects used as maps *)

Section ObjectFacts.
Context {V : Type}.
Implicit Types (o : list (string * V)) (k : string) (v : V).

Lemma own_set_same o k v : own (set o k v) k = Some v.
Proof.
  induction o as [|[k' v'] o IH]; simpl.
  - now rewrite String.eqb_refl.
  - destruct (k' =? k)%string eqn:E; simpl; rewrite E; auto.
Qed.

Lemma own_set_other o k k' v :
  k <> k' -> own (set o k v) k' = own o k'.
Proof.
  intros Hne. induction o as [|[k0 v0] o IH]; simpl.
  - apply String.eqb_neq in Hne. now rewrite Hne.
  - destruct (k0 =? k)%string eqn:E; simpl.
    + apply String.eqb_eq in E. subst k0.
      apply String.eqb_neq in Hne. now rewrite Hne.
    + destruct (k0 =? k')%string; auto.
Qed.

Lemma set_keys o k v k' :
  In k' (map fst (set o k v)) <-> k' = k \/ In k' (map fst o).
Proof.
  induction o as [|[k0 v0] o IH]; simpl.
  - intuition.
  - destruct (k0 =? k)%string eqn:E; simpl.
    + apply String.eqb_eq in E. subst k0. intuition.
    + rewrite IH. intuition.
Qed.

Lemma set_NoDup o k v :
  NoDup (map fst o) -> NoDup (map fst (set o k v)).
Proof.
  induction o as [|[k0 v0] o IH]; simpl; intros Hn.
  - constructor; [easy|constructor].
  - inversion Hn as [|? ? Hnot Hn']; subst.
    destruct (k0 =? k)%string eqn:E; simpl.
    + now constructor.
    + constructor; [|auto].
      rewrite set_keys. intros [->|Hin]; [|contradiction].
      now rewrite String.eqb_refl in E.
Qed.

Lemma own_None o k : own o k = None <-> ~ In k (map fst o).
Proof.
  induction o as [|[k0 v0] o IH]; simpl; [intuition|].
  destruct (k0 =? k)%string eqn:E.
  - apply String.eqb_eq in E. subst. split; [discriminate|intuition].
  - apply String.eqb_neq in E. rewrite IH. intuition.
Qed.

Lemma own_In o k v :
  NoDup (map fst o) -> (In (k, v) o <-> own o k = Some v).
Proof.
  induction o as [|[k0 v0] o IH]; simpl; intros Hn.
  - split; [contradiction|discriminate].
  - inversion Hn as [|? ? Hnot Hn']; subst.
    destruct (k0 =? k)%string eqn:E.
    + apply String.eqb_eq in E. subst k0. split.
      * intros [H|H]; [now inversion H|].
        exfalso. apply Hnot. now apply (in_map fst) in H.
      * intros H. inversion H. now left.
    + apply String.eqb_neq in E. rewrite <- (IH Hn'). split.
      * intros [H|H]; [inversion H; congruence|exact H].
      * now right.
Qed.

Lemma filter_split (p : string * V -> bool) o :
  Permutation o (filter p o ++ filter (fun e => negb (p e)) o).
Proof.
  induction o as [|e o IH]; simpl; [constructor|].
  destruct (p e); simpl.
  - now constructor.
  - now apply Permutation_cons_app.
Qed.

Lemma Object_entries_perm o : Permutation o (Object_entries o).
Proof.
  unfold Object_entries. etransitivity; [apply filter_split|].
  apply Permutation_app_tail, sort_perm.
Qed.
End ObjectFacts.

(** *** Numeric keys *)

Lemma Number_of_key_ToString (z : Z) :
  Number_of_key (ToString (Some z)) = Some z.
Proof.
  unfold Number_of_key, ToString.
  rewrite NilZero.isi.
  - simpl. now rewrite DecimalZ.of_to.
  - destruct z; simpl; try discriminate.
    intros H. inversion H as [H']. now apply Unsigned.to_uint_nonnil in H'.
  - destruct z; simpl; try discriminate.
    intros H. inversion H as [H']. now apply Unsigned.to_uint_nonnil in H'.
Qed.

Lemma ToString_inj (x y : Z) :
  ToString (Some x) = ToString (Some y) -> x = y.
Proof.
  intros H. apply (f_equal Number_of_key) in H.
  rewrite !Number_of_key_ToString in H. now inversion H.
Qed.

(** *** Dates *)

Lemma DayFromYear_step y :
  DayFromYear (y + 1) = DayFromYear y + (if InLeapYear y then 366 else 365).
Proof.
  unfold DayFromYear, InLeapYear.
  destruct (Z.eqb_spec (y mod 4) 0), (Z.eqb_spec (y mod 100) 0),
           (Z.eqb_spec (y mod 400) 0); cbn [andb orb negb];
    Z.div_mod_to_equations; lia.
Qed.

Lemma DayFromYear_mono y1 y2 : y1 <= y2 -> DayFromYear y1 <= DayFromYear y2.
Proof.
  unfold DayFromYear. intros. Z.div_mod_to_equations. lia.
Qed.

Lemma YearFromDay_spec d :
  DayFromYear (YearFromDay d) <= d < DayFromYear (YearFromDay d + 1).
Proof.
  unfold YearFromDay.
  assert (H : DayFromYear (1970 + d * 400 / 146097 - 1) <= d
              < DayFromYear (1970 + d * 400 / 146097 + 2)).
  { unfold DayFromYear. Z.div_mod_to_equations. lia. }
  set (y0 := 1970 + d * 400 / 146097) in *.
  destruct (Z.ltb_spec d (DayFromYear y0)).
  - replace (y0 - 1 + 1) with y0 by lia. lia.
  - destruct (Z.leb_spec (DayFromYear (y0 + 1)) d).
    + replace (y0 + 1 + 1) with (y0 + 2) by lia. lia.
    + lia.
Qed.

Lemma YearFromDay_range d :
  DayFromYear 0 <= d < DayFromYear 10000 -> 0 <= YearFromDay d <= 9999.
Proof.
  intros H. pose proof (YearFromDay_spec d) as Hs.
  split.
  - destruct (Z.le_gt_cases 0 (YearFromDay d)) as [|Hlt]; [assumption|].
    pose proof (DayFromYear_mono (YearFromDay d + 1) 0 ltac:(lia)). lia.
  - destruct (Z.le_gt_cases (YearFromDay d) 9999) as [|Hgt]; [assumption|].
    pose proof (DayFromYear_mono 10000 (YearFromDay d) ltac:(lia)). lia.
Qed.

Lemma MonthFromDay_spec (leap : bool) (dwy : Z) :
  0 <= dwy < (if leap then 366 else 365) ->
  0 <= MonthFromDay leap dwy <= 11
  /\ MonthStart leap (MonthFromDay leap dwy) <= dwy
     < MonthStart leap (MonthFromDay leap dwy + 1).
Proof.
  intros H. unfold MonthFromDay.
  destruct leap; cbn;
  repeat match goal with
         | |- context [?a <? ?b] => destruct (Z.ltb_spec a b)
         end; cbn; lia.
Qed.

Lemma digit_val_char d : 0 <= d <= 9 -> digit_val (digit_char d) = Some d.
Proof.
  intros H.
  assert (E : d = 0 \/ d = 1 \/ d = 2 \/ d = 3 \/ d = 4 \/ d = 5 \/ d = 6
              \/ d = 7 \/ d = 8 \/ d = 9) by lia.
  repeat (destruct E as [->|E]; [reflexivity|]). subst. reflexivity.
Qed.

Lemma pad_2 n :
  pad 2 n = String (digit_char (n / 10 mod 10))
              (String (digit_char (n mod 10)) "").
Proof. reflexivity. Qed.

Lemma pad_3 n :
  pad 3 n = String (digit_char (n / 10 / 10 mod 10))
              (String (digit_char (n / 10 mod 10))
                 (String (digit_char (n mod 10)) "")).
Proof. reflexivity. Qed.

Lemma pad_4 n :
  pad 4 n = String (digit_char (n / 10 / 10 / 10 mod 10))
              (String (digit_char (n / 10 / 10 mod 10))
                 (String (digit_char (n / 10 mod 10))
                    (String (digit_char (n mod 10)) ""))).
Proof. reflexivity. Qed.

Lemma num_2 n :
  0 <= n < 100 ->
  num [digit_char (n / 10 mod 10); digit_char (n mod 10)] = Some n.
Proof.
  intros H. unfold num. cbn [number_of].
  rewrite !digit_val_char by (Z.div_mod_to_equations; lia).
  f_equal. Z.div_mod_to_equations. lia.
Qed.

Lemma num_3 n :
  0 <= n < 1000 ->
  num [digit_char (n / 10 / 10 mod 10); digit_char (n / 10 mod 10);
       digit_char (n mod 10)] = Some n.
Proof.
  intros H. unfold num. cbn [number_of].
  rewrite !digit_val_char by (Z.div_mod_to_equations; lia).
  f_equal. Z.div_mod_to_equations. lia.
Qed.

Lemma num_4 n :
  0 <= n < 10000 ->
  num [digit_char (n / 10 / 10 / 10 mod 10); digit_char (n / 10 / 10 mod 10);
       digit_char (n / 10 mod 10); digit_char (n mod 10)] = Some n.
Proof.
  intros H. unfold num. cbn [number_of].
  rewrite !digit_val_char by (Z.div_mod_to_equations; lia).
  f_equal. Z.div_mod_to_equations. lia.
Qed.

Lemma year_in_range t :
  in_four_digit_years t -> 0 <= YearFromTime t <= 9999.
Proof.
  intros H. apply YearFromDay_range. unfold Day, msPerDay.
  change (DayFromYear 0) with (-719528).
  change (DayFromYear 10000) with 2932897.
  unfold in_four_digit_years in H. Z.div_mod_to_equations. lia.
Qed.

Lemma calendar_fields t :
  0 <= MonthFromTime t <= 11
  /\ 1 <= DateFromTime t <= DaysInMonth (YearFromTime t) (MonthFromTime t)
  /\ MakeDay (YearFromTime t) (MonthFromTime t) (DateFromTime t) = Day t.
Proof.
  unfold DateFromTime, MonthFromTime, DaysInMonth, MakeDay, DayWithinYear,
    YearFromTime.
  pose proof (YearFromDay_spec (Day t)) as Hy.
  rewrite DayFromYear_step in Hy.
  set (y := YearFromDay (Day t)) in *.
  set (leap := InLeapYear y) in *.
  assert (Hr : 0 <= Day t - DayFromYear y < (if leap then 366 else 365))
    by (destruct leap; lia).
  destruct (MonthFromDay_spec leap (Day t - DayFromYear y) Hr) as [Hm1 Hm2].
  set (m := MonthFromDay leap (Day t - DayFromYear y)) in *.
  lia.
Qed.

Lemma time_fields t :
  0 <= HourFromTime t <= 23 /\ 0 <= MinFromTime t <= 59
  /\ 0 <= SecFromTime t <= 59 /\ 0 <= msFromTime t <= 999
  /\ MakeTime (HourFromTime t) (MinFromTime t) (SecFromTime t) (msFromTime t)
     = TimeWithinDay t.
Proof.
  unfold HourFromTime, MinFromTime, SecFromTime, msFromTime, MakeTime,
    TimeWithinDay, msPerDay.
  Z.div_mod_to_equations. lia.
Qed.

Lemma MakeDate_Day_TimeWithinDay t :
  MakeDate (Day t) (TimeWithinDay t) = t.
Proof.
  unfold MakeDate, Day, TimeWithinDay, msPerDay.
  Z.div_mod_to_equations. lia.
Qed.

Section Characters.
Variables y1 y2 y3 y4 m1 m2 d1 d2 : ascii.
Variables y m d : Z.
Hypothesis Hy : num [y1; y2; y3; y4] = Some y.
Hypothesis Hm : num [m1; m2] = Some m.
Hypothesis Hd : num [d1; d2] = Some d.
Hypothesis Hmr : 1 <= m <= 12.
Hypothesis Hdr : 1 <= d <= DaysInMonth y (m - 1).

Let date (rest : string) : string :=
  String y1 (String y2 (String y3 (String y4 (String "-"
    (String m1 (String m2 (String "-" (String d1 (String d2 rest))))))))).

Lemma parse_date_chars :
  parse_date y1 y2 y3 y4 "-" m1 m2 "-" d1 d2 = Some (MakeDay y (m - 1) d).
Proof.
  unfold parse_date. rewrite Hy, Hm, Hd. cbn [Ascii.eqb Bool.eqb andb].
  replace (1 <=? m) with true by (symmetry; apply Z.leb_le; lia).
  replace (m <=? 12) with true by (symmetry; apply Z.leb_le; lia).
  replace (1 <=? d) with true by (symmetry; apply Z.leb_le; lia).
  replace (d <=? DaysInMonth y (m - 1)) with true
    by (symmetry; apply Z.leb_le; lia).
  reflexivity.
Qed.

Lemma slice_date rest : slice0 10 (date rest) = date "".
Proof. destruct rest; reflexivity. Qed.

Lemma parse_iso_date :
  parse_iso (date "") = Some (MakeDate (MakeDay y (m - 1) d) 0).
Proof. unfold date. cbn [parse_iso]. unfold parse_iso. rewrite parse_date_chars. reflexivity. Qed.

Lemma parse_iso_midnight :
  parse_iso (date "" ++ "T00:00:00Z")
  = Some (MakeDate (MakeDay y (m - 1) d) 0).
Proof.
  unfold date. cbn [append]. unfold parse_iso. rewrite parse_date_chars.
  reflexivity.
Qed.

Lemma parse_iso_instant (h1 h2 i1 i2 s1 s2 f1 f2 f3 : ascii) (h i s f : Z) :
  num [h1; h2] = Some h -> num [i1; i2] = Some i -> num [s1; s2] = Some s ->
  num [f1; f2; f3] = Some f ->
  0 <= h <= 23 -> 0 <= i <= 59 -> 0 <= s <= 59 ->
  parse_iso (date (String "T" (String h1 (String h2 (String ":"
               (String i1 (String i2 (String ":" (String s1 (String s2
               (String "." (String f1 (String f2 (String f3 "Z"))))))))))))))
  = Some (MakeDate (MakeDay y (m - 1) d) (MakeTime h i s f)).
Proof.
  intros Hh Hi Hs Hf Rh Ri Rs.
  unfold date, parse_iso. rewrite parse_date_chars.
  cbn [Ascii.eqb Bool.eqb andb]. unfold parse_time.
  cbn [list_ascii_of_string Ascii.eqb Bool.eqb andb].
  rewrite Hh, Hi, Hs, Hf.
  replace (h <=? 23) with true by (symmetry; apply Z.leb_le; lia).
  replace (i <=? 59) with true by (symmetry; apply Z.leb_le; lia).
  replace (s <=? 59) with true by (symmetry; apply Z.leb_le; lia).
  reflexivity.
Qed.
End Characters.

Lemma toISOString_some t :
  - maxTime <= t <= maxTime ->
  toISOString t
  = Some (year_string (YearFromTime t) ++ "-"
          ++ pad 2 (MonthFromTime t + 1) ++ "-"
          ++ pad 2 (DateFromTime t) ++ "T"
          ++ pad 2 (HourFromTime t) ++ ":"
          ++ pad 2 (MinFromTime t) ++ ":"
          ++ pad 2 (SecFromTime t) ++ "."
          ++ pad 3 (msFromTime t) ++ "Z").
Proof.
  intros H. unfold toISOString.
  replace (- maxTime <=? t) with true by (symmetry; apply Z.leb_le; lia).
  replace (t <=? maxTime) with true by (symmetry; apply Z.leb_le; lia).
  reflexivity.
Qed.

Lemma four_digit_years_valid t :
  in_four_digit_years t -> - maxTime <= t <= maxTime.
Proof. unfold in_four_digit_years, maxTime. lia. Qed.

(** Within the years 0000 to 9999 the ISO text of an instant reads back
    as the instant, and its first ten characters, alone or followed by
    a midnight, as the start of its UTC day. *)
Lemma toISOString_parse t :
  in_four_digit_years t ->
  exists s, toISOString t = Some s
            /\ parse_iso s = Some t
            /\ parse_iso (slice0 10 s) = Some (MakeDate (Day t) 0)
            /\ parse_iso (slice0 10 s ++ "T00:00:00Z")
               = Some (MakeDate (Day t) 0).
Proof.
  intros H. pose proof (year_in_range t H) as Hy.
  destruct (calendar_fields t) as (Hm & Hd & Hday).
  destruct (time_fields t) as (Hh & Hi & Hs & Hf & Htime).
  rewrite (toISOString_some t (four_digit_years_valid t H)).
  unfold year_string.
  replace (0 <=? YearFromTime t) with true by (symmetry; apply Z.leb_le; lia).
  replace (YearFromTime t <=? 9999) with true
    by (symmetry; apply Z.leb_le; lia).
  cbn [andb]. rewrite pad_4, !pad_2, pad_3. cbn [append].
  eexists. split; [reflexivity|].
  assert (Hm' : 1 <= MonthFromTime t + 1 <= 12) by lia.
  assert (Hd' : 1 <= DateFromTime t
                <= DaysInMonth (YearFromTime t) (MonthFromTime t + 1 - 1))
    by (replace (MonthFromTime t + 1 - 1) with (MonthFromTime t) by lia;
        exact Hd).
  assert (Hy4 := num_4 (YearFromTime t) ltac:(lia)).
  assert (Hm2 := num_2 (MonthFromTime t + 1) ltac:(lia)).
  assert (Hd2 : num [digit_char (DateFromTime t / 10 mod 10);
                     digit_char (DateFromTime t mod 10)]
                = Some (DateFromTime t)).
  { apply num_2. unfold DaysInMonth in Hd.
    assert (MonthStart (InLeapYear (YearFromTime t)) (MonthFromTime t + 1)
            - MonthStart (InLeapYear (YearFromTime t)) (MonthFromTime t)
            <= 31).
    { unfold MonthStart. destruct (InLeapYear (YearFromTime t));
      repeat match goal with
             | |- context [?a <=? ?b] => destruct (Z.leb_spec a b)
             | |- context [?a =? ?b] => destruct (Z.eqb_spec a b)
             end; lia. }
    lia. }
  replace (MakeDate (Day t) 0)
    with (MakeDate (MakeDay (YearFromTime t) (MonthFromTime t + 1 - 1)
                            (DateFromTime t)) 0)
    by (replace (MonthFromTime t + 1 - 1) with (MonthFromTime t) by lia;
        now rewrite Hday).
  split; [|split].
  - assert (Hh2 := num_2 (HourFromTime t) ltac:(lia)).
    assert (Hi2 := num_2 (MinFromTime t) ltac:(lia)).
    assert (Hs2 := num_2 (SecFromTime t) ltac:(lia)).
    assert (Hf3 := num_3 (msFromTime t) ltac:(lia)).
    rewrite (parse_iso_instant _ _ _ _ _ _ _ _ _ _ _ Hy4 Hm2 Hd2 Hm' Hd'
               _ _ _ _ _ _ _ _ _ _ _ _ _ Hh2 Hi2 Hs2 Hf3 Hh Hi Hs).
    f_equal. rewrite Htime.
    replace (MonthFromTime t + 1 - 1) with (MonthFromTime t) by lia.
    rewrite Hday. apply MakeDate_Day_TimeWithinDay.
  - rewrite (slice_date _ _ _ _ _ _ _ _).
    apply (parse_iso_date _ _ _ _ _ _ _ _ _ _ _ Hy4 Hm2 Hd2 Hm' Hd').
  - rewrite (slice_date _ _ _ _ _ _ _ _).
    apply (parse_iso_midnight _ _ _ _ _ _ _ _ _ _ _ Hy4 Hm2 Hd2 Hm' Hd').
Qed.

Lemma digit_val_bounds c d : digit_val c = Some d -> 0 <= d <= 9.
Proof.
  unfold digit_val. cbv zeta. generalize (Z.of_N (N_of_ascii c)).
  intros n H.
  destruct (Z.leb_spec 48 n), (Z.leb_spec n 57);
    cbn [andb] in H; inversion H. lia.
Qed.

Lemma num_2_bounds a b v : num [a; b] = Some v -> 0 <= v <= 99.
Proof.
  unfold num. cbn [number_of]. intros H.
  destruct (digit_val a) as [x|] eqn:Ea; [|discriminate].
  destruct (digit_val b) as [y|] eqn:Eb; [|discriminate].
  apply digit_val_bounds in Ea, Eb.
  assert (E : 10 * (10 * 0 + x) + y = v) by congruence. lia.
Qed.

Lemma num_3_bounds a b c v : num [a; b; c] = Some v -> 0 <= v <= 999.
Proof.
  unfold num. cbn [number_of]. intros H.
  destruct (digit_val a) as [x|] eqn:Ea; [|discriminate].
  destruct (digit_val b) as [y|] eqn:Eb; [|discriminate].
  destruct (digit_val c) as [z|] eqn:Ec; [|discriminate].
  apply digit_val_bounds in Ea, Eb, Ec.
  assert (E : 10 * (10 * (10 * 0 + x) + y) + z = v) by congruence. lia.
Qed.

Lemma parse_time_bounds s tm :
  parse_time s = Some tm -> 0 <= tm < msPerDay.
Proof.
  unfold parse_time. intros H.
  destruct (list_ascii_of_string s)
    as [|h1 [|h2 [|c1 [|m1 [|m2 [|c2 [|s1 [|s2 [|z [|f1 [|f2 [|f3 [|z' [|]]]]]]]]]]]]]];
    try discriminate H.
  - destruct ((c1 =? ":")%char && (c2 =? ":")%char && (z =? "Z")%char);
      [|discriminate H].
    destruct (num [h1; h2]) as [h|] eqn:Eh; [|discriminate H].
    destruct (num [m1; m2]) as [m|] eqn:Em; [|discriminate H].
    destruct (num [s1; s2]) as [sec|] eqn:Es; [|discriminate H].
    apply num_2_bounds in Eh, Em, Es.
    destruct (Z.leb_spec h 23), (Z.leb_spec m 59), (Z.leb_spec sec 59);
      cbn [andb] in H; try discriminate H.
    assert (E : MakeTime h m sec 0 = tm) by congruence.
    unfold MakeTime, msPerDay in *. lia.
  - destruct ((c1 =? ":")%char && (c2 =? ":")%char && (z =? ".")%char
              && (z' =? "Z")%char); [|discriminate H].
    destruct (num [h1; h2]) as [h|] eqn:Eh; [|discriminate H].
    destruct (num [m1; m2]) as [m|] eqn:Em; [|discriminate H].
    destruct (num [s1; s2]) as [sec|] eqn:Es; [|discriminate H].
    destruct (num [f1; f2; f3]) as [ms|] eqn:Ef; [|discriminate H].
    apply num_2_bounds in Eh, Em, Es. apply num_3_bounds in Ef.
    destruct (Z.leb_spec h 23), (Z.leb_spec m 59), (Z.leb_spec sec 59);
      cbn [andb] in H; try discriminate H.
    assert (E : MakeTime h m sec ms = tm) by congruence.
    unfold MakeTime, msPerDay in *. lia.
Qed.

Lemma Day_MakeDate day tm : 0 <= tm < msPerDay -> Day (MakeDate day tm) = day.
Proof.
  unfold Day, MakeDate, msPerDay. intros H. Z.div_mod_to_equations. lia.
Qed.

(** A string [parse_iso] reads, cut to ten characters, reads as the
    start of the same UTC day. *)
Lemma parse_iso_slice s f :
  parse_iso s = Some f ->
  parse_iso (slice0 10 s) = Some (MakeDate (Day f) 0).
Proof.
  intros H.
  destruct s as [|y1 [|y2 [|y3 [|y4 [|a [|m1 [|m2 [|b [|d1 [|d2 rest]]]]]]]]]];
    try discriminate H.
  assert (Hs : slice0 10
                 (String y1 (String y2 (String y3 (String y4 (String a
                    (String m1 (String m2 (String b (String d1
                       (String d2 rest))))))))))
               = String y1 (String y2 (String y3 (String y4 (String a
                    (String m1 (String m2 (String b (String d1
                       (String d2 ""))))))))))
    by (destruct rest; reflexivity).
  rewrite Hs. unfold parse_iso in *.
  destruct (parse_date y1 y2 y3 y4 a m1 m2 b d1 d2) as [day|];
    [|discriminate H].
  destruct rest as [|t rest'].
  - assert (E : MakeDate day 0 = f) by congruence. subst f.
    rewrite Day_MakeDate by (unfold msPerDay; lia). reflexivity.
  - destruct (t =? "T")%char; [|discriminate H].
    destruct (parse_time rest') as [tm|] eqn:E; [|discriminate H].
    assert (E' : MakeDate day tm = f) by congruence. subst f.
    rewrite Day_MakeDate by (eapply parse_time_bounds; eauto).
    reflexivity.
Qed.

Lemma parse_iso_date_only s f :
  parse_iso s = Some f -> date_only (slice0 10 s) = true.
Proof.
  intros H. unfold date_only. rewrite (parse_iso_slice s f H).
  destruct s as [|y1 [|y2 [|y3 [|y4 [|a [|m1 [|m2 [|b [|d1 [|d2 rest]]]]]]]]]];
    try discriminate H.
  destruct rest; reflexivity.
Qed.

Lemma date_text_Day t1 t2 : Day t1 = Day t2 -> date_text t1 = date_text t2.
Proof.
  intros H. unfold date_text, DateFromTime, MonthFromTime, DayWithinYear,
    YearFromTime. now rewrite H.
Qed.

Lemma toISOString_date t :
  in_four_digit_years t ->
  option_map (slice0 10) (toISOString t) = Some (date_text t)
  /\ parse_iso (date_text t ++ "T00:00:00Z") = Some (MakeDate (Day t) 0).
Proof.
  intros H. destruct (toISOString_parse t H) as (s & Hs & _ & _ & Hm).
  assert (E : slice0 10 s = date_text t).
  { pose proof (year_in_range t H) as Hy.
    rewrite (toISOString_some t (four_digit_years_valid t H)) in Hs.
    unfold year_string in Hs.
    replace (0 <=? YearFromTime t) with true in Hs
      by (symmetry; apply Z.leb_le; lia).
    replace (YearFromTime t <=? 9999) with true in Hs
      by (symmetry; apply Z.leb_le; lia).
    cbn [andb] in Hs. unfold date_text.
    rewrite pad_4, !pad_2, pad_3 in Hs. rewrite pad_4, !pad_2.
    cbn [append] in *.
    injection Hs as <-. reflexivity. }
  rewrite Hs. cbn [option_map]. rewrite <- E. split; [reflexivity|exact Hm].
Qed.

End JSFacts.

(** ** The CDN adapter's normalisers, in exact arithmetic

    The lemmas of this module are about the sums of [Exact]:
    [accumulate], [merge], [detail_of], [total] and [rollup] are the
    ones of that module. *)

Module CdnFacts.

Import JS JSSpec JSFacts Cdn CdnSpec Exact.

(** *** Summing into an object *)

Lemma lookup0_accumulate_same o k v :
  lookup0 (accumulate o k v) k = lookup0 o k + v.
Proof. unfold lookup0, accumulate. now rewrite own_set_same. Qed.

Lemma lookup0_accumulate_other o k k' v :
  k <> k' -> lookup0 (accumulate o k v) k' = lookup0 o k'.
Proof. intros H. unfold lookup0, accumulate. now rewrite own_set_other. Qed.

Section Accumulation.
Context {I : Type}.
Variables (kf : I -> string) (vf : I -> Z).

Lemma accumulate_all_NoDup l : forall o,
  NoDup (map fst o) -> NoDup (map fst (accumulate_all kf vf l o)).
Proof.
  induction l as [|item l IH]; intros o Hn; simpl; [exact Hn|].
  apply IH. unfold accumulate. now apply set_NoDup.
Qed.

Lemma accumulate_all_keys l : forall o k,
  In k (map fst (accumulate_all kf vf l o))
  <-> In k (map fst o) \/ exists item, In item l /\ kf item = k.
Proof.
  induction l as [|item l IH]; intros o k; simpl.
  - split; [now left|]. intros [H|[i [[] _]]]. exact H.
  - rewrite IH. unfold accumulate. rewrite set_keys. split.
    + intros [[->|H]|[i [Hi Hk]]]; eauto.
    + intros [H|[i [[->|Hi] Hk]]]; eauto.
Qed.

Lemma accumulate_all_lookup l : forall o k,
  lookup0 (accumulate_all kf vf l o) k = lookup0 o k + filed kf vf k l.
Proof.
  induction l as [|item l IH]; intros o k; simpl; [lia|].
  rewrite IH. destruct (kf item =? k)%string eqn:E.
  - apply String.eqb_eq in E. subst k.
    rewrite lookup0_accumulate_same. lia.
  - apply String.eqb_neq in E.
    rewrite lookup0_accumulate_other by exact E. lia.
Qed.

(** The entries of the object built from an empty one. *)
Lemma accumulate_all_entries l k v :
  In (k, v) (accumulate_all kf vf l [])
  <-> (exists item, In item l /\ kf item = k) /\ v = filed kf vf k l.
Proof.
  rewrite own_In by (apply accumulate_all_NoDup; constructor).
  pose proof (accumulate_all_keys l [] k) as Hk.
  pose proof (accumulate_all_lookup l [] k) as Hl.
  unfold lookup0 in Hl. simpl in Hl, Hk.
  destruct (own (accumulate_all kf vf l []) k) as [x|] eqn:E.
  - assert (Hin : In k (map fst (accumulate_all kf vf l []))).
    { destruct (in_dec string_dec k (map fst (accumulate_all kf vf l [])))
        as [H|H]; [exact H|].
      apply own_None in H. congruence. }
    apply Hk in Hin. destruct Hin as [[]|Hex].
    split.
    + intros H. inversion H. subst. split; [exact Hex|lia].
    + intros [_ ->]. f_equal. lia.
  - split; [discriminate|]. intros [Hex _].
    apply own_None in E. exfalso. apply E, Hk. now right.
Qed.
End Accumulation.

(** *** The time-series merge *)

Section Merge.
Variable fallback : string -> option Z.

Lemma merge_accumulate rows :
  merge fallback rows = accumulate_all (row_key fallback) sum_value rows [].
Proof. reflexivity. Qed.

Lemma filed_rows_at ts rows :
  parses fallback rows ->
  filed (row_key fallback) sum_value (ToString (Some ts)) rows
  = sum_values (rows_at fallback ts rows).
Proof.
  unfold rows_at.
  induction rows as [|r rows IH]; intros Hp; [reflexivity|].
  cbn [filed filter].
  rewrite IH by (intros x Hx; apply Hp; now right).
  assert (Hr := Hp r (or_introl eq_refl)).
  unfold row_key at 1. unfold same_second at 2.
  destruct (second_of fallback (dimension_value r)) as [t|];
    [|congruence].
  destruct (t =? ts) eqn:E.
  - apply Z.eqb_eq in E. subst. now rewrite String.eqb_refl.
  - destruct (ToString (Some t) =? ToString (Some ts))%string eqn:E';
      [|reflexivity].
    apply String.eqb_eq, ToString_inj in E'. subst.
    now rewrite Z.eqb_refl in E.
Qed.

Lemma row_key_rows_at ts rows :
  parses fallback rows ->
  (exists r, In r rows /\ row_key fallback r = ToString (Some ts))
  <-> rows_at fallback ts rows <> [].
Proof.
  intros Hp. unfold rows_at. split.
  - intros [r [Hin Hk]] Hnil.
    assert (Hf : In r (filter (same_second fallback ts) rows)).
    { apply filter_In. split; [exact Hin|].
      unfold same_second, row_key in *.
      specialize (Hp r Hin).
      destruct (second_of fallback (dimension_value r)) as [t|];
        [|congruence].
      apply ToString_inj in Hk. subst. apply Z.eqb_refl. }
    rewrite Hnil in Hf. exact Hf.
  - intros Hne.
    destruct (filter (same_second fallback ts) rows) as [|r l] eqn:E;
      [congruence|].
    assert (Hf : In r (filter (same_second fallback ts) rows))
      by (rewrite E; now left).
    apply filter_In in Hf. destruct Hf as [Hin Hs].
    exists r. split; [exact Hin|].
    unfold same_second, row_key in *.
    destruct (second_of fallback (dimension_value r)) as [t|];
      [|discriminate].
    apply Z.eqb_eq in Hs. now subst.
Qed.

(** Every key of [merged] is the decimal text of an epoch second. *)
Lemma merge_keys rows e :
  parses fallback rows -> In e (merge fallback rows) ->
  exists ts, fst e = ToString (Some ts).
Proof.
  intros Hp Hin. rewrite merge_accumulate in Hin.
  apply (in_map fst) in Hin. apply accumulate_all_keys in Hin.
  destruct Hin as [[]|[r [Hr Hk]]].
  specialize (Hp r Hr). unfold row_key in Hk.
  destruct (second_of fallback (dimension_value r)) as [t|];
    [|congruence].
  now exists t.
Qed.

Lemma sorted_entries_perm rows :
  Permutation (merge fallback rows) (sorted_entries fallback rows).
Proof.
  unfold sorted_entries.
  etransitivity; [apply Object_entries_perm|apply sort_perm].
Qed.

Lemma sorted_entries_keys rows e :
  parses fallback rows -> In e (sorted_entries fallback rows) ->
  exists ts, fst e = ToString (Some ts).
Proof.
  intros Hp Hin. apply (merge_keys rows e Hp).
  eapply Permutation_in; [symmetry; apply sorted_entries_perm|exact Hin].
Qed.

Lemma sorted_entries_sorted rows :
  parses fallback rows ->
  StronglySorted (fun a b => key_number a <= key_number b)
                 (sorted_entries fallback rows).
Proof.
  intros Hp. apply sort_sorted. intros x y Hx Hy.
  assert (Hk : forall e, In e (Object_entries (merge fallback rows)) ->
                         exists ts, fst e = ToString (Some ts)).
  { intros e He. apply (merge_keys rows e Hp).
    eapply Permutation_in;
      [symmetry; apply Object_entries_perm|exact He]. }
  destruct (Hk x Hx) as [a Ha], (Hk y Hy) as [b Hb].
  unfold by_number, key_number. rewrite Ha, Hb.
  rewrite !Number_of_key_ToString.
  destruct (Z.leb_spec (a - b) 0), (Z.leb_spec a b); auto; lia.
Qed.

Lemma sorted_entries_strict rows :
  parses fallback rows ->
  StronglySorted (fun a b => key_number a < key_number b)
                 (sorted_entries fallback rows).
Proof.
  intros Hp.
  assert (Hn : NoDup (map fst (sorted_entries fallback rows))).
  { eapply Permutation_NoDup.
    - apply Permutation_map, sorted_entries_perm.
    - rewrite merge_accumulate. apply accumulate_all_NoDup. constructor. }
  pose proof (sorted_entries_sorted rows Hp) as Hs.
  pose proof (sorted_entries_keys rows) as Hk.
  induction Hs as [|a l Hs IH Ha]; [constructor|].
  simpl in Hn. inversion Hn as [|? ? Hnot Hn']; subst.
  constructor.
  - apply IH; [exact Hn'|]. intros e He Hin. apply Hk; auto. now right.
  - rewrite Forall_forall in *. intros b Hb.
    specialize (Ha b Hb).
    destruct (Z.eq_dec (key_number a) (key_number b)) as [E|E]; [|lia].
    exfalso. apply Hnot.
    destruct (Hk a Hp (or_introl eq_refl)) as [x Hx].
    destruct (Hk b Hp (or_intror Hb)) as [y Hy].
    unfold key_number in E. rewrite Hx, Hy in E.
    rewrite !Number_of_key_ToString in E. subst y.
    rewrite Hx, <- Hy. now apply in_map.
Qed.
End Merge.

(** *** The daily rollup *)

Lemma Day_seconds ts : Day (ts * 1000) = day_number ts.
Proof.
  unfold Day, day_number, msPerDay. Z.div_mod_to_equations. lia.
Qed.

Lemma day_of_dated p ts :
  Point.Timestamp p = Some ts -> in_four_digit_years (ts * 1000) ->
  day_of p = Some (day_key p).
Proof.
  intros Ht Hr. unfold day_of, day_key. rewrite Ht.
  apply (toISOString_date _ Hr).
Qed.

Lemma date_text_inj t1 t2 :
  in_four_digit_years t1 -> in_four_digit_years t2 ->
  date_text t1 = date_text t2 -> Day t1 = Day t2.
Proof.
  intros H1 H2 E.
  destruct (toISOString_date t1 H1) as [_ P1].
  destruct (toISOString_date t2 H2) as [_ P2].
  rewrite E, P2 in P1.
  assert (E' : MakeDate (Day t2) 0 = MakeDate (Day t1) 0) by congruence.
  unfold MakeDate, msPerDay in E'. lia.
Qed.

Lemma day_merge_dated detail : forall o,
  dated detail ->
  day_merge detail o = Some (accumulate_all day_key Point.Value detail o).
Proof.
  induction detail as [|p detail IH]; intros o Hd; [reflexivity|].
  destruct (Hd p (or_introl eq_refl)) as (ts & Ht & Hr).
  cbn [day_merge]. rewrite (day_of_dated p ts Ht Hr).
  rewrite IH by (intros x Hx; apply Hd; now right). reflexivity.
Qed.

Lemma filed_points_on ts detail :
  dated detail -> in_four_digit_years (ts * 1000) ->
  filed day_key Point.Value (date_text (ts * 1000)) detail
  = sum_points (points_on (day_number ts) detail).
Proof.
  intros Hd Hr. unfold points_on.
  induction detail as [|p detail IH]; [reflexivity|].
  cbn [filed filter].
  rewrite IH by (intros x Hx; apply Hd; now right).
  destruct (Hd p (or_introl eq_refl)) as (ts' & Ht & Hr').
  unfold day_key at 1. unfold on_day at 2. rewrite Ht.
  destruct (Z.eqb_spec (day_number ts') (day_number ts)) as [E|E].
  - rewrite <- !Day_seconds in E.
    rewrite (date_text_Day _ _ E), String.eqb_refl. reflexivity.
  - destruct (String.eqb_spec (date_text (ts' * 1000))
                              (date_text (ts * 1000))) as [E'|_];
      [|reflexivity].
    apply date_text_inj in E'; auto. rewrite !Day_seconds in E'.
    contradiction.
Qed.

Section Rollup.
Variable fallback : string -> option Z.

Lemma second_of_midnight t :
  in_four_digit_years t ->
  second_of fallback (date_text t ++ "T00:00:00Z") = Some (86400 * Day t).
Proof.
  intros H. unfold second_of.
  destruct (toISOString_date t H) as [_ ->]. f_equal.
  unfold MakeDate, msPerDay. Z.div_mod_to_equations. lia.
Qed.

Lemma day_entries_perm detail :
  Permutation (accumulate_all day_key Point.Value detail [])
              (day_entries detail).
Proof.
  unfold day_entries.
  etransitivity; [apply Object_entries_perm|apply sort_perm].
Qed.

Lemma rollup_dated detail :
  dated detail ->
  rollup fallback detail
  = Some (map (fun e => Point.mk (second_of fallback
                                    (fst e ++ "T00:00:00Z")) (snd e))
              (day_entries detail)).
Proof.
  intros Hd. unfold rollup. rewrite day_merge_dated by exact Hd.
  reflexivity.
Qed.

Lemma day_entries_In detail k v :
  dated detail ->
  In (k, v) (day_entries detail)
  <-> exists ts p, In p detail /\ Point.Timestamp p = Some ts
                   /\ k = date_text (ts * 1000)
                   /\ v = sum_points (points_on (day_number ts) detail).
Proof.
  intros Hd. split.
  - intros Hin.
    apply (Permutation_in _ (Permutation_sym (day_entries_perm detail)))
      in Hin.
    apply accumulate_all_entries in Hin. destruct Hin as [[p [Hp Hk]] Hv].
    destruct (Hd p Hp) as (ts & Ht & Hr).
    exists ts, p. repeat split; auto.
    + unfold day_key in Hk. rewrite Ht in Hk. now symmetry.
    + rewrite Hv. unfold day_key in Hk. rewrite Ht in Hk. rewrite <- Hk.
      now apply filed_points_on.
  - intros (ts & p & Hp & Ht & -> & ->).
    destruct (Hd p Hp) as (ts' & Ht' & Hr).
    assert (ts' = ts) by congruence. subst ts'.
    apply (Permutation_in _ (day_entries_perm detail)).
    apply accumulate_all_entries. split.
    + exists p. split; [exact Hp|]. unfold day_key. now rewrite Ht.
    + symmetry. now apply filed_points_on.
Qed.
End Rollup.

(** *** Totals *)

Lemma total_sum_points detail : total detail = sum_points detail.
Proof.
  unfold total.
  assert (H : forall l a,
             fold_left (fun acc curr => acc + Point.Value curr) l a
             = a + sum_points l).
  { induction l as [|p l IH]; intros a; simpl; [lia|]. rewrite IH. lia. }
  rewrite H. lia.
Qed.

Lemma sum_entries_set o k x :
  sum_entries (set o k x) = sum_entries o - lookup0 o k + x.
Proof.
  unfold lookup0. induction o as [|[k' v'] o IH]; simpl; [lia|].
  destruct (k' =? k)%string; simpl; [lia|]. rewrite IH. lia.
Qed.

Lemma sum_entries_accumulate_all {I : Type} (kf : I -> string) (vf : I -> Z)
  (l : list I) : forall o,
  sum_entries (accumulate_all kf vf l o)
  = sum_entries o + fold_right (fun i acc => vf i + acc) 0 l.
Proof.
  induction l as [|i l IH]; intros o; simpl; [lia|].
  rewrite IH. unfold accumulate. rewrite sum_entries_set.
  unfold lookup0. lia.
Qed.

Lemma sum_entries_perm o o' :
  Permutation o o' -> sum_entries o = sum_entries o'.
Proof.
  induction 1; simpl; lia.
Qed.

Lemma NoDup_map_compat {A B C : Type} (f : A -> B) (h : A -> C)
  (l : list A) :
  (forall x y, In x l -> In y l -> h x = h y -> f x = f y) ->
  NoDup (map f l) -> NoDup (map h l).
Proof.
  induction l as [|a l IH]; intros Hc Hn; simpl; [constructor|].
  inversion Hn as [|? ? Hnot Hn']; subst. constructor.
  - intros Hin. apply in_map_iff in Hin. destruct Hin as [b [Hb Hbl]].
    apply Hnot. apply in_map_iff. exists b. split; [|exact Hbl].
    apply Hc; [now right|now left|exact Hb].
  - apply IH; [|exact Hn'].
    intros x y Hx Hy. apply Hc; now right.
Qed.

Lemma sum_points_map_entries (f : string -> option Z)
  (l : list (string * Z)) :
  sum_points (map (fun e => Point.mk (f (fst e)) (snd e)) l) = sum_entries l.
Proof.
  induction l as [|e l IH]; [reflexivity|].
  unfold sum_points, sum_entries in *. cbn [map fold_right Point.Value].
  now rewrite IH.
Qed.

Section RollupSpec.
Variable fallback : string -> option Z.

(** What the rollup of dated points is: one point per UTC day that has
    points, at that day's midnight, valued the sum of the day's points;
    no [NaN], no day twice, the total unchanged. *)
Lemma rollup_spec detail :
  dated detail ->
  exists out,
    rollup fallback detail = Some out
    /\ (forall ts v,
           In (Point.mk (Some ts) v) out
           <-> exists day, ts = 86400 * day
                           /\ points_on day detail <> []
                           /\ v = sum_points (points_on day detail))
    /\ (forall p, In p out -> Point.Timestamp p <> None)
    /\ NoDup (map Point.Timestamp out)
    /\ total out = total detail.
Proof.
  intros Hd. eexists. split; [apply rollup_dated; exact Hd|].
  set (g := fun e : string * Z =>
              Point.mk (second_of fallback (fst e ++ "T00:00:00Z"))
                       (snd e)).
  assert (Hg : forall e, In e (day_entries detail) ->
             exists ts p, In p detail /\ Point.Timestamp p = Some ts
               /\ in_four_digit_years (ts * 1000)
               /\ fst e = date_text (ts * 1000)
               /\ snd e = sum_points (points_on (day_number ts) detail)
               /\ g e = Point.mk (Some (86400 * day_number ts)) (snd e)).
  { intros [k v] He. apply day_entries_In in He; [|exact Hd].
    destruct He as (ts & p & Hp & Ht & -> & ->).
    destruct (Hd p Hp) as (ts' & Ht' & Hr).
    assert (ts' = ts) by congruence. subst ts'.
    exists ts, p.
    split; [exact Hp|]. split; [exact Ht|]. split; [exact Hr|].
    split; [reflexivity|]. split; [reflexivity|].
    unfold g. cbn [fst snd].
    rewrite second_of_midnight by exact Hr. now rewrite Day_seconds. }
  split; [intros ts v; split|split; [|split]].
  - intros Hin. apply in_map_iff in Hin. destruct Hin as [e [He Hin]].
    destruct (Hg e Hin) as (ts' & p & Hp & Ht & Hr & Hk & Hv & Hge).
    fold g in He. rewrite Hge in He.
    assert (Ets : 86400 * day_number ts' = ts) by congruence.
    assert (Ev : snd e = v) by congruence.
    exists (day_number ts'). split; [lia|]. split; [|congruence].
    intros Hnil.
    assert (Hf : In p (points_on (day_number ts') detail)).
    { apply filter_In. split; [exact Hp|].
      unfold on_day. rewrite Ht. apply Z.eqb_refl. }
    rewrite Hnil in Hf. exact Hf.
  - intros (day & -> & Hne & ->).
    destruct (points_on day detail) as [|p l] eqn:E; [congruence|].
    assert (Hf : In p (points_on day detail)) by (rewrite E; now left).
    apply filter_In in Hf. destruct Hf as [Hp Hon].
    unfold on_day in Hon.
    destruct (Point.Timestamp p) as [ts|] eqn:Ht; [|discriminate Hon].
    apply Z.eqb_eq in Hon. subst day. rewrite <- E.
    apply in_map_iff.
    exists (date_text (ts * 1000),
            sum_points (points_on (day_number ts) detail)).
    split.
    + destruct (Hd p Hp) as (ts' & Ht' & Hr).
      assert (ts' = ts) by congruence. subst ts'.
      unfold g. cbn [fst snd]. rewrite second_of_midnight by exact Hr.
      now rewrite Day_seconds.
    + apply day_entries_In; [exact Hd|]. exists ts, p. auto.
  - intros p Hin. apply in_map_iff in Hin. destruct Hin as [e [He Hin]].
    destruct (Hg e Hin) as (ts' & _ & _ & _ & _ & _ & _ & Hge).
    fold g in He. rewrite Hge in He. subst p. discriminate.
  - rewrite map_map.
    apply (NoDup_map_compat fst).
    + intros x y Hx Hy Hxy.
      destruct (Hg x Hx) as (tx & _ & _ & _ & _ & Hkx & _ & Hgx).
      destruct (Hg y Hy) as (ty & _ & _ & _ & _ & Hky & _ & Hgy).
      fold g in Hxy. rewrite Hgx, Hgy in Hxy.
      cbn [Point.Timestamp] in Hxy.
      assert (E : day_number tx = day_number ty).
      { assert (E' : 86400 * day_number tx = 86400 * day_number ty)
          by congruence. lia. }
      rewrite Hkx, Hky. apply date_text_Day. now rewrite !Day_seconds.
    + eapply Permutation_NoDup.
      * apply Permutation_map, day_entries_perm.
      * apply accumulate_all_NoDup. constructor.
  - rewrite !total_sum_points.
    transitivity (sum_entries (day_entries detail)).
    + apply (sum_points_map_entries
               (fun k => second_of fallback (k ++ "T00:00:00Z"))).
    + rewrite <- (sum_entries_perm _ _ (day_entries_perm detail)).
      rewrite sum_entries_accumulate_all. reflexivity.
Qed.
End RollupSpec.

(** *** The points of the merge *)

Lemma second_of_Date_parse fallback s :
  second_of fallback s
  = option_map (fun t => t / 1000) (Date_parse fallback s).
Proof.
  unfold second_of, Date_parse.
  destruct (parse_iso s); [reflexivity|].
  destruct (fallback s); reflexivity.
Qed.

Section Detail.
Variable fallback : string -> option Z.

Lemma detail_of_entries rows :
  detail_of fallback rows
  = map (fun e => Point.mk (Number_of_key (fst e)) (snd e))
        (sorted_entries fallback rows).
Proof. reflexivity. Qed.

Lemma detail_of_In rows ts v :
  parses fallback rows ->
  In (Point.mk (Some ts) v) (detail_of fallback rows)
  <-> rows_at fallback ts rows <> []
      /\ v = sum_values (rows_at fallback ts rows).
Proof.
  intros Hp.
  rewrite <- (row_key_rows_at fallback ts rows Hp).
  rewrite <- (filed_rows_at fallback ts rows Hp).
  rewrite <- (accumulate_all_entries (row_key fallback) sum_value rows).
  rewrite <- merge_accumulate, detail_of_entries, in_map_iff.
  split.
  - intros [[k x] [Heq Hin]]. cbn [fst snd] in Heq.
    destruct (sorted_entries_keys fallback rows _ Hp Hin) as [t Ht].
    cbn [fst] in Ht. subst k. rewrite Number_of_key_ToString in Heq.
    inversion Heq; subst.
    eapply Permutation_in;
      [symmetry; apply sorted_entries_perm|exact Hin].
  - intros Hin. exists (ToString (Some ts), v). split.
    + cbn [fst snd]. now rewrite Number_of_key_ToString.
    + eapply Permutation_in; [apply sorted_entries_perm|exact Hin].
Qed.

Lemma detail_of_ascending rows :
  parses fallback rows ->
  StronglySorted (before) (detail_of fallback rows).
Proof.
  intros Hp. rewrite detail_of_entries.
  pose proof (sorted_entries_strict fallback rows Hp) as Hs.
  pose proof (sorted_entries_keys fallback rows) as Hk.
  assert (Hnum : forall e, In e (sorted_entries fallback rows) ->
                   Number_of_key (fst e) = Some (key_number e)).
  { intros e He. destruct (Hk e Hp He) as [t Ht].
    unfold key_number. rewrite Ht, Number_of_key_ToString. reflexivity. }
  clear Hk.
  induction Hs as [|a l Hs IH Ha]; [constructor|].
  simpl. constructor.
  - apply IH. intros e He. apply Hnum. now right.
  - rewrite Forall_forall in *. intros p Hp'.
    apply in_map_iff in Hp'. destruct Hp' as [b [<- Hb]].
    unfold before. simpl.
    rewrite (Hnum a (or_introl eq_refl)), (Hnum b (or_intror Hb)).
    now apply Ha.
Qed.

Lemma detail_of_no_NaN rows p :
  parses fallback rows -> In p (detail_of fallback rows) ->
  Point.Timestamp p <> None.
Proof.
  intros Hp Hin. rewrite detail_of_entries in Hin.
  apply in_map_iff in Hin. destruct Hin as [e [<- He]].
  destruct (sorted_entries_keys fallback rows e Hp He) as [t Ht].
  simpl. rewrite Ht, Number_of_key_ToString. discriminate.
Qed.

Lemma detail_of_dated (rows : list row) :
  (forall r, In r rows ->
     exists instant,
       Date_parse fallback (dimension_value r) = Some instant
       /\ in_four_digit_years instant) ->
  parses fallback rows /\ dated (detail_of fallback rows).
Proof.
  intros Hrows.
  assert (Hp : parses fallback rows).
  { intros r Hr. destruct (Hrows r Hr) as (i & Hi & _).
    rewrite second_of_Date_parse, Hi. discriminate. }
  split; [exact Hp|].
  intros [[ts|] v] Hin.
  - exists ts. split; [reflexivity|].
    apply (detail_of_In rows ts v Hp) in Hin.
    destruct Hin as [Hne _].
    apply (row_key_rows_at fallback ts rows Hp) in Hne.
    destruct Hne as (r & Hr & Hk).
    destruct (Hrows r Hr) as (i & Hi & Hrange).
    unfold row_key in Hk. rewrite second_of_Date_parse, Hi in Hk.
    cbn [option_map] in Hk. apply ToString_inj in Hk. subst ts.
    unfold in_four_digit_years in *. Z.div_mod_to_equations. lia.
  - exfalso. now apply (detail_of_no_NaN rows _ Hp Hin).
Qed.

(** Nothing is lost between the rows and the points. *)
Lemma total_detail rows : total (detail_of fallback rows) = sum_values rows.
Proof.
  rewrite total_sum_points. unfold detail_of.
  rewrite sum_points_map_entries.
  rewrite <- (sum_entries_perm _ _
                (Permutation_trans (Object_entries_perm _) (sort_perm _ _))).
  rewrite merge_accumulate, sum_entries_accumulate_all. reflexivity.
Qed.

(** The rows filed under [NaN]. *)
Lemma ToString_not_NaN z : ToString (Some z) <> "NaN".
Proof.
  intros H. pose proof (Number_of_key_ToString z) as E.
  rewrite H in E. vm_compute in E. discriminate E.
Qed.

Lemma filed_unparsed rows :
  filed (row_key fallback) sum_value "NaN" rows
  = sum_values (unparsed fallback rows).
Proof.
  unfold unparsed. induction rows as [|r rows IH]; [reflexivity|].
  cbn [filed filter]. rewrite IH. unfold row_key at 1.
  destruct (second_of fallback (dimension_value r)) as [t|];
    [|reflexivity].
  destruct (String.eqb_spec (ToString (Some t)) "NaN") as [E|_];
    [now apply ToString_not_NaN in E|reflexivity].
Qed.

Lemma merge_NaN rows r :
  In r rows -> second_of fallback (dimension_value r) = None ->
  own (merge fallback rows) "NaN"
  = Some (sum_values (unparsed fallback rows)).
Proof.
  intros Hr Hn. rewrite merge_accumulate.
  apply own_In; [apply accumulate_all_NoDup; constructor|].
  apply accumulate_all_entries. split.
  - exists r. split; [exact Hr|]. unfold row_key. now rewrite Hn.
  - symmetry. apply filed_unparsed.
Qed.
End Detail.

End CdnFacts.

(** ** The handler's sums and the exact ones *)

Module NumberFacts.

Import JS JSSpec JSFacts Cdn CdnSpec CdnFacts.

(** *** Doubles *)

Lemma double_exact (z : Z) : Z.abs z < 2 ^ 53 -> double z = Finite z.
Proof.
  intros H. unfold double, nearest.
  destruct (Z.ltb_spec (Z.abs z) (2 ^ 53)) as [_|Hge]; [|lia].
  destruct (Z.leb_spec (2 ^ 1024) (Z.abs z)) as [Hbig|_].
  - exfalso. assert (2 ^ 53 < 2 ^ 1024) by (apply Z.pow_lt_mono_r; lia). lia.
  - f_equal. rewrite Z.mul_comm. apply Z.abs_sgn.
Qed.

Lemma plus_exact (a b : Z) :
  Z.abs (a + b) < 2 ^ 53 -> plus (Finite a) (Finite b) = Finite (a + b).
Proof. apply double_exact. Qed.

(** *** Sorting and listing through a change of values *)

Section Maps.
Context {A B : Type}.
Variable g : A -> B.

Lemma insert_map (cmp : A -> A -> Z) (cmp' : B -> B -> Z) x l :
  (forall x y, cmp' (g x) (g y) = cmp x y) ->
  insert cmp' (g x) (map g l) = map g (insert cmp x l).
Proof.
  intros H. induction l as [|y l IH]; [reflexivity|].
  cbn [map insert]. rewrite H.
  destruct (cmp x y <=? 0); [reflexivity|]. cbn [map]. now rewrite IH.
Qed.

Lemma sort_map (cmp : A -> A -> Z) (cmp' : B -> B -> Z) l :
  (forall x y, cmp' (g x) (g y) = cmp x y) ->
  sort cmp' (map g l) = map g (sort cmp l).
Proof.
  intros H. induction l as [|x l IH]; [reflexivity|].
  cbn [map sort fold_right]. fold (sort cmp' (map g l)). fold (sort cmp l).
  rewrite IH. now apply insert_map.
Qed.

Lemma filter_map_compat (P : A -> bool) (Q : B -> bool) l :
  (forall x, Q (g x) = P x) ->
  filter Q (map g l) = map g (filter P l).
Proof.
  intros H. induction l as [|x l IH]; [reflexivity|].
  cbn [map filter]. rewrite H, IH. now destruct (P x).
Qed.

Lemma fold_left_ext_in {S : Type} (f f' : S -> A -> S) l :
  (forall s x, In x l -> f s x = f' s x) ->
  forall s, fold_left f l s = fold_left f' l s.
Proof.
  induction l as [|x l IH]; intros H s; [reflexivity|].
  cbn [fold_left]. rewrite (H s x (or_introl eq_refl)).
  apply IH. intros s' y Hy. apply H. now right.
Qed.
End Maps.

Lemma Object_entries_number o :
  Object_entries (map Exact.number_entry o)
  = map Exact.number_entry (Object_entries o).
Proof.
  unfold Object_entries. rewrite map_app. f_equal.
  - rewrite (filter_map_compat Exact.number_entry
               (fun e => is_array_index (fst e))) by reflexivity.
    now apply sort_map.
  - now apply filter_map_compat.
Qed.

(** *** Objects *)

Lemma own_number o k :
  own (map Exact.number_entry o) k = option_map Finite (own o k).
Proof.
  induction o as [|[k' v] o IH]; [reflexivity|].
  cbn [map Exact.number_entry fst snd own].
  destruct (k' =? k)%string; [reflexivity|exact IH].
Qed.

Lemma set_number o k x :
  set (map Exact.number_entry o) k (Finite x)
  = map Exact.number_entry (set o k x).
Proof.
  induction o as [|[k' v] o IH]; [reflexivity|].
  cbn [map Exact.number_entry fst snd set].
  destruct (k' =? k)%string; [reflexivity|].
  cbn [map Exact.number_entry fst snd]. now rewrite IH.
Qed.

Lemma weight_set o k x :
  Exact.weight (set o k x)
  = Exact.weight o - Z.abs (Exact.lookup0 o k) + Z.abs x.
Proof.
  unfold Exact.lookup0.
  induction o as [|[k' v] o IH]; cbn [set own Exact.weight fold_right snd];
    [lia|].
  destruct (k' =? k)%string; cbn [Exact.weight fold_right snd]; [lia|].
  fold (Exact.weight (set o k x)). fold (Exact.weight o). rewrite IH. lia.
Qed.

Lemma weight_nonneg o : 0 <= Exact.weight o.
Proof.
  induction o as [|e o IH]; cbn [Exact.weight fold_right]; [lia|].
  fold (Exact.weight o). lia.
Qed.

Lemma lookup0_weight o k : Z.abs (Exact.lookup0 o k) <= Exact.weight o.
Proof.
  unfold Exact.lookup0.
  induction o as [|[k' v] o IH]; cbn [own Exact.weight fold_right snd];
    [lia|].
  fold (Exact.weight o). pose proof (weight_nonneg o).
  destruct (k' =? k)%string; lia.
Qed.

Lemma weight_accumulate o k v :
  Exact.weight (Exact.accumulate o k v) <= Exact.weight o + Z.abs v.
Proof.
  unfold Exact.accumulate. rewrite weight_set.
  fold (Exact.lookup0 o k). lia.
Qed.

Lemma weight_perm o o' :
  Permutation o o' -> Exact.weight o = Exact.weight o'.
Proof.
  unfold Exact.weight. induction 1; cbn [fold_right] in *; lia.
Qed.

Lemma accumulate_number o k v :
  Exact.weight o + Z.abs v < 2 ^ 53 ->
  accumulate (map Exact.number_entry o) k (Finite v)
  = map Exact.number_entry (Exact.accumulate o k v).
Proof.
  intros H. unfold accumulate, Exact.accumulate.
  rewrite own_number. pose proof (lookup0_weight o k) as Hl.
  unfold Exact.lookup0 in Hl.
  replace (or_zero (option_map Finite (own o k)))
    with (Finite (match own o k with Some x => x | None => 0 end))
    by (destruct (own o k); reflexivity).
  rewrite plus_exact by lia. apply set_number.
Qed.

Section Accumulation.
Context {I : Type}.
Variables (kf : I -> string) (vf : I -> Z).

Lemma load_nonneg l : 0 <= Exact.load vf l.
Proof.
  induction l as [|i l IH]; cbn [Exact.load fold_right]; [lia|].
  fold (Exact.load vf l). lia.
Qed.

Lemma weight_accumulate_all l : forall o,
  Exact.weight (Exact.accumulate_all kf vf l o)
  <= Exact.weight o + Exact.load vf l.
Proof.
  induction l as [|i l IH]; intros o;
    cbn [Exact.accumulate_all fold_left Exact.load fold_right]; [lia|].
  fold (Exact.load vf l).
  fold (Exact.accumulate_all kf vf l (Exact.accumulate o (kf i) (vf i))).
  specialize (IH (Exact.accumulate o (kf i) (vf i))).
  pose proof (weight_accumulate o (kf i) (vf i)). lia.
Qed.

Lemma accumulate_all_number l : forall o,
  Exact.weight o + Exact.load vf l < 2 ^ 53 ->
  fold_left (fun m i => accumulate m (kf i) (Finite (vf i))) l
            (map Exact.number_entry o)
  = map Exact.number_entry (Exact.accumulate_all kf vf l o).
Proof.
  induction l as [|i l IH]; intros o H; [reflexivity|].
  cbn [fold_left Exact.load fold_right Exact.accumulate_all] in *.
  fold (Exact.load vf l) in H. pose proof (load_nonneg l).
  rewrite accumulate_number by lia.
  apply IH. pose proof (weight_accumulate o (kf i) (vf i)). lia.
Qed.
End Accumulation.

(** *** The merge *)

Section Merge.
Variable fallback : string -> option Z.

Lemma epoch_seconds_second_of s :
  epoch_seconds fallback s = second_of fallback s.
Proof. symmetry. apply second_of_Date_parse. Qed.

Lemma magnitude_In rows r :
  In r rows -> Z.abs (sum_value r) <= magnitude rows.
Proof.
  induction rows as [|x rows IH]; [contradiction|].
  cbn [magnitude fold_right]. fold (magnitude rows).
  pose proof (load_nonneg sum_value rows) as Hn.
  change (Exact.load sum_value rows) with (magnitude rows) in Hn.
  intros [->|Hin]; [lia|]. specialize (IH Hin). lia.
Qed.

Lemma merge_number rows :
  exactly_summable rows ->
  merge fallback rows = map Exact.number_entry (Exact.merge fallback rows).
Proof.
  intros H. unfold merge.
  rewrite (fold_left_ext_in _
             (fun m r => accumulate m (Exact.row_key fallback r)
                                    (Finite (sum_value r)))).
  - apply (accumulate_all_number (Exact.row_key fallback) sum_value rows []).
    exact H.
  - intros m r Hr. cbv zeta. rewrite epoch_seconds_second_of.
    rewrite double_exact; [reflexivity|].
    pose proof (magnitude_In rows r Hr). unfold exactly_summable in H. lia.
Qed.

Lemma weight_merge rows :
  Exact.weight (Exact.merge fallback rows) <= magnitude rows.
Proof.
  apply (weight_accumulate_all (Exact.row_key fallback) sum_value rows []).
Qed.

Lemma fold_accumulate_keys {I : Type} (kf : I -> string)
  (vf : I -> number) l : forall o k,
  In k (map fst o) \/ (exists i, In i l /\ kf i = k) ->
  In k (map fst (fold_left (fun m i => accumulate m (kf i) (vf i)) l o)).
Proof.
  induction l as [|i l IH]; intros o k H; cbn [fold_left].
  - destruct H as [H|[i [[] _]]]. exact H.
  - apply IH. unfold accumulate. rewrite set_keys.
    destruct H as [H|[j [[->|Hj] Hk]]].
    + left. now right.
    + left. left. now symmetry.
    + right. now exists j.
Qed.

(** A row is filed under the text of its epoch second, [NaN] when its
    time string does not parse; with the key [NaN] the order of the
    points is the engine's. *)
Lemma merge_has_key rows r :
  In r rows ->
  In (ToString (second_of fallback (dimension_value r)))
     (map fst (merge fallback rows)).
Proof.
  intros Hr. unfold merge.
  apply (fold_accumulate_keys
           (fun r => ToString (epoch_seconds fallback (dimension_value r)))
           (fun r => double (sum_value r))).
  right. exists r. split; [exact Hr|]. now rewrite epoch_seconds_second_of.
Qed.

Lemma detail_of_NaN rows :
  In "NaN" (map fst (merge fallback rows)) -> detail_of fallback rows = None.
Proof.
  intros H. unfold detail_of. cbv zeta.
  destruct (consistently_ordered _) eqn:E; [|reflexivity].
  exfalso. unfold consistently_ordered in E. rewrite forallb_forall in E.
  apply in_map_iff in H. destruct H as [e [Hk He]].
  specialize (E e (Permutation_in _ (Object_entries_perm _) He)).
  rewrite Hk in E. vm_compute in E. discriminate E.
Qed.

Lemma points_weight_entries (f : string -> option Z) l :
  Exact.points_weight
    (map (fun e => Exact.Point.mk (f (fst e)) (snd e)) l)
  = Exact.weight l.
Proof.
  induction l as [|e l IH]; [reflexivity|].
  cbn [map Exact.points_weight Exact.weight fold_right Exact.Point.Value].
  fold (Exact.weight l).
  fold (Exact.points_weight
          (map (fun e => Exact.Point.mk (f (fst e)) (snd e)) l)).
  now rewrite IH.
Qed.

Lemma points_weight_detail rows :
  Exact.points_weight (Exact.detail_of fallback rows) <= magnitude rows.
Proof.
  unfold Exact.detail_of. rewrite points_weight_entries.
  rewrite <- (weight_perm _ _
                (Permutation_trans (Object_entries_perm _) (sort_perm _ _))).
  apply weight_merge.
Qed.

Lemma detail_of_number rows :
  parses fallback rows -> exactly_summable rows ->
  detail_of fallback rows
  = Some (map Exact.number_point (Exact.detail_of fallback rows)).
Proof.
  intros Hp Hs. unfold detail_of. cbv zeta.
  rewrite (merge_number rows Hs), Object_entries_number.
  replace (consistently_ordered _) with true.
  - f_equal. unfold Exact.detail_of.
    rewrite (sort_map Exact.number_entry by_number by_number) by reflexivity.
    rewrite !map_map. reflexivity.
  - symmetry. apply forallb_forall. intros e He.
    apply in_map_iff in He. destruct He as [e0 [<- He0]].
    assert (Hm : In e0 (Exact.merge fallback rows)).
    { eapply Permutation_in;
        [symmetry; apply Object_entries_perm|exact He0]. }
    destruct (merge_keys fallback rows e0 Hp Hm) as [ts Hts].
    cbn [Exact.number_entry fst]. now rewrite Hts, Number_of_key_ToString.
Qed.
End Merge.

(** *** Points *)

Lemma In_number_point ts v d :
  In (Point.mk (Some ts) v) (map Exact.number_point d)
  <-> exists z, v = Finite z /\ In (Exact.Point.mk (Some ts) z) d.
Proof.
  rewrite in_map_iff. split.
  - intros [[t z] [E Hin]]. unfold Exact.number_point in E.
    cbn in E. injection E as -> <-. now exists z.
  - intros [z [-> Hin]]. now exists (Exact.Point.mk (Some ts) z).
Qed.

Lemma number_point_timestamp d :
  map Point.Timestamp (map Exact.number_point d)
  = map Exact.Point.Timestamp d.
Proof. rewrite map_map. reflexivity. Qed.

Lemma number_point_some d p :
  (forall p, In p d -> Exact.Point.Timestamp p <> None) ->
  In p (map Exact.number_point d) -> Point.Timestamp p <> None.
Proof.
  intros H Hin. apply in_map_iff in Hin. destruct Hin as [p0 [<- Hp0]].
  now apply H.
Qed.

Lemma before_number d :
  StronglySorted Exact.before d ->
  StronglySorted before (map Exact.number_point d).
Proof.
  induction 1 as [|a l Hs IH Ha]; cbn [map]; constructor; [exact IH|].
  rewrite Forall_forall in *. intros p Hp.
  apply in_map_iff in Hp. destruct Hp as [b [<- Hb]]. now apply Ha.
Qed.

Lemma points_on_number day d :
  points_on day (map Exact.number_point d)
  = map Exact.number_point (Exact.points_on day d).
Proof. apply filter_map_compat. reflexivity. Qed.

Lemma sum_points_number d :
  sum_points (map Exact.number_point d) = Exact.sum_points d.
Proof.
  induction d as [|p d IH]; [reflexivity|].
  cbn [map sum_points Exact.sum_points fold_right].
  fold (sum_points (map Exact.number_point d)). fold (Exact.sum_points d).
  now rewrite IH.
Qed.

Lemma integral_number d p :
  In p (map Exact.number_point d) -> integral p.
Proof.
  intros Hin. apply in_map_iff in Hin. destruct Hin as [p0 [<- _]].
  now exists (Exact.Point.Value p0).
Qed.

Lemma points_on_nil day d :
  points_on day (map Exact.number_point d) <> []
  <-> Exact.points_on day d <> [].
Proof.
  rewrite points_on_number.
  destruct (Exact.points_on day d); cbn [map]; split; congruence.
Qed.

(** *** The total and the rollup *)

Lemma points_weight_nonneg d : 0 <= Exact.points_weight d.
Proof.
  induction d as [|p d IH]; cbn [Exact.points_weight fold_right]; [lia|].
  fold (Exact.points_weight d). lia.
Qed.

Lemma total_number d :
  Exact.points_weight d < 2 ^ 53 ->
  total (map Exact.number_point d) = Finite (Exact.total d).
Proof.
  unfold total, Exact.total.
  assert (H : forall l acc,
             Z.abs acc + Exact.points_weight l < 2 ^ 53 ->
             fold_left (fun a curr => plus a (Point.Value curr))
                       (map Exact.number_point l) (Finite acc)
             = Finite (fold_left (fun a curr => a + Exact.Point.Value curr)
                                 l acc)).
  { induction l as [|p l IH]; intros acc Hb; [reflexivity|].
    cbn [map fold_left Exact.number_point Point.Value
         Exact.points_weight fold_right] in *.
    fold (Exact.points_weight l) in Hb.
    pose proof (points_weight_nonneg l).
    rewrite plus_exact by lia. apply IH. lia. }
  intros Hb. apply H. lia.
Qed.

Lemma day_merge_number d : forall o,
  Exact.weight o + Exact.points_weight d < 2 ^ 53 ->
  day_merge (map Exact.number_point d) (map Exact.number_entry o)
  = option_map (map Exact.number_entry) (Exact.day_merge d o).
Proof.
  induction d as [|p d IH]; intros o H; [reflexivity|].
  cbn [map day_merge Exact.day_merge Exact.points_weight fold_right] in *.
  fold (Exact.points_weight d) in H.
  pose proof (points_weight_nonneg d).
  change (day_of (Exact.number_point p)) with (Exact.day_of p).
  destruct (Exact.day_of p) as [day|]; [|reflexivity].
  cbn [Exact.number_point Point.Value].
  rewrite accumulate_number by lia.
  apply IH. pose proof (weight_accumulate o day (Exact.Point.Value p)). lia.
Qed.

Lemma rollup_number fallback d :
  Exact.points_weight d < 2 ^ 53 ->
  rollup fallback (map Exact.number_point d)
  = option_map (map Exact.number_point) (Exact.rollup fallback d).
Proof.
  intros H. unfold rollup, Exact.rollup.
  change (@nil (string * number)) with (map Exact.number_entry []).
  rewrite day_merge_number by (cbn [Exact.weight fold_right]; lia).
  destruct (Exact.day_merge d []) as [dayMerged|]; [|reflexivity].
  cbn [option_map]. f_equal.
  rewrite Object_entries_number.
  rewrite (sort_map Exact.number_entry Exact.by_day by_day) by reflexivity.
  rewrite !map_map. apply map_ext. intros e.
  cbn [Exact.number_entry fst snd]. unfold Exact.number_point.
  cbn [Exact.Point.Timestamp Exact.Point.Value].
  now rewrite epoch_seconds_second_of.
Qed.

Lemma points_weight_rollup fallback d out :
  Exact.rollup fallback d = Some out ->
  Exact.points_weight out <= Exact.points_weight d.
Proof.
  unfold Exact.rollup. intros H.
  destruct (Exact.day_merge d []) as [dayMerged|] eqn:E; [|discriminate H].
  injection H as <-.
  rewrite (points_weight_entries
             (fun k => second_of fallback (k ++ "T00:00:00Z"))).
  rewrite <- (weight_perm _ _
                (Permutation_trans (Object_entries_perm _) (sort_perm _ _))).
  assert (G : forall l o o', Exact.day_merge l o = Some o' ->
                Exact.weight o' <= Exact.weight o + Exact.points_weight l).
  { induction l as [|p l IH]; intros o o' Hl;
      cbn [Exact.day_merge Exact.points_weight fold_right] in *.
    - injection Hl as <-. lia.
    - fold (Exact.points_weight l).
      destruct (Exact.day_of p) as [day|]; [|discriminate Hl].
      specialize (IH _ _ Hl).
      pose proof (weight_accumulate o day (Exact.Point.Value p)). lia. }
  specialize (G _ _ _ E). cbn [Exact.weight fold_right] in G. lia.
Qed.

End NumberFacts.

(** ** The edge adapter's signer *)

Module EdgeFacts.

Import JS JSSpec JSFacts Edge EdgeSpec.

(** *** Percent encoding, character by character *)

Ltac each_character c :=
  destruct c as [[] [] [] [] [] [] [] []].

Lemma append_assoc (a b c : string) : (a ++ b) ++ c = a ++ (b ++ c).
Proof. induction a as [|x a IH]; simpl; [reflexivity|now rewrite IH]. Qed.

Lemma replace_char_app (c : ascii) (rep a b : string) :
  replace_char c rep (a ++ b) = replace_char c rep a ++ replace_char c rep b.
Proof.
  induction a as [|x a IH]; simpl; [reflexivity|].
  destruct (x =? c)%char; simpl; rewrite IH; [|reflexivity].
  now rewrite append_assoc.
Qed.

Lemma uri_token_plus (c : ascii) :
  replace_char "+" "%20" (uri_token c) = uri_token c.
Proof. each_character c; reflexivity. Qed.

Lemma uri_token_star (c : ascii) :
  replace_char "*" "%2A" (uri_token c) = pe_char c.
Proof. each_character c; reflexivity. Qed.

Lemma pe_char_tilde (c : ascii) (rest : string) :
  replace3 "%" "7" "E" "~" (pe_char c ++ rest)
  = pe_char c ++ replace3 "%" "7" "E" "~" rest.
Proof.
  destruct rest as [|r1 [|r2 rest]]; each_character c; reflexivity.
Qed.

Lemma percentEncode_pe (s : string) : percentEncode s = pe s.
Proof.
  unfold percentEncode.
  assert (H : replace_char "*" "%2A"
                (replace_char "+" "%20" (encodeURIComponent s)) = pe s).
  { induction s as [|c s IH]; [reflexivity|].
    cbn [encodeURIComponent pe]. fold (uri_token c).
    rewrite !replace_char_app, uri_token_plus, uri_token_star, IH.
    reflexivity. }
  rewrite H. clear H.
  induction s as [|c s IH]; [reflexivity|].
  cbn [pe]. now rewrite pe_char_tilde, IH.
Qed.

Lemma decode_head_pe_char (c : ascii) (rest : string) :
  decode_head (pe_char c ++ rest) = Some (c, rest).
Proof. each_character c; reflexivity. Qed.

Lemma pe_char_code (c1 c2 : ascii) (r1 r2 : string) :
  pe_char c1 ++ r1 = pe_char c2 ++ r2 -> c1 = c2 /\ r1 = r2.
Proof.
  intros H. apply (f_equal decode_head) in H.
  rewrite !decode_head_pe_char in H. now inversion H.
Qed.

Lemma pe_char_nonempty (c : ascii) (rest : string) :
  pe_char c ++ rest <> "".
Proof.
  intros H. apply (f_equal decode_head) in H.
  rewrite decode_head_pe_char in H. discriminate H.
Qed.

Lemma pe_inj (s1 s2 : string) : pe s1 = pe s2 -> s1 = s2.
Proof.
  revert s2. induction s1 as [|c1 s1 IH]; intros [|c2 s2] H; cbn [pe] in H.
  - reflexivity.
  - symmetry in H. now apply pe_char_nonempty in H.
  - now apply pe_char_nonempty in H.
  - apply pe_char_code in H. destruct H as [-> H]. f_equal. now apply IH.
Qed.

Lemma has_char_app (x : ascii) (a b : string) :
  has_char x (a ++ b) = has_char x a || has_char x b.
Proof.
  induction a as [|c a IH]; simpl; [reflexivity|].
  now rewrite IH, orb_assoc.
Qed.

Lemma pe_char_separators (c : ascii) :
  has_char "&" (pe_char c) = false /\ has_char "=" (pe_char c) = false.
Proof. each_character c; split; reflexivity. Qed.

Lemma pe_separators (s : string) :
  has_char "&" (pe s) = false /\ has_char "=" (pe s) = false.
Proof.
  induction s as [|c s [IH1 IH2]]; [split; reflexivity|].
  cbn [pe]. rewrite !has_char_app, IH1, IH2.
  destruct (pe_char_separators c) as [-> ->]. split; reflexivity.
Qed.

Lemma append_inj_l (a x y : string) : a ++ x = a ++ y -> x = y.
Proof.
  induction a as [|c a IH]; simpl; intros H; [exact H|].
  inversion H. now apply IH.
Qed.

(** Two texts free of [x] that are followed by [x] and agree as a whole
    agree part by part. *)
Lemma split_at (x : ascii) (a b r1 r2 : string) :
  has_char x a = false -> has_char x b = false ->
  a ++ String x r1 = b ++ String x r2 -> a = b /\ r1 = r2.
Proof.
  revert b. induction a as [|c a IH]; intros [|d b] Ha Hb H; simpl in *.
  - inversion H. auto.
  - inversion H; subst. rewrite Ascii.eqb_refl in Hb. discriminate Hb.
  - inversion H; subst. rewrite Ascii.eqb_refl in Ha. discriminate Ha.
  - inversion H; subst. apply orb_false_iff in Ha, Hb.
    destruct (IH b (proj2 Ha) (proj2 Hb) H2) as [-> ->]. auto.
Qed.

Lemma concat_amp_inj (l1 l2 : list string) :
  List.length l1 = List.length l2 ->
  Forall (fun s => has_char "&" s = false) l1 ->
  Forall (fun s => has_char "&" s = false) l2 ->
  String.concat "&" l1 = String.concat "&" l2 -> l1 = l2.
Proof.
  revert l2. induction l1 as [|a l1 IH]; intros [|b l2] Hl H1 H2 H;
    try discriminate Hl; [reflexivity|].
  inversion H1 as [|? ? Ha H1']; inversion H2 as [|? ? Hb H2']; subst.
  destruct l1 as [|a' l1], l2 as [|b' l2]; try discriminate Hl.
  - cbn [String.concat] in H. now subst.
  - cbn [String.concat] in H. cbn [append] in H.
    destruct (split_at "&" a b _ _ Ha Hb H) as [-> Hr].
    f_equal. apply IH; auto.
Qed.

(** *** The canonical query and the string to sign *)

Lemma canonical_pair_no_amp params key :
  has_char "&" (canonical_pair params key) = false.
Proof.
  unfold canonical_pair. rewrite !percentEncode_pe, !has_char_app.
  rewrite (proj1 (pe_separators key)).
  rewrite (proj1 (pe_separators (interp (own params key)))).
  reflexivity.
Qed.

Lemma canonical_pair_inj p1 p2 key :
  canonical_pair p1 key = canonical_pair p2 key ->
  interp (own p1 key) = interp (own p2 key).
Proof.
  unfold canonical_pair. intros H.
  apply append_inj_l, append_inj_l in H.
  rewrite !percentEncode_pe in H. now apply pe_inj.
Qed.

Lemma map_eq_In {A B : Type} (f g : A -> B) (l : list A) :
  map f l = map g l -> forall x, In x l -> f x = g x.
Proof.
  induction l as [|a l IH]; simpl; intros H x Hx; [contradiction|].
  inversion H. destruct Hx as [<-|Hx]; auto.
Qed.

Lemma own_Some_In {V : Type} (o : list (string * V)) (k : string) :
  In k (map fst o) -> exists v, own o k = Some v.
Proof.
  intros H. destruct (own o k) as [v|] eqn:E; [now exists v|].
  apply own_None in E. contradiction.
Qed.

(** Objects with the same keys in the same order and the same value
    under every key are the same. *)
Lemma same_entries {V : Type} (p1 p2 : list (string * V)) :
  map fst p1 = map fst p2 -> NoDup (map fst p1) ->
  (forall k, In k (map fst p1) -> own p1 k = own p2 k) -> p1 = p2.
Proof.
  revert p2. induction p1 as [|[k v] p1 IH]; intros [|[k' v'] p2] Hk Hn Ho;
    try discriminate Hk; [reflexivity|].
  simpl in Hk. inversion Hk; subst k'.
  inversion Hn as [|? ? Hnot Hn']; subst.
  pose proof (Ho k (or_introl eq_refl)) as Hv.
  simpl in Hv. rewrite String.eqb_refl in Hv. inversion Hv; subst v'.
  f_equal. apply IH; auto.
  intros x Hx. specialize (Ho x (or_intror Hx)). simpl in Ho.
  destruct (String.eqb_spec k x) as [->|_]; [contradiction|exact Ho].
Qed.

(** With the same keys, the canonical query determines every value. *)
Lemma canonicalizedQuery_inj (p1 p2 : list (string * string)) :
  map fst p1 = map fst p2 -> NoDup (map fst p1) ->
  canonicalizedQuery p1 = canonicalizedQuery p2 -> p1 = p2.
Proof.
  intros Hk Hn H. apply same_entries; auto.
  intros k Hin. unfold canonicalizedQuery, sorted_keys in H.
  rewrite <- Hk in H.
  fold (canonical_pair p1) in H. fold (canonical_pair p2) in H.
  apply concat_amp_inj in H.
  - assert (Hs : In k (sort code_unit_order (map fst p1)))
      by now apply sort_In.
    pose proof (map_eq_In _ _ _ H k Hs) as Hc.
    apply canonical_pair_inj in Hc.
    destruct (own_Some_In p1 k Hin) as [v1 E1].
    destruct (own_Some_In p2 k ltac:(now rewrite <- Hk)) as [v2 E2].
    rewrite E1, E2 in *. simpl in Hc. now subst.
  - now rewrite !length_map.
  - apply Forall_forall. intros s Hs. apply in_map_iff in Hs.
    destruct Hs as [key [<- _]]. apply canonical_pair_no_amp.
  - apply Forall_forall. intros s Hs. apply in_map_iff in Hs.
    destruct Hs as [key [<- _]]. apply canonical_pair_no_amp.
Qed.

Lemma stringToSign_inj (p1 p2 : list (string * string)) :
  map fst p1 = map fst p2 -> NoDup (map fst p1) ->
  stringToSign p1 = stringToSign p2 -> p1 = p2.
Proof.
  intros Hk Hn H. apply canonicalizedQuery_inj; auto.
  unfold stringToSign in H.
  apply append_inj_l, append_inj_l, append_inj_l in H.
  rewrite !percentEncode_pe in H. now apply pe_inj.
Qed.

(** *** Counting digests *)

Lemma bounded_search (f : Z -> Z) (v n : Z) :
  0 <= n ->
  (exists i, 0 <= i <= n /\ f i = v) \/ (forall i, 0 <= i <= n -> f i <> v).
Proof.
  intros Hn. pattern n. apply natlike_ind; [| |exact Hn].
  - destruct (Z.eq_dec (f 0) v) as [E|E].
    + left. exists 0. split; [lia|exact E].
    + right. intros i Hi. assert (i = 0) by lia. now subst.
  - intros x Hx [[i [Hi E]]|Hnone].
    + left. exists i. split; [lia|exact E].
    + destruct (Z.eq_dec (f (Z.succ x)) v) as [E|E].
      * left. exists (Z.succ x). split; [lia|exact E].
      * right. intros i Hi.
        destruct (Z.eq_dec i (Z.succ x)) as [->|Hne]; [exact E|].
        apply Hnone. lia.
Qed.

(** [n + 1] arguments cannot have pairwise different values among [n]
    values. *)
Lemma pigeonhole (n : Z) :
  0 <= n ->
  forall f : Z -> Z,
    (forall i, 0 <= i <= n -> 0 <= f i < n) ->
    exists i j, 0 <= i < j /\ j <= n /\ f i = f j.
Proof.
  intros Hn. pattern n. apply natlike_ind; [| |exact Hn].
  - intros f Hf. specialize (Hf 0). lia.
  - intros x Hx IH f Hf.
    destruct (bounded_search f (f (Z.succ x)) x Hx) as [[i [Hi E]]|Hnone].
    + exists i, (Z.succ x). split; [lia|]. split; [lia|exact E].
    + set (v := f (Z.succ x)) in *.
      assert (Hv : 0 <= v < Z.succ x) by (apply Hf; lia).
      destruct (IH (fun i => if f i <? v then f i else f i - 1))
        as (i & j & Hij & Hj & E).
      * intros i Hi. cbv beta.
        assert (0 <= f i < Z.succ x) by (apply Hf; lia).
        assert (f i <> v) by (apply Hnone; lia).
        destruct (Z.ltb_spec (f i) v); lia.
      * exists i, j. split; [lia|]. split; [lia|]. cbv beta in E.
        assert (f i <> v) by (apply Hnone; lia).
        assert (f j <> v) by (apply Hnone; lia).
        destruct (Z.ltb_spec (f i) v), (Z.ltb_spec (f j) v); lia.
Qed.

Lemma w32_range (x : Z) : 0 <= w32 x < 2 ^ 32.
Proof. unfold w32. apply Z.mod_pos_bound. reflexivity. Qed.

Lemma compress_words (h : state) (block : list Z) : words (compress h block).
Proof.
  unfold compress.
  destruct (rounds 0 _ h) as [[[[a b] c] d] e].
  destruct h as [[[[h0 h1] h2] h3] h4].
  unfold words. repeat split; apply w32_range.
Qed.

Lemma fold_compress_words (bs : list (list Z)) : forall h,
  words h -> words (fold_left compress bs h).
Proof.
  induction bs as [|b bs IH]; intros h Hh; [exact Hh|].
  simpl. apply IH, compress_words.
Qed.

Lemma sha1_state_words (m : list Z) : words (sha1_state m).
Proof.
  unfold sha1_state. apply fold_compress_words.
  unfold sha1_init, words. lia.
Qed.

Lemma digest_number_range (s : state) :
  words s -> 0 <= digest_number s < 2 ^ 160.
Proof.
  destruct s as [[[[a b] c] d] e]. unfold words, digest_number.
  change (2 ^ 32) with 4294967296.
  change (2 ^ 64) with 18446744073709551616.
  change (2 ^ 96) with 79228162514264337593543950336.
  change (2 ^ 128) with 340282366920938463463374607431768211456.
  change (2 ^ 160) with 1461501637330902918203684832716283019655932542976.
  lia.
Qed.

Lemma digest_number_inj (s1 s2 : state) :
  words s1 -> words s2 -> digest_number s1 = digest_number s2 -> s1 = s2.
Proof.
  destruct s1 as [[[[a b] c] d] e], s2 as [[[[a' b'] c'] d'] e'].
  unfold words, digest_number.
  change (2 ^ 32) with 4294967296.
  change (2 ^ 64) with 18446744073709551616.
  change (2 ^ 96) with 79228162514264337593543950336.
  change (2 ^ 128) with 340282366920938463463374607431768211456.
  intros H1 H2 H.
  assert (a = a') by lia. subst a'.
  assert (b = b') by lia. subst b'.
  assert (c = c') by lia. subst c'.
  assert (d = d') by lia. subst d'.
  assert (e = e') by lia. now subst e'.
Qed.

(** *** Signatures *)

Lemma or_else_empty (s : string) : or_else (Some s) "" = s.
Proof.
  unfold or_else. destruct (String.eqb_spec s ""); [now subst|reflexivity].
Qed.

Lemma make_params_site (s : string) :
  make_params 1704067200000 "n1" "id" (site_query s) (ts "Traffic")
  = Some (site_params s).
Proof.
  unfold make_params, site_query. cbn [siteId]. rewrite or_else_empty.
  vm_compute. reflexivity.
Qed.

Lemma Signature_state (sk : string) (p : list (string * string)) :
  Signature sk p
  = btoa (state_bytes (hmac_state (bytes_of_string (sk ++ "&"))
                                  (bytes_of_string (stringToSign p)))).
Proof. reflexivity. Qed.

Lemma hmac_state_words (key msg : list Z) : words (hmac_state key msg).
Proof. unfold hmac_state. apply sha1_state_words. Qed.

(** Among the site identifiers ["0"], ["1"], ... up to 2^160 two give the
    same signature, every other parameter, the nonce and the timestamp
    being equal. *)
Lemma signature_collision :
  exists s1 s2,
    s1 <> s2
    /\ make_params 1704067200000 "n1" "id" (site_query s1) (ts "Traffic")
       = Some (site_params s1)
    /\ make_params 1704067200000 "n1" "id" (site_query s2) (ts "Traffic")
       = Some (site_params s2)
    /\ Signature "secret" (site_params s1)
       = Signature "secret" (site_params s2).
Proof.
  destruct (pigeonhole (2 ^ 160) ltac:(apply Z.pow_nonneg; lia)
              (fun i => digest_number
                          (hmac_state
                             (bytes_of_string ("secret" ++ "&"))
                             (bytes_of_string
                                (stringToSign
                                   (site_params (ToString (Some i))))))))
    as (i & j & Hij & Hj & E).
  - intros i _. apply digest_number_range, hmac_state_words.
  - cbv beta in E.
    apply digest_number_inj in E; try apply hmac_state_words.
    exists (ToString (Some i)), (ToString (Some j)).
    split; [|split; [|split]].
    + intros H. apply ToString_inj in H. lia.
    + apply make_params_site.
    + apply make_params_site.
    + rewrite !Signature_state. now rewrite E.
Qed.

Lemma param_keys_NoDup : NoDup param_keys.
Proof.
  unfold param_keys.
  repeat (constructor;
          [cbn; intros H;
           repeat (destruct H as [H|H]; [discriminate H|]); exact H|]).
  constructor.
Qed.

Lemma make_params_keys now nonce id q c p :
  make_params now nonce id q c = Some p -> map fst p = param_keys.
Proof.
  unfold make_params.
  destruct (if truthy (endTime q) then _ else _); [|discriminate].
  destruct (if truthy (startTime q) then _ else _); [|discriminate].
  destruct (formatISO now); [|discriminate].
  intros H. injection H as <-. reflexivity.
Qed.

End EdgeFacts.

(** ** The adapters' properties *)

Module Properties.

Import JS JSSpec JSFacts.

(** *** Time series *)

Section TimeSeries.
Import Cdn CdnSpec CdnFacts NumberFacts.
Variable fallback : string -> option Z.

(** C2, as amended.  Account-scope time series whose rows carry time
    strings that parse and values that, in absolute value, sum to less
    than [2^53].  A time string in the date-time format is turned into
    the whole seconds of its instant, and every row has its point; the
    rows of one epoch second become one point whose value is the sum of
    theirs (and a second no row falls on has no point); no point
    carries [NaN]; the points ascend strictly by timestamp. *)
Theorem time_series_merge (rows : list row) :
  parses fallback rows ->
  exactly_summable rows ->
  exists detail,
    detail_of fallback rows = Some detail
    /\ (forall r instant,
           In r rows -> parse_iso (dimension_value r) = Some instant ->
           exists v, In (Point.mk (Some (instant / 1000)) v) detail)
    /\ (forall ts v,
           In (Point.mk (Some ts) v) detail
           <-> rows_at fallback ts rows <> []
               /\ v = Finite (sum_values (rows_at fallback ts rows)))
    /\ (forall p, In p detail -> Point.Timestamp p <> None)
    /\ StronglySorted before detail.
Proof.
  intros Hp Hs.
  exists (map Exact.number_point (Exact.detail_of fallback rows)).
  split; [now apply detail_of_number|]. split; [|split; [|split]].
  - intros r instant Hr Hi.
    exists (Finite (sum_values (rows_at fallback (instant / 1000) rows))).
    apply In_number_point. eexists. split; [reflexivity|].
    apply (detail_of_In fallback rows _ _ Hp). split; [|reflexivity].
    intros Hnil.
    assert (Hf : In r (rows_at fallback (instant / 1000) rows)).
    { apply filter_In. split; [exact Hr|].
      unfold same_second, second_of. rewrite Hi. apply Z.eqb_refl. }
    rewrite Hnil in Hf. exact Hf.
  - intros ts v. rewrite In_number_point. split.
    + intros [z [-> Hin]].
      apply (detail_of_In fallback rows _ _ Hp) in Hin.
      destruct Hin as [Hne ->]. now split.
    + intros [Hne ->]. eexists. split; [reflexivity|].
      apply (detail_of_In fallback rows _ _ Hp). now split.
  - intros p. apply number_point_some. intros q.
    now apply (detail_of_no_NaN fallback rows).
  - apply before_number. now apply detail_of_ascending.
Qed.
End TimeSeries.

(** Two rows of the same second with values 3 and 5, and a later row. *)
Example merge_3_and_5 :
  Cdn.detail_of (fun _ => None)
    [ Cdn.mkRow "2024-01-01T01:00:00Z" 1;
      Cdn.mkRow "2024-01-01T00:00:00Z" 3;
      Cdn.mkRow "2024-01-01T00:00:00.400Z" 5 ]
  = Some [ Cdn.Point.mk (Some 1704067200) (Finite 8);
           Cdn.Point.mk (Some 1704070800) (Finite 1) ].
Proof. vm_compute. reflexivity. Qed.

Lemma time_series_merge_witness :
  exists detail,
    Cdn.detail_of (fun _ => None)
      [ Cdn.mkRow "2024-01-01T00:00:00Z" 3;
        Cdn.mkRow "2024-01-01T00:00:00.400Z" 5 ] = Some detail
    /\ In (Cdn.Point.mk (Some 1704067200) (Finite 8)) detail.
Proof.
  destruct (time_series_merge (fun _ => None)
              [ Cdn.mkRow "2024-01-01T00:00:00Z" 3;
                Cdn.mkRow "2024-01-01T00:00:00.400Z" 5 ])
    as (detail & Hd & _ & Hin & _).
  - intros r [<-|[<-|[]]]; vm_compute; discriminate.
  - vm_compute. reflexivity.
  - exists detail. split; [exact Hd|]. apply Hin.
    vm_compute. split; [discriminate|reflexivity].
Defined.

(** Three rows of one second valued [2^53], 1 and 1.  Each addition of 1
    to [2^53] rounds back to [2^53]: the point carries [2^53], where the
    values of its rows sum to [2^53 + 2]. *)
Lemma merge_rounds :
  let rows := [ Cdn.mkRow "2024-01-01T00:00:00Z" 9007199254740992;
                Cdn.mkRow "2024-01-01T00:00:00Z" 1;
                Cdn.mkRow "2024-01-01T00:00:00Z" 1 ] in
  Cdn.detail_of (fun _ => None) rows
  = Some [ Cdn.Point.mk (Some 1704067200) (Finite 9007199254740992) ]
  /\ CdnSpec.sum_values (CdnSpec.rows_at (fun _ => None) 1704067200 rows)
     = 9007199254740994.
Proof. cbv zeta. split; vm_compute; reflexivity. Qed.

(** *** Distributions *)

Lemma sort_by_value_desc (l : list Cdn.Pair.t) :
  stable_descending Cdn.Pair.Value l (sort Cdn.by_value_desc l).
Proof.
  assert (Ho : ordered_by Cdn.by_value_desc
                 (fun p => - Cdn.Pair.Value p) l).
  { intros x y _ _. unfold Cdn.by_value_desc.
    destruct (Z.leb_spec (Cdn.Pair.Value y - Cdn.Pair.Value x) 0),
             (Z.leb_spec (- Cdn.Pair.Value x) (- Cdn.Pair.Value y));
      auto; lia. }
  split; [apply sort_perm|split].
  - pose proof (sort_sorted _ _ l Ho) as Hs. unfold descending_by.
    induction Hs as [|a l' Hs IH Ha]; constructor; [exact IH|].
    rewrite Forall_forall in *. intros b Hb. specialize (Ha b Hb). lia.
  - intros v. pose proof (sort_stable _ _ (- v) l Ho) as Hs.
    assert (E : forall l0 : list Cdn.Pair.t,
               filter (fun a => Cdn.Pair.Value a =? v) l0
               = filter (fun a => - Cdn.Pair.Value a =? - v) l0).
    { intros l0. apply filter_ext. intros a.
      destruct (Z.eqb_spec (Cdn.Pair.Value a) v),
               (Z.eqb_spec (- Cdn.Pair.Value a) (- v)); auto; lia. }
    rewrite !E. exact Hs.
Qed.

(** C6, as amended. The CDN adapter sorts the account-scope distribution
    and the zone-scope result descending by [Value], rows of equal value
    staying in upstream order; the ad-hoc Top-N rows of the CDN adapter
    and the Top-N rows of the edge adapter are returned in the order
    upstream sent them, whatever their values. *)
Theorem distribution_order :
  (forall resultData,
      stable_descending Cdn.Pair.Value (CdnSpec.distribution_pairs resultData)
                        (Cdn.distribution_detail resultData))
  /\ (forall idNameMap zonesData,
         stable_descending Cdn.Pair.Value (CdnSpec.zone_pairs idNameMap zonesData)
                           (Cdn.zone_result idNameMap zonesData))
  /\ (forall groups,
         map Cdn.Pair.Key (Cdn.topn_detail groups)
         = map Cdn.group_dimension groups
         /\ map Cdn.Pair.Value (Cdn.topn_detail groups)
            = map Cdn.count groups)
  /\ (forall rows,
         map Edge.Out.Key (map Edge.top_row rows)
         = map Edge.Api.DimensionValue rows
         /\ map Edge.Out.RowValue (map Edge.top_row rows)
            = map Edge.Api.Value rows).
Proof.
  split; [|split; [|split]].
  - intros. apply sort_by_value_desc.
  - intros. apply sort_by_value_desc.
  - intros. unfold Cdn.topn_detail. rewrite !map_map. split; reflexivity.
  - intros. rewrite !map_map. split; reflexivity.
Qed.

(** The rows [{A:5},{B:9},{C:9}] through the sorting path. *)
Example distribution_A5_B9_C9 :
  Cdn.distribution_detail
    [Cdn.mkRow "A" 5; Cdn.mkRow "B" 9; Cdn.mkRow "C" 9]
  = [Cdn.Pair.mk "B" 9; Cdn.Pair.mk "C" 9; Cdn.Pair.mk "A" 5].
Proof. reflexivity. Qed.

(** The edge adapter, asked for a Top-N metric and answered with the
    rows [A:5, B:9], returns them in that order: ascending. *)
Lemma edge_top_data_unsorted :
  let rows_in := [ Edge.Api.mkRow (Some 5) (Some "A") None;
                   Edge.Api.mkRow (Some 9) (Some "B") None ] in
  let rows_out := [ Edge.Out.mkRow (Some 5) (Some "A") None;
                    Edge.Out.mkRow (Some 9) (Some "B") None ] in
  let apiData :=
    Edge.Api.mkData (Some [Edge.Api.mkItem (Some rows_in) []]) None [] in
  exists url k,
    Edge.traffic (fun _ => None) 1704067200000 "n1"
      (Edge.mkKeys (Some "id") (Some "secret"))
      (Edge.mkQuery (Some "l7Flow_request_country") None None None None None)
    = Edge.Fetch url k
    /\ k (Edge.ApiResponse true 200 "" (Fulfilled apiData))
       = Edge.Respond 200
           (Edge.Json (Edge.Out.mkData
                         (Some [Edge.Out.TopItem rows_out []]) None []))
    /\ ~ descending_by EdgeSpec.row_value rows_out.
Proof.
  do 2 eexists. split; [reflexivity|]. split; [reflexivity|].
  intros H. inversion H as [|? ? _ Hall]; subst.
  inversion Hall as [|? ? Hle _]; subst.
  unfold EdgeSpec.row_value in Hle. simpl in Hle. lia.
Qed.

(** *** The registries *)

Lemma own_Forall {V : Type} (P : V -> Prop) (l : list (string * V)) :
  Forall (fun e => P (snd e)) l ->
  forall key, match own l key with
              | Some c => P c
              | None => True
              end.
Proof.
  intros Hall key. induction Hall as [|[k v] l Hv Hall IH]; simpl; [exact I|].
  destruct (k =? key)%string; [exact Hv|exact IH].
Qed.

(** The edge registry's entry for [l7Flow_flux] is a time series and
    carries the dimension ["ALL"]. *)
Lemma edge_series_has_dimension :
  let c := Edge.ts "Traffic" in
  own Edge.METRIC_CONFIG "l7Flow_flux" = Some c
  /\ Edge.type c = Some "TS"
  /\ Edge.dimension c = Some "ALL"
  /\ ~ (Edge.dimension c <> None <-> Edge.type c = Some "TOP").
Proof.
  repeat split; intros [H _]; simpl in H.
  assert (E : Some "TS" = Some "TOP") by (apply H; discriminate).
  discriminate E.
Qed.

(** C4, as amended. In the CDN registry a descriptor has a [dimension]
    exactly when it is flagged [isDistribution].  In the edge registry,
    after the default fill, every descriptor has a [dimension]: it is
    ["ALL"] exactly for the time series ([type] ["TS"]) and a grouping
    attribute other than ["ALL"] exactly for the Top-N descriptors
    ([type] ["TOP"]). *)
Theorem registry_dimension (key : string) :
  match own Cdn.METRIC_MAP key with
  | Some c => Cdn.dimension c <> None <-> Cdn.is_distribution c = true
  | None => True
  end
  /\ match own Edge.METRIC_CONFIG key with
     | Some c =>
         exists d, Edge.dimension c = Some d
                   /\ (d = "ALL" <-> Edge.type c = Some "TS")
                   /\ (d <> "ALL" <-> Edge.type c = Some "TOP")
     | None => True
     end.
Proof.
  split.
  - apply (own_Forall
             (fun c => Cdn.dimension c <> None
                       <-> Cdn.is_distribution c = true)).
    repeat constructor; simpl; intros H; try discriminate; congruence.
  - apply (own_Forall
             (fun c => exists d, Edge.dimension c = Some d
                                 /\ (d = "ALL" <-> Edge.type c = Some "TS")
                                 /\ (d <> "ALL"
                                     <-> Edge.type c = Some "TOP"))).
    unfold Edge.METRIC_CONFIG, Edge.METRIC_CONFIG_literal.
    repeat (constructor;
            [cbn; eexists; split; [reflexivity|];
             split; split; intros H; try reflexivity; try discriminate;
             try congruence|]).
    constructor.
Qed.

(** *** Credentials and unknown metrics *)

(** A credential is missing when one of them is undefined or empty. *)
Lemma credentials_missing_iff (cks : Cdn.keys) (eks : Edge.keys) :
  (Cdn.credentials_missing cks = true
   <-> truthy (Cdn.secretId cks) = false
       \/ truthy (Cdn.secretKey cks) = false
       \/ truthy (Cdn.accountTag cks) = false
       \/ truthy (Cdn.zonetag cks) = false)
  /\ (Edge.credentials_missing eks = true
      <-> truthy (Edge.secretId eks) = false
          \/ truthy (Edge.secretKey eks) = false).
Proof.
  unfold Cdn.credentials_missing, Edge.credentials_missing.
  rewrite !orb_true_iff, !negb_true_iff. tauto.
Qed.

(** C10. The credentials are checked first.  When one of the four CDN
    credentials, or one of the two edge credentials, is absent (undefined
    or empty), the handler answers [401] (CDN) or [500] (edge) with
    [{ error: "Missing credentials" }] and makes no upstream call,
    whatever the query, the metric included. *)
Theorem missing_credentials
  (fallback : string -> option Z) (now : Z) (nonce : string)
  (cks : Cdn.keys) (cq : Cdn.query) (cu : Cdn.upstream)
  (eks : Edge.keys) (eq : Edge.query) (eu : string -> Edge.api_reply) :
  Cdn.credentials_missing cks = true ->
  Edge.credentials_missing eks = true ->
  Cdn.run cu (Cdn.traffic fallback now cks cq)
  = ((401, Cdn.Error_body "Missing credentials"), [])
  /\ Edge.run eu (Edge.traffic fallback now nonce eks eq)
     = ((500, Edge.Error_body "Missing credentials"), []).
Proof.
  intros Hc He. unfold Cdn.traffic, Edge.traffic. rewrite Hc, He.
  split; reflexivity.
Qed.

(** A request for an ad-hoc Top-N metric with no zone tag, and a request
    to the edge adapter with an empty secret. *)
Lemma missing_credentials_witness :
  Cdn.run (Cdn.mkUpstream (Cdn.ZonesRejected TypeError)
             (fun _ => Rejected TypeError) (fun _ _ => Rejected TypeError)
             (fun _ _ => Rejected TypeError))
    (Cdn.traffic (fun _ => None) 1704067200000
       (Cdn.mkKeys (Some "id") (Some "key") (Some "tag") None)
       (Cdn.mkQuery (Some "l7Flow_request_sip") None None))
  = ((401, Cdn.Error_body "Missing credentials"), [])
  /\ Edge.run (fun _ => Edge.ApiRejected TypeError)
       (Edge.traffic (fun _ => None) 1704067200000 "n1"
          (Edge.mkKeys (Some "id") (Some ""))
          (Edge.mkQuery (Some "l7Flow_flux") None None None None None))
     = ((500, Edge.Error_body "Missing credentials"), []).
Proof.
  apply missing_credentials; reflexivity.
Defined.

(** The edge adapter's answer to an unknown metric is worded
    differently. *)
Lemma edge_invalid_metric_message :
  Edge.run (fun _ => Edge.ApiRejected TypeError)
    (Edge.traffic (fun _ => None) 1704067200000 "n1"
       (Edge.mkKeys (Some "id") (Some "secret"))
       (Edge.mkQuery (Some "unknown_key") None None None None None))
  = ((400, Edge.Error_body "Invalid metric parameter"), [])
  /\ Edge.Error_body "Invalid metric parameter"
     <> Edge.Error_body "Invalid metric".
Proof. split; [reflexivity|discriminate]. Qed.

(** A metric named after a member of [Object.prototype] is found by the
    lookups and reaches upstream. *)
Example cdn_metric_constructor :
  exists a query k,
    Cdn.traffic (fun _ => None) 1704067200000
      (Cdn.mkKeys (Some "id") (Some "key") (Some "tag") (Some "zone"))
      (Cdn.mkQuery (Some "constructor") None None)
    = Cdn.PostTopN a query k.
Proof. do 3 eexists. vm_compute. reflexivity. Qed.

Lemma get_undefined {V : Type} (o : list (string * V)) (key : string) :
  own o key = None -> inherited key = false -> get o key = Undefined.
Proof. intros H1 H2. unfold get. now rewrite H1, H2. Qed.

(** C8, as amended. With complete credentials, a request whose metric
    key is neither a key of the adapter's tables (for the CDN adapter
    [METRIC_MAP] and [ZONE_TOPN_CONFIG], for the edge adapter
    [METRIC_CONFIG]) nor the name of a member of [Object.prototype] is
    answered [400] without any upstream call; the body is
    [{ error: "Invalid metric" }] from the CDN adapter and
    [{ error: "Invalid metric parameter" }] from the edge adapter. *)
Theorem invalid_metric
  (fallback : string -> option Z) (now : Z) (nonce : string)
  (cks : Cdn.keys) (cq : Cdn.query) (cu : Cdn.upstream)
  (eks : Edge.keys) (eq : Edge.query) (eu : string -> Edge.api_reply) :
  Cdn.credentials_missing cks = false ->
  own Cdn.ZONE_TOPN_CONFIG (property_key (Cdn.metric cq)) = None ->
  own Cdn.METRIC_MAP (property_key (Cdn.metric cq)) = None ->
  inherited (property_key (Cdn.metric cq)) = false ->
  Edge.credentials_missing eks = false ->
  own Edge.METRIC_CONFIG (property_key (Edge.metric eq)) = None ->
  inherited (property_key (Edge.metric eq)) = false ->
  Cdn.run cu (Cdn.traffic fallback now cks cq)
  = ((400, Cdn.Error_body "Invalid metric"), [])
  /\ Edge.run eu (Edge.traffic fallback now nonce eks eq)
     = ((400, Edge.Error_body "Invalid metric parameter"), []).
Proof.
  intros Hc Ht Hm Hi He Hem Hei.
  unfold Cdn.traffic, Edge.traffic. rewrite Hc, He.
  unfold Cdn.topn_field, Cdn.metric_config, Edge.metric_config.
  rewrite (get_undefined _ _ Ht Hi), (get_undefined _ _ Hm Hi),
          (get_undefined _ _ Hem Hei).
  split; reflexivity.
Qed.

Lemma invalid_metric_witness :
  Cdn.run (Cdn.mkUpstream (Cdn.ZonesRejected TypeError)
             (fun _ => Rejected TypeError) (fun _ _ => Rejected TypeError)
             (fun _ _ => Rejected TypeError))
    (Cdn.traffic (fun _ => None) 1704067200000
       (Cdn.mkKeys (Some "id") (Some "key") (Some "tag") (Some "zone"))
       (Cdn.mkQuery (Some "unknown_key") None None))
  = ((400, Cdn.Error_body "Invalid metric"), [])
  /\ Edge.run (fun _ => Edge.ApiRejected TypeError)
       (Edge.traffic (fun _ => None) 1704067200000 "n1"
          (Edge.mkKeys (Some "id") (Some "secret"))
          (Edge.mkQuery None None None None None None))
     = ((400, Edge.Error_body "Invalid metric parameter"), []).
Proof.
  apply invalid_metric; reflexivity.
Defined.

(** A request for [l7Flow_request] without time bounds makes one
    upstream call and answers with a [TypeValue] named after the
    metric. *)
Example account_series_end_to_end :
  let rows := [ Cdn.mkRow "2024-01-01T00:00:00Z" 3;
                Cdn.mkRow "2024-01-01T01:00:00Z" 5 ] in
  let apiData :=
    Cdn.mkAccountPayload None (Some [Cdn.mkAccount (Some rows)]) in
  exists query,
    Cdn.run (Cdn.mkUpstream (Cdn.ZonesRejected TypeError)
               (fun _ => Rejected TypeError) (fun _ _ => Rejected TypeError)
               (fun _ _ => Fulfilled apiData))
      (Cdn.traffic (fun _ => None) 1704456000000
         (Cdn.mkKeys (Some "id") (Some "key") (Some "tag") (Some "zone"))
         (Cdn.mkQuery (Some "l7Flow_request") None None))
    = ((200,
        Cdn.Data
          [Cdn.TypeValue
             [Cdn.mkTypeValue
                [ Cdn.Point.mk (Some 1704067200) (Finite 3);
                  Cdn.Point.mk (Some 1704070800) (Finite 5) ]
                (Some "l7Flow_request") (Finite 8)]]),
       [Cdn.GraphQL query]).
Proof. eexists. vm_compute. reflexivity. Qed.

(** *** Upstream errors and empty replies *)

(** C9. The ad-hoc Top-N path reads [apiData.data.viewer.zones[0]]
    unguarded: a reply without [errors] and with zero zones raises a
    [TypeError], and the request is answered [500], where the zone-scope
    and account-scope paths answer [200]. *)
Theorem adhoc_zero_zones_fails :
  let apiData := Cdn.mkTopnPayload None (Some []) in
  Cdn.run (Cdn.mkUpstream (Cdn.ZonesRejected TypeError)
             (fun _ => Fulfilled apiData) (fun _ _ => Rejected TypeError)
             (fun _ _ => Rejected TypeError))
    (Cdn.traffic (fun _ => None) 1704067200000
       (Cdn.mkKeys (Some "id") (Some "key") (Some "tag") (Some "zone"))
       (Cdn.mkQuery (Some "l7Flow_request_sip") None None))
  = ((500, Cdn.Exception_body TypeError),
     [Cdn.GraphQL
        (Cdn.topn_query "zone" "2023-12-31T00:00:00.000Z"
                        "2024-01-01T00:00:00.000Z" "clientIP")]).
Proof. vm_compute. reflexivity. Qed.

Section Replies.
Import Cdn CdnSpec.
Variable fallback : string -> option Z.

Lemma traffic_cases (now : Z) (ks : keys) (q : query) :
  traffic fallback now ks q = Respond 401 (Error_body "Missing credentials")
  \/ traffic fallback now ks q = Respond 400 (Error_body "Invalid metric")
  \/ traffic fallback now ks q = caught RangeError
  \/ (exists a z f t, traffic fallback now ks q = topn_branch a z f t)
  \/ (exists a c t, traffic fallback now ks q = zone_branch a c t)
  \/ (exists a tag c t,
         traffic fallback now ks q
         = account_branch fallback a tag (metric q) c t).
Proof.
  unfold traffic.
  destruct (credentials_missing ks); [now left|].
  destruct (topn_field _) as [f|].
  - destruct (getTimeConfig _ _ _ _) as [t|]; [|now (right; right; left)].
    right; right; right; left. now do 4 eexists.
  - destruct (metric_config _) as [c|]; [|now (right; left)].
    destruct (getTimeConfig _ _ _ _) as [t|]; [|now (right; right; left)].
    destruct (match scope c with Some sc => _ | None => _ end).
    + right; right; right; right; left. now do 3 eexists.
    + right; right; right; right; right. now do 4 eexists.
Qed.

(** Whatever the request, a GraphQL reply that carries [errors] is sent
    back as it came with status [400]. *)
Lemma topn_errors_400 now ks q a query k apiData es :
  traffic fallback now ks q = PostTopN a query k ->
  topn_errors apiData = Some es ->
  k (Fulfilled apiData) = Respond 400 (Raw_topn apiData).
Proof.
  intros Ht He.
  destruct (traffic_cases now ks q)
    as [H|[H|[H|[(a0 & z & f & t & H)|[(a0 & c & t & H)|(a0 & g & c & t & H)]]]]];
    rewrite H in Ht; try discriminate Ht.
  - unfold topn_branch in Ht. injection Ht as _ _ <-. now rewrite He.
  - unfold account_branch in Ht.
    destruct (account_request _ _ _) as [[? ?] ?]. discriminate Ht.
Qed.

Lemma account_errors_400 now ks q a query vars k apiData es :
  traffic fallback now ks q = PostAccount a query vars k ->
  account_errors apiData = Some es ->
  k (Fulfilled apiData) = Respond 400 (Raw_account apiData).
Proof.
  intros Ht He.
  destruct (traffic_cases now ks q)
    as [H|[H|[H|[(a0 & z & f & t & H)|[(a0 & c & t & H)|(a0 & g & c & t & H)]]]]];
    rewrite H in Ht; try discriminate Ht.
  unfold account_branch in Ht.
  destruct (account_request _ _ _) as [[? ?] ?].
  injection Ht as _ _ _ <-. now rewrite He.
Qed.

Lemma zone_errors_400 now ks q a k1 listing a' query vars k2 apiData es :
  traffic fallback now ks q = FetchZones a k1 ->
  k1 listing = PostZone a' query vars k2 ->
  zone_errors apiData = Some es ->
  k2 (Fulfilled apiData) = Respond 400 (Raw_zone apiData).
Proof.
  intros Ht Hk He.
  destruct (traffic_cases now ks q)
    as [H|[H|[H|[(a0 & z & f & t & H)|[(a0 & c & t & H)|(a0 & g & c & t & H)]]]]];
    rewrite H in Ht; try discriminate Ht.
  - unfold zone_branch in Ht. injection Ht as _ <-.
    destruct listing as [e|ok st result]; [discriminate Hk|].
    destruct ok; [|discriminate Hk]. cbn [negb] in Hk.
    destruct (zone_ids (opt_list result)); [discriminate Hk|].
    injection Hk as _ _ _ <-. now rewrite He.
  - unfold account_branch in Ht.
    destruct (account_request _ _ _) as [[? ?] ?]. discriminate Ht.
Qed.

(** A reply without [errors] and with zero accounts, and a zone listing
    with zero zones, give [{ Data: [] }]; a zone-scope GraphQL reply
    with zero zones gives an empty [DetailData]. *)
Lemma zero_accounts_empty now ks q a query vars k apiData :
  traffic fallback now ks q = PostAccount a query vars k ->
  account_errors apiData = None ->
  opt_list (accounts apiData) = [] ->
  k (Fulfilled apiData) = Respond 200 (Data []).
Proof.
  intros Ht He Hz.
  destruct (traffic_cases now ks q)
    as [H|[H|[H|[(a0 & z & f & t & H)|[(a0 & c & t & H)|(a0 & g & c & t & H)]]]]];
    rewrite H in Ht; try discriminate Ht.
  unfold account_branch in Ht.
  destruct (account_request _ _ _) as [[? ?] ?].
  injection Ht as _ _ _ <-. rewrite He.
  destruct (accounts apiData) as [[|? ?]|]; try reflexivity.
  discriminate Hz.
Qed.

Lemma zero_zones_listed_empty now ks q a k1 statusText result :
  traffic fallback now ks q = FetchZones a k1 ->
  opt_list result = [] ->
  k1 (ZonesResponse true statusText result) = Respond 200 (Data []).
Proof.
  intros Ht Hz.
  destruct (traffic_cases now ks q)
    as [H|[H|[H|[(a0 & z & f & t & H)|[(a0 & c & t & H)|(a0 & g & c & t & H)]]]]];
    rewrite H in Ht; try discriminate Ht.
  - unfold zone_branch in Ht. injection Ht as _ <-.
    cbn [negb]. now rewrite Hz.
  - unfold account_branch in Ht.
    destruct (account_request _ _ _) as [[? ?] ?]. discriminate Ht.
Qed.

Lemma zero_zones_queried_empty now ks q a k1 listing a' query vars k2 apiData :
  traffic fallback now ks q = FetchZones a k1 ->
  k1 listing = PostZone a' query vars k2 ->
  zone_errors apiData = None ->
  opt_list (zone_zones apiData) = [] ->
  k2 (Fulfilled apiData) = Respond 200 (Data [DetailData []]).
Proof.
  intros Ht Hk He Hz.
  destruct (traffic_cases now ks q)
    as [H|[H|[H|[(a0 & z & f & t & H)|[(a0 & c & t & H)|(a0 & g & c & t & H)]]]]];
    rewrite H in Ht; try discriminate Ht.
  - unfold zone_branch in Ht. injection Ht as _ <-.
    destruct listing as [e|ok st result]; [discriminate Hk|].
    destruct ok; [|discriminate Hk]. cbn [negb] in Hk.
    destruct (zone_ids (opt_list result)); [discriminate Hk|].
    injection Hk as _ _ _ <-. now rewrite He, Hz.
  - unfold account_branch in Ht.
    destruct (account_request _ _ _) as [[? ?] ?]. discriminate Ht.
Qed.

End Replies.

(** *** The time window *)

Section TimeWindow.
Import Cdn CdnSpec.
Variable fallback : string -> option Z.

Lemma resolve_bound (req : option string) (default : Z) :
  in_four_digit_years default ->
  exists s, (if truthy req then req else toISOString default) = Some s
            /\ resolved req default s
            /\ (truthy req = false -> parse_iso s = Some default).
Proof.
  intros Hd. unfold resolved. destruct (truthy req) eqn:E.
  - destruct req as [s|]; [|discriminate E]. exists s. repeat split.
    discriminate.
  - destruct (toISOString_parse default Hd) as (s & Hs & Hp & _).
    exists s. repeat split; auto.
Qed.

Lemma long_term_spec (now : Z) (fromTime : option Z) :
  long_term now fromTime = true
  <-> exists f, fromTime = Some f /\ now - f > 3 * 24 * 60 * 60 * 1000.
Proof.
  unfold long_term. destruct fromTime as [f|].
  - rewrite Z.ltb_lt. split.
    + intros H. exists f. split; [reflexivity|lia].
    + intros (f' & E & H). inversion E. lia.
  - split; [discriminate|]. intros (f & E & _). discriminate E.
Qed.

Lemma getTimeConfig_dataset (now : Z) (reqStartTime reqEndTime : option string) :
  86400000 <= now <= 253402300799999 ->
  exists t,
    getTimeConfig fallback now reqStartTime reqEndTime = Some t
    /\ (if isLongTerm t then day_dataset t else hour_dataset t).
Proof.
  intros Hnow. unfold getTimeConfig.
  destruct (resolve_bound reqStartTime (now - 24 * 60 * 60 * 1000))
    as (s & Es & _); [unfold in_four_digit_years; lia|].
  destruct (resolve_bound reqEndTime now)
    as (e & Ee & _); [unfold in_four_digit_years; lia|].
  rewrite Es, Ee. cbv zeta.
  destruct (long_term now (Date_parse fallback s));
    eexists; (split; [reflexivity|]); cbn [isLongTerm];
    repeat split.
Qed.


End TimeWindow.



Example time_window_four_days :
  Cdn.getTimeConfig (fun _ => None) 1704456000000
    (Some "2024-01-01T12:00:00Z") None
  = Some (Cdn.mkTimeCfg "2024-01-01T12:00:00Z" "2024-01-05T12:00:00.000Z"
            "2024-01-01" "2024-01-05" "httpRequests1dGroups" "date_ASC"
            "date" true
            [("date_geq", "2024-01-01"); ("date_leq", "2024-01-05")]).
Proof. vm_compute. reflexivity. Qed.

Example time_window_one_hour :
  Cdn.getTimeConfig (fun _ => None) 1704456000000
    (Some "2024-01-05T11:00:00Z") None
  = Some (Cdn.mkTimeCfg "2024-01-05T11:00:00Z" "2024-01-05T12:00:00.000Z"
            "2024-01-05T11:00:00Z" "2024-01-05T12:00:00.000Z"
            "httpRequests1hGroups" "datetime_ASC" "datetime" false
            [("datetime_geq", "2024-01-05T11:00:00Z");
             ("datetime_leq", "2024-01-05T12:00:00.000Z")]).
Proof. vm_compute. reflexivity. Qed.

(** *** The zone-scope query *)

Lemma zone_metric_cases (m : string) (c : Cdn.config) :
  own Cdn.METRIC_MAP m = Some c -> Cdn.scope c = Some "zone" ->
  (m = "l7Flow_outFlux_domain"
   /\ c = Cdn.series "l7Flow_outFlux_domain" "bytes" "zone")
  \/ (m = "l7Flow_request_domain"
      /\ c = Cdn.series "l7Flow_request_domain" "requests" "zone").
Proof.
  unfold Cdn.METRIC_MAP. cbn [own]. intros H Hs.
  repeat match type of H with
         | (if (?k =? m)%string then _ else _) = _ =>
             destruct (String.eqb_spec k m) as [E|_];
             [assert (E' : Some c = _) by (symmetry; exact H);
              injection E' as ->; try discriminate Hs; auto|]
         end.
  discriminate H.
Qed.

Section ZoneQuery.
Import Cdn CdnSpec.
Variable fallback : string -> option Z.

(** C5. A zone-scope request (complete credentials, a metric of scope
    ["zone"]) lists the zones and, for a non-empty listing, posts the
    [getTrafficTrend] query: its filter clause is
    [{ <dimension>_geq: $from }] alone, its text names no [$to] and no
    [_leq], [_lt] or [_gt] bound, and the variables sent carry [to]
    (the upper bound) next to [from], whatever window is requested. *)
Theorem zone_query_lower_bound_only
  (now : Z) (ks : keys) (q : query) (m : string) (c : config) :
  86400000 <= now <= 253402300799999 ->
  credentials_missing ks = false ->
  metric q = Some m ->
  own METRIC_MAP m = Some c ->
  scope c = Some "zone" ->
  exists t a k1,
    getTimeConfig fallback now (startTime q) (endTime q) = Some t
    /\ traffic fallback now ks q = FetchZones a k1
    /\ (forall statusText item items,
           exists k2,
             k1 (ZonesResponse true statusText (Some (item :: items)))
             = PostZone a (zone_query t c)
                 (mkZoneVariables (zone_ids (item :: items))
                                  (queryFrom t) (queryTo t))
                 k2)
    /\ includes (zone_filter_clause (dimensionKey t)) (zone_query t c) = true
    /\ includes "$to" (zone_query t c) = false
    /\ includes "_leq" (zone_query t c) = false
    /\ includes "_lt" (zone_query t c) = false
    /\ includes "_gt" (zone_query t c) = false.
Proof.
  intros Hnow Hc Hm Hown Hscope.
  destruct (getTimeConfig_dataset fallback now (startTime q) (endTime q)
              Hnow) as (t & Ht & Hmode).
  exists t. unfold traffic. rewrite Hc, Hm. cbn [property_key interp].
  assert (Htop : topn_field m = None /\ metric_config m = Some c).
  { destruct (zone_metric_cases m c Hown Hscope) as [[-> ->]|[-> ->]];
      split; reflexivity. }
  destruct Htop as [-> ->]. rewrite Ht, Hscope. cbn [String.eqb Ascii.eqb].
  replace ("zone" =? "zone")%string with true by reflexivity.
  unfold zone_branch. do 2 eexists.
  split; [reflexivity|]. split; [reflexivity|].
  split.
  { intros statusText item items. cbn [negb opt_list zone_ids map].
    eexists. reflexivity. }
  unfold zone_query.
  assert (Hsum : interp (sumid c) = "bytes" \/ interp (sumid c) = "requests").
  { destruct (zone_metric_cases m c Hown Hscope) as [[_ ->]|[_ ->]];
      [left|right]; reflexivity. }
  destruct (isLongTerm t);
    destruct Hmode as (_ & _ & -> & -> & -> & _);
    destruct Hsum as [-> | ->]; vm_compute; repeat split.
Qed.

End ZoneQuery.

Lemma zone_query_lower_bound_only_witness :
  exists t a k1,
    Cdn.getTimeConfig (fun _ => None) 1704456000000
      (Some "2024-01-01T12:00:00Z") (Some "2024-01-02T12:00:00Z") = Some t
    /\ Cdn.traffic (fun _ => None) 1704456000000
         (Cdn.mkKeys (Some "id") (Some "key") (Some "tag") (Some "zone"))
         (Cdn.mkQuery (Some "l7Flow_request_domain")
                      (Some "2024-01-01T12:00:00Z")
                      (Some "2024-01-02T12:00:00Z"))
       = Cdn.FetchZones a k1
    /\ includes "$to" (Cdn.zone_query t
                         (Cdn.series "l7Flow_request_domain" "requests"
                                     "zone")) = false.
Proof.
  destruct (zone_query_lower_bound_only (fun _ => None) 1704456000000
              (Cdn.mkKeys (Some "id") (Some "key") (Some "tag") (Some "zone"))
              (Cdn.mkQuery (Some "l7Flow_request_domain")
                           (Some "2024-01-01T12:00:00Z")
                           (Some "2024-01-02T12:00:00Z"))
              "l7Flow_request_domain"
              (Cdn.series "l7Flow_request_domain" "requests" "zone")
              ltac:(lia) eq_refl eq_refl eq_refl eq_refl)
    as (t & a & k1 & Ht & Hk & _ & _ & Hto & _).
  exists t, a, k1. repeat split; assumption.
Defined.

(** The query of a four-day window, as sent. *)
Example zone_query_four_days :
  Cdn.zone_query_text "httpRequests1dGroups" "date" "date_ASC" "requests"
  = unlines
      [ "";
        "            query getTrafficTrend($zoneIds: [String!], $from: String!) {";
        "              viewer {";
        "                zones(filter: { zoneTag_in: $zoneIds }) {";
        "                  zoneTag";
        "                  httpRequests1dGroups(";
        "                    limit: 1000,";
        "                    filter: { ";
        "                        date_geq: $from";
        "                    },";
        "                    orderBy: [date_ASC]";
        "                  ) {";
        "                    dimensions { date }";
        "                    sum { requests }";
        "                  }";
        "                }";
        "              }";
        "            }";
        "            " ].
Proof. reflexivity. Qed.

(** *** The daily rollup of function metrics *)

Section FunctionMetrics.
Import Cdn CdnSpec CdnFacts NumberFacts.
Variable fallback : string -> option Z.

(** C3, as amended.  Account-scope time series whose rows carry time
    strings that parse to instants of the years 0000 to 9999 and values
    that, in absolute value, sum to less than [2^53].  The detail list
    is rolled up exactly when the metric is [function_requestCount] or
    [function_cpuCostTime] and the window is long-term: then there is
    one point per UTC day that has points, stamped with that day's
    00:00 UTC and valued the sum of the day's points, no day twice;
    otherwise the detail list is returned as merged.  Every value is an
    integer; the [Sum] sent is the sum of the points before the rollup,
    and the points after the rollup sum to the same. *)
Theorem function_metric_rollup
  (metricParam : option string) (t : timeCfg) (c : config) (a : auth)
  (tag : string) (rows : list row) :
  (forall r, In r rows ->
     exists instant,
       Date_parse fallback (dimension_value r) = Some instant
       /\ in_four_digit_years instant) ->
  exactly_summable rows ->
  is_distribution c = false ->
  exists detail finalDetail,
    detail_of fallback rows = Some detail
    /\ final_detail fallback metricParam t detail = Some finalDetail
    /\ (isFunctionMetric metricParam = true
        <-> metricParam = Some "function_requestCount"
            \/ metricParam = Some "function_cpuCostTime")
    /\ (if isFunctionMetric metricParam && isLongTerm t
        then (forall ts v,
                 In (Point.mk (Some ts) v) finalDetail
                 <-> exists day,
                       ts = 86400 * day
                       /\ points_on day detail <> []
                       /\ v = Finite (sum_points (points_on day detail)))
             /\ (forall p, In p finalDetail -> Point.Timestamp p <> None)
             /\ NoDup (map Point.Timestamp finalDetail)
        else finalDetail = detail)
    /\ (forall p, In p detail \/ In p finalDetail -> integral p)
    /\ sum_points finalDetail = sum_points detail
    /\ exists query variables k,
         account_branch fallback a tag metricParam c t
         = PostAccount a query variables k
         /\ forall others,
              k (Fulfilled (mkAccountPayload None
                              (Some (mkAccount (Some rows) :: others))))
              = Respond 200
                  (Data [TypeValue [mkTypeValue finalDetail (name c)
                                      (Finite (sum_points detail))]]).
Proof.
  intros Hrows Hsum Hdist.
  destruct (detail_of_dated fallback rows Hrows) as [Hp Hdated].
  set (dE := Exact.detail_of fallback rows) in *.
  destruct (rollup_spec fallback dE Hdated)
    as (outE & Hout & Hin & Hsome & Hnodup & Htotal).
  assert (Hw : Exact.points_weight dE < 2 ^ 53).
  { pose proof (points_weight_detail fallback rows).
    unfold exactly_summable in Hsum. fold dE in H. lia. }
  assert (Hd : detail_of fallback rows = Some (map Exact.number_point dE))
    by now apply detail_of_number.
  assert (Hfd : final_detail fallback metricParam t
                  (map Exact.number_point dE)
                = Some (map Exact.number_point
                          (if isFunctionMetric metricParam && isLongTerm t
                           then outE else dE))).
  { unfold final_detail.
    destruct (isFunctionMetric metricParam && isLongTerm t);
      [|reflexivity].
    rewrite rollup_number by exact Hw. now rewrite Hout. }
  exists (map Exact.number_point dE).
  exists (map Exact.number_point
            (if isFunctionMetric metricParam && isLongTerm t
             then outE else dE)).
  split; [exact Hd|]. split; [exact Hfd|]. split.
  { unfold isFunctionMetric. destruct metricParam as [m|].
    - rewrite orb_true_iff, !String.eqb_eq. split.
      + intros [-> | ->]; auto.
      + intros [H|H]; inversion H; auto.
    - split; [discriminate|]. intros [H|H]; discriminate H. }
  split.
  { destruct (isFunctionMetric metricParam && isLongTerm t);
      [|reflexivity].
    split; [|split].
    - intros ts v. rewrite In_number_point. split.
      + intros [z [-> Hz]]. apply Hin in Hz.
        destruct Hz as (day & -> & Hne & ->). exists day.
        split; [reflexivity|]. split; [now apply points_on_nil|].
        now rewrite points_on_number, sum_points_number.
      + intros (day & -> & Hne & ->).
        exists (Exact.sum_points (Exact.points_on day dE)). split.
        * now rewrite points_on_number, sum_points_number.
        * apply Hin. exists day. split; [reflexivity|].
          split; [now apply points_on_nil|reflexivity].
    - intros p. now apply number_point_some.
    - now rewrite number_point_timestamp. }
  split.
  { intros p [H|H]; exact (integral_number _ _ H). }
  assert (Hs : sum_points (map Exact.number_point dE) = Exact.total dE).
  { rewrite sum_points_number. symmetry. apply total_sum_points. }
  split.
  { destruct (isFunctionMetric metricParam && isLongTerm t);
      [|reflexivity].
    rewrite Hs, sum_points_number, <- Htotal. symmetry.
    apply total_sum_points. }
  unfold account_branch.
  destruct (account_request metricParam c t) as [[query dm] filterMode].
  do 3 eexists. split; [reflexivity|].
  intros others. cbn [account_errors accounts resultData opt_list].
  rewrite Hdist, Hd, Hfd, Hs. now rewrite total_number.
Qed.

End FunctionMetrics.

(** Hourly points [00:00 = 2] and [01:00 = 3] of one UTC day, and a
    point of the next day. *)
Example rollup_2_and_3 :
  Cdn.rollup (fun _ => None)
    [ Cdn.Point.mk (Some 1704067200) (Finite 2);
      Cdn.Point.mk (Some 1704070800) (Finite 3);
      Cdn.Point.mk (Some 1704153600) (Finite 7) ]
  = Some [ Cdn.Point.mk (Some 1704067200) (Finite 5);
           Cdn.Point.mk (Some 1704153600) (Finite 7) ].
Proof. vm_compute. reflexivity. Qed.

Lemma function_metric_rollup_witness :
  let rows := [ Cdn.mkRow "2024-01-01T00:00:00Z" 2;
                Cdn.mkRow "2024-01-01T01:00:00Z" 3 ] in
  let t := Cdn.mkTimeCfg "2023-12-01T00:00:00Z" "2024-01-05T00:00:00Z"
             "2023-12-01" "2024-01-05" "httpRequests1dGroups" "date_ASC"
             "date" true
             [("date_geq", "2023-12-01"); ("date_leq", "2024-01-05")] in
  exists detail finalDetail,
    Cdn.detail_of (fun _ => None) rows = Some detail
    /\ Cdn.final_detail (fun _ => None) (Some "function_requestCount") t
         detail = Some finalDetail
    /\ In (Cdn.Point.mk (Some 1704067200) (Finite 5)) finalDetail
    /\ CdnSpec.sum_points finalDetail = 5.
Proof.
  intros rows t.
  destruct (function_metric_rollup (fun _ => None)
              (Some "function_requestCount") t
              (Cdn.series "function_requestCount" "requests" "account")
              (Cdn.mkAuth "id" "key") "tag" rows)
    as (detail & fd & Hd & Hfd & _ & Hroll & _ & Htotal & _).
  - intros r [<-|[<-|[]]]; eexists; (split; [vm_compute; reflexivity|]);
      unfold in_four_digit_years; lia.
  - vm_compute. reflexivity.
  - reflexivity.
  - exists detail, fd. split; [exact Hd|]. split; [exact Hfd|].
    vm_compute in Hd. injection Hd as <-. split.
    + cbn [Cdn.isFunctionMetric Cdn.isLongTerm] in Hroll.
      replace (("function_requestCount" =? "function_requestCount")%string
               || ("function_requestCount" =? "function_cpuCostTime")%string)
        with true in Hroll by (vm_compute; reflexivity).
      cbn [andb] in Hroll. destruct Hroll as (Hin & _).
      apply Hin. exists 19723. vm_compute.
      split; [reflexivity|]. split; [discriminate|reflexivity].
    + rewrite Htotal. vm_compute. reflexivity.
Defined.

(** Hourly rows valued [2^53] on one UTC day and 1 and 1 on the next,
    for [function_requestCount] under a long-term window.  The [Sum]
    sent is [2^53], each addition of 1 to it rounding back; the two
    points sent, [2^53] and 2, sum to [2^53 + 2]. *)
Lemma rollup_changes_total :
  let rows := [ Cdn.mkRow "2024-01-01T00:00:00Z" 9007199254740992;
                Cdn.mkRow "2024-01-02T00:00:00Z" 1;
                Cdn.mkRow "2024-01-02T01:00:00Z" 1 ] in
  let apiData :=
    Cdn.mkAccountPayload None (Some [Cdn.mkAccount (Some rows)]) in
  let finalDetail :=
    [ Cdn.Point.mk (Some 1704067200) (Finite 9007199254740992);
      Cdn.Point.mk (Some 1704153600) (Finite 2) ] in
  fst (Cdn.run (Cdn.mkUpstream (Cdn.ZonesRejected TypeError)
                  (fun _ => Rejected TypeError)
                  (fun _ _ => Rejected TypeError)
                  (fun _ _ => Fulfilled apiData))
         (Cdn.traffic (fun _ => None) 1704456000000
            (Cdn.mkKeys (Some "id") (Some "key") (Some "tag") (Some "zone"))
            (Cdn.mkQuery (Some "function_requestCount")
                         (Some "2024-01-01T00:00:00Z") None)))
  = (200,
     Cdn.Data
       [Cdn.TypeValue
          [Cdn.mkTypeValue finalDetail (Some "function_requestCount")
                           (Finite 9007199254740992)]])
  /\ Cdn.total finalDetail = Finite 9007199254740994
  /\ CdnSpec.sum_points finalDetail = 9007199254740994.
Proof. cbv zeta. repeat split; vm_compute; reflexivity. Qed.

(** *** The request signer *)

Section Signer.
Import Edge EdgeSpec EdgeFacts.

(** C7, as amended. The signer is a function of the parameter map and
    the secret: the same request at the same clock reading with the same
    nonce gives the same parameters, signature and URL.  The signature
    is the base64 text of the HMAC-SHA1, keyed by the secret followed by
    ["&"], of the string to sign; changing the value of any parameter
    changes the string to sign (the canonicalization is injective for a
    given set of keys), so that two signatures of different parameter
    maps agree only on a collision of HMAC-SHA1.  The handler's
    parameter maps have the fifteen distinct keys of the literal. *)
Theorem signature_determinism :
  (forall now nonce id sk q c p p',
      make_params now nonce id q c = Some p ->
      make_params now nonce id q c = Some p' ->
      Signature sk p = Signature sk p' /\ apiUrl sk p = apiUrl sk p')
  /\ (forall sk p,
         Signature sk p
         = btoa (hmac_sha1 (bytes_of_string (sk ++ "&"))
                           (bytes_of_string (stringToSign p))))
  /\ (forall p1 p2,
         map fst p1 = map fst p2 -> NoDup (map fst p1) -> p1 <> p2 ->
         stringToSign p1 <> stringToSign p2)
  /\ (forall now nonce id q c p,
         make_params now nonce id q c = Some p ->
         map fst p = param_keys /\ NoDup (map fst p)).
Proof.
  split; [|split; [|split]].
  - intros now nonce id sk q c p p' H H'. rewrite H in H'.
    injection H' as <-. split; reflexivity.
  - reflexivity.
  - intros p1 p2 Hk Hn Hne H. apply Hne. now apply stringToSign_inj.
  - intros now nonce id q c p H.
    rewrite (make_params_keys _ _ _ _ _ _ H).
    split; [reflexivity|apply param_keys_NoDup].
Qed.

(** Site ["1"] against site ["2"]. *)
Lemma signature_determinism_witness :
  stringToSign (site_params "1") <> stringToSign (site_params "2").
Proof.
  apply (proj1 (proj2 (proj2 signature_determinism))).
  - reflexivity.
  - apply param_keys_NoDup.
  - discriminate.
Defined.

Example signature_known_answer :
  Signature "key" (site_params "123") = "1XH1zClUfsnl1z48u3ceZ/rP/a8=".
Proof. vm_compute. reflexivity. Qed.

End Signer.

End Properties.

(** ** Reading the credentials *)

Module KeysFacts.

Import JS KeyFile KeysSpec.

Lemma find_snoc {A : Type} (f : A -> bool) (l : list A) (x : A) :
  find f (rev (l ++ [x])) = if f x then Some x else find f (rev l).
Proof. now rewrite rev_app_distr. Qed.

Lemma find_value_snoc {A B : Type} (f : A -> bool) (g : A -> B) (d : B)
  (l : list A) (x : A) :
  match find f (rev (l ++ [x])) with
  | Some y => g y
  | None => d
  end
  = if f x then g x
    else match find f (rev l) with
         | Some y => g y
         | None => d
         end.
Proof. rewrite find_snoc. now destruct (f x). Qed.

Lemma includes_char (s : string) (c x : ascii) :
  includes (String x s) (String c "")
  = (c =? x)%char || includes s (String c "").
Proof.
  cbn [includes String.prefix].
  destruct (ascii_dec c x) as [->|Hne].
  - rewrite Ascii.eqb_refl. now destruct s.
  - destruct (Ascii.eqb_spec c x); [contradiction|reflexivity].
Qed.

(** A text without a line feed is one line; a line feed ends a line. *)
Lemma split_lines_plain (s : string) :
  includes s newline = false -> split_lines s = [s].
Proof.
  unfold newline. induction s as [|c s IH]; [reflexivity|].
  rewrite includes_char. intros H. apply orb_false_iff in H.
  destruct H as [Hc Hs]. cbn [split_lines].
  rewrite Ascii.eqb_sym, Hc, (IH Hs). reflexivity.
Qed.

Lemma split_lines_app (a rest : string) :
  includes a newline = false ->
  split_lines (a ++ newline ++ rest) = a :: split_lines rest.
Proof.
  unfold newline. induction a as [|c a IH]; [reflexivity|].
  rewrite includes_char. intros H. apply orb_false_iff in H.
  destruct H as [Hc Hs]. cbn [append split_lines].
  rewrite Ascii.eqb_sym, Hc. cbn [append] in IH. rewrite (IH Hs).
  reflexivity.
Qed.

Lemma prefix_fullwidth (a b c : ascii) (r : string) :
  String.prefix fullwidth_colon (String a (String b (String c r)))
  = (String a (String b (String c "")) =? fullwidth_colon)%string.
Proof.
  change fullwidth_colon
    with (String "239"%char (String "188"%char (String "154"%char ""))).
  cbn [String.prefix String.eqb].
  destruct (ascii_dec "239" a) as [<-|Ha];
    [|destruct (Ascii.eqb_spec a "239"); [congruence|reflexivity]].
  destruct (ascii_dec "188" b) as [<-|Hb];
    [|destruct (Ascii.eqb_spec b "188"); [congruence|reflexivity]].
  destruct (ascii_dec "154" c) as [<-|Hc];
    [|destruct (Ascii.eqb_spec c "154"); [congruence|reflexivity]].
  now destruct r.
Qed.

(** A text without a colon of either kind is one piece. *)
Lemma split_colon_plain (s : string) :
  includes s ":" = false -> includes s fullwidth_colon = false ->
  split_colon s = [s].
Proof.
  induction s as [|a s IH]; [reflexivity|].
  rewrite includes_char. intros H1 H2. apply orb_false_iff in H1.
  destruct H1 as [Ha H1]. cbn [includes] in H2.
  apply orb_false_iff in H2. destruct H2 as [Hp H2].
  cbn [split_colon]. rewrite Ascii.eqb_sym, Ha.
  rewrite (IH H1 H2).
  destruct s as [|b [|c r]]; try reflexivity.
  rewrite prefix_fullwidth in Hp. now rewrite Hp.
Qed.

(** A character that starts no colon goes to the first piece. *)
Lemma split_colon_push (a : ascii) (s : string) :
  (a =? ":")%char = false -> (a =? "239")%char = false ->
  split_colon (String a s) = push a (split_colon s).
Proof.
  intros H1 H2. cbn [split_colon]. rewrite H1.
  destruct s as [|b [|c r]]; try reflexivity.
  change fullwidth_colon
    with (String "239"%char (String "188"%char (String "154"%char ""))).
  cbn [String.eqb]. now rewrite H2.
Qed.

(** A marker in front of a colon and a value that holds none: two
    pieces. *)
Lemma split_colon_key (k v : string) :
  forallb (fun c => negb (c =? ":")%char && negb (c =? "239")%char)
          (list_ascii_of_string k) = true ->
  includes v ":" = false -> includes v fullwidth_colon = false ->
  split_colon (k ++ String ":" v) = [k; v].
Proof.
  intros Hk H1 H2. induction k as [|c k IH].
  - cbn [append split_colon Ascii.eqb Bool.eqb].
    now rewrite (split_colon_plain v H1 H2).
  - cbn [list_ascii_of_string forallb] in Hk.
    apply andb_true_iff in Hk. destruct Hk as [Hc Hk].
    apply andb_true_iff in Hc. destruct Hc as [Hc1 Hc2].
    apply negb_true_iff in Hc1, Hc2.
    cbn [append]. rewrite (split_colon_push c _ Hc1 Hc2), (IH Hk).
    reflexivity.
Qed.

Lemma plain_spec (markers : list string) (v : string) :
  plain markers v = true ->
  (v =? "")%string = false /\ includes v ":" = false
  /\ includes v fullwidth_colon = false /\ includes v newline = false
  /\ trim v = v
  /\ Forall (fun marker => includes v marker = false) markers.
Proof.
  unfold plain. intros H.
  repeat match type of H with
         | _ && _ = true =>
             apply andb_true_iff in H;
             let H' := fresh "H" in destruct H as [H H']
         end.
  repeat match goal with
         | H : negb _ = true |- _ => apply negb_true_iff in H
         end.
  repeat split; auto.
  - now apply String.eqb_eq.
  - apply Forall_forall. intros m Hm.
    match goal with
    | H : forallb _ _ = true |- _ =>
        rewrite forallb_forall in H; specialize (H m Hm)
    end.
    now apply negb_true_iff.
Qed.

Lemma cdn_complete (env : Cdn.keys) :
  truthy (Cdn.secretId env) && truthy (Cdn.secretKey env)
  && truthy (Cdn.accountTag env) && truthy (Cdn.zonetag env)
  = negb (Cdn.credentials_missing env).
Proof.
  unfold Cdn.credentials_missing.
  now destruct (truthy (Cdn.secretId env)), (truthy (Cdn.secretKey env)),
    (truthy (Cdn.accountTag env)), (truthy (Cdn.zonetag env)).
Qed.

Lemma edge_complete (env : Edge.keys) :
  truthy (Edge.secretId env) && truthy (Edge.secretKey env)
  = negb (Edge.credentials_missing env).
Proof.
  unfold Edge.credentials_missing.
  now destruct (truthy (Edge.secretId env)), (truthy (Edge.secretKey env)).
Qed.

(** One line of the CDN key file, credential by credential. *)
Lemma cdn_read_line (ks : Cdn.keys) (line : string) :
  CdnKeys.read_line ks line
  = Cdn.mkKeys
      (if cdn_sets "cfid" line then cdn_value line else Cdn.secretId ks)
      (if cdn_sets "cfkey" line then cdn_value line else Cdn.secretKey ks)
      (if cdn_sets "cfuserid" line then cdn_value line
       else Cdn.accountTag ks)
      (if cdn_sets "zonetag" line then cdn_value line else Cdn.zonetag ks).
Proof.
  unfold CdnKeys.read_line, cdn_sets, cdn_value.
  destruct (nth_error (split_colon line) 1) as [val|];
    [|rewrite !andb_false_r; now destruct ks].
  destruct (val =? "")%string; [rewrite !andb_false_r; now destruct ks|].
  rewrite !andb_true_r. reflexivity.
Qed.

End KeysFacts.

Module KeysProperties.

Import JS KeyFile KeysSpec KeysFacts.

(** X1. What [getKeys] of the CDN adapter returns.  When the
    environment holds the four credentials they are returned and the
    file is not read.  Otherwise, when the file is absent or cannot be
    read, the environment's values are returned as they are; and when
    it is read, each credential is the value of the last line that
    includes its marker ([cfid], [cfkey], [cfuserid], [zonetag])
    anywhere, among the lines whose second piece exists and is not
    empty: that piece, trimmed, so cut at a second colon.  A credential
    no such line names keeps the environment's value. *)
Theorem cdn_getKeys_reads (env : Cdn.keys) (file : key_file) :
  CdnKeys.getKeys env file
  = if Cdn.credentials_missing env then
      match file with
      | Content content =>
          Cdn.mkKeys
            (cdn_from_file "cfid" content (Cdn.secretId env))
            (cdn_from_file "cfkey" content (Cdn.secretKey env))
            (cdn_from_file "cfuserid" content (Cdn.accountTag env))
            (cdn_from_file "zonetag" content (Cdn.zonetag env))
      | Absent | Unreadable => env
      end
    else env.
Proof.
  unfold CdnKeys.getKeys, Cdn.credentials_missing.
  destruct (truthy (Cdn.secretId env)), (truthy (Cdn.secretKey env)),
    (truthy (Cdn.accountTag env)), (truthy (Cdn.zonetag env));
    cbn [andb orb negb]; try reflexivity;
    (destruct file as [| |content]; try reflexivity;
     unfold cdn_from_file;
     induction (split_lines content) as [|line lines IH] using rev_ind;
     [now destruct env|];
     rewrite fold_left_app, !find_value_snoc; cbn [fold_left];
     rewrite IH, cdn_read_line; reflexivity).
Qed.

(** X2. What [getKeys] of the edge adapter returns.  When the
    environment holds both credentials they are returned and the file
    is not read; when the file is absent or cannot be read, the
    environment's values are returned.  When it is read, each
    credential is decided by the last line that includes its marker
    ([accessKeyId], [accessKeySecret]): the trimmed second piece of
    that line, or [undefined] when the line has no colon, even if the
    environment or an earlier line had given a value. *)
Theorem edge_getKeys_reads (env : Edge.keys) (file : key_file) :
  EdgeKeys.getKeys env file
  = if Edge.credentials_missing env then
      match file with
      | Content content =>
          Edge.mkKeys
            (edge_from_file "accessKeyId" content (Edge.secretId env))
            (edge_from_file "accessKeySecret" content (Edge.secretKey env))
      | Absent | Unreadable => env
      end
    else env.
Proof.
  unfold EdgeKeys.getKeys, Edge.credentials_missing.
  destruct (truthy (Edge.secretId env)), (truthy (Edge.secretKey env));
    cbn [andb orb negb]; try reflexivity;
    (destruct file as [| |content]; try reflexivity;
     unfold edge_from_file;
     induction (split_lines content) as [|line lines IH] using rev_ind;
     [now destruct env|];
     rewrite fold_left_app, !find_value_snoc; cbn [fold_left];
     rewrite IH; reflexivity).
Qed.

(** X3. A key file written one credential a line, as [cfid:...],
    [cfkey:...], [cfuserid:...] and [zonetag:...] for the CDN adapter
    and as [accessKeyId:...] and [accessKeySecret:...] for the edge
    adapter, is read back exactly, whatever the environment held, when
    it lacked a credential and the values are plain: not empty, free of
    colons, line feeds and surrounding white space, and free of the
    markers themselves. *)
Theorem key_file_round_trip
  (cenv : Cdn.keys) (id key account zone : string)
  (eenv : Edge.keys) (access secret : string) :
  Cdn.credentials_missing cenv = true ->
  plain cdn_markers id = true -> plain cdn_markers key = true ->
  plain cdn_markers account = true -> plain cdn_markers zone = true ->
  Edge.credentials_missing eenv = true ->
  plain edge_markers access = true -> plain edge_markers secret = true ->
  CdnKeys.getKeys cenv (Content (cdn_key_file id key account zone))
  = Cdn.mkKeys (Some id) (Some key) (Some account) (Some zone)
  /\ EdgeKeys.getKeys eenv (Content (edge_key_file access secret))
     = Edge.mkKeys (Some access) (Some secret).
Proof.
  intros Hc Hid Hkey Hacc Hzone He Haccess Hsecret.
  apply plain_spec in Hid, Hkey, Hacc, Hzone, Haccess, Hsecret.
  destruct Hid as (N1 & C1 & F1 & L1 & T1 & M1).
  destruct Hkey as (N2 & C2 & F2 & L2 & T2 & M2).
  destruct Hacc as (N3 & C3 & F3 & L3 & T3 & M3).
  destruct Hzone as (N4 & C4 & F4 & L4 & T4 & M4).
  destruct Haccess as (N5 & C5 & F5 & L5 & T5 & M5).
  destruct Hsecret as (N6 & C6 & F6 & L6 & T6 & M6).
  unfold cdn_markers in *. unfold edge_markers in *.
  repeat match goal with
         | H : Forall _ (_ :: _) |- _ => inversion_clear H
         | H : Forall _ [] |- _ => clear H
         end.
  split.
  - unfold CdnKeys.getKeys. rewrite cdn_complete, Hc. cbn [negb].
    unfold cdn_key_file. cbn [append].
    cbn [split_lines Ascii.eqb Bool.eqb].
    rewrite (split_lines_app id _ L1). cbn [append].
    cbn [split_lines Ascii.eqb Bool.eqb].
    rewrite (split_lines_app key _ L2). cbn [append].
    cbn [split_lines Ascii.eqb Bool.eqb].
    rewrite (split_lines_app account _ L3). cbn [append].
    cbn [split_lines Ascii.eqb Bool.eqb].
    rewrite (split_lines_plain zone L4). cbn [push fold_left].
    rewrite !cdn_read_line. unfold cdn_sets, cdn_value.
    change (String "c" (String "f" (String "i" (String "d"
              (String ":" id)))))
      with ("cfid" ++ String ":" id).
    change (String "c" (String "f" (String "k" (String "e" (String "y"
              (String ":" key))))))
      with ("cfkey" ++ String ":" key).
    change (String "c" (String "f" (String "u" (String "s" (String "e"
              (String "r" (String "i" (String "d"
                (String ":" account)))))))))
      with ("cfuserid" ++ String ":" account).
    change (String "z" (String "o" (String "n" (String "e" (String "t"
              (String "a" (String "g" (String ":" zone))))))))
      with ("zonetag" ++ String ":" zone).
    rewrite !split_colon_key by (auto; reflexivity).
    cbn [nth_error]. rewrite N1, N2, N3, N4, T1, T2, T3, T4.
    cbn [append includes String.prefix].
    repeat match goal with
           | |- context [ascii_dec ?a ?b] =>
               let d := eval vm_compute in (ascii_dec a b) in
               change (ascii_dec a b) with d; cbv iota
           end.
    cbn [orb andb].
    repeat match goal with
           | H : includes _ _ = false |- _ => rewrite H
           end.
    cbn [orb andb]. reflexivity.
  - unfold EdgeKeys.getKeys. rewrite edge_complete, He. cbn [negb].
    unfold edge_key_file. cbn [append].
    cbn [split_lines Ascii.eqb Bool.eqb].
    rewrite (split_lines_app access _ L5). cbn [append].
    cbn [split_lines Ascii.eqb Bool.eqb].
    rewrite (split_lines_plain secret L6). cbn [push fold_left].
    unfold EdgeKeys.read_line.
    change (String "a" (String "c" (String "c" (String "e" (String "s"
              (String "s" (String "K" (String "e" (String "y" (String "I"
                (String "d" (String ":" access))))))))))))
      with ("accessKeyId" ++ String ":" access).
    change (String "a" (String "c" (String "c" (String "e" (String "s"
              (String "s" (String "K" (String "e" (String "y" (String "S"
                (String "e" (String "c" (String "r" (String "e"
                  (String "t" (String ":" secret))))))))))))))))
      with ("accessKeySecret" ++ String ":" secret).
    rewrite !split_colon_key by (auto; reflexivity).
    cbn [nth_error option_map]. rewrite T5, T6.
    cbn [append includes String.prefix].
    repeat match goal with
           | |- context [ascii_dec ?a ?b] =>
               let d := eval vm_compute in (ascii_dec a b) in
               change (ascii_dec a b) with d; cbv iota
           end.
    cbn [orb andb].
    repeat match goal with
           | H : includes _ _ = false |- _ => rewrite H
           end.
    cbn [orb andb Edge.secretId Edge.secretKey]. reflexivity.
Qed.

(** Two small key files, nothing being set in the environment. *)
Lemma key_file_round_trip_witness :
  CdnKeys.getKeys (Cdn.mkKeys None None None None)
    (Content (cdn_key_file "me@example.com" "0123abcd" "acct-1" "zone-1"))
  = Cdn.mkKeys (Some "me@example.com") (Some "0123abcd") (Some "acct-1")
               (Some "zone-1")
  /\ EdgeKeys.getKeys (Edge.mkKeys None None)
       (Content (edge_key_file "LTAI5t" "s3cr3t"))
     = Edge.mkKeys (Some "LTAI5t") (Some "s3cr3t").
Proof.
  apply key_file_round_trip; vm_compute; reflexivity.
Defined.

End KeysProperties.

(** ** Runs of the CDN route *)

Module CdnRouteFacts.

Import JS JSSpec JSFacts Cdn CdnSpec CdnFacts RouteSpec.

(** A key of [METRIC_MAP] is no key of [ZONE_TOPN_CONFIG]. *)
Lemma metric_map_cases (m : string) (c : config) :
  own METRIC_MAP m = Some c ->
  topn_field m = None /\ metric_config m = Some c.
Proof.
  unfold METRIC_MAP. cbn [own]. intros H.
  repeat match type of H with
         | (if (?k =? m)%string then _ else _) = _ =>
             destruct (String.eqb_spec k m) as [E|_];
             [assert (E' : Some c = _) by (symmetry; exact H);
              injection E' as ->; subst m; split; reflexivity|]
         end.
  discriminate H.
Qed.

(** A key of [ZONE_TOPN_CONFIG] names a field. *)
Lemma topn_cases (m f : string) :
  own ZONE_TOPN_CONFIG m = Some f -> topn_field m = Some f.
Proof.
  unfold ZONE_TOPN_CONFIG. cbn [own]. intros H.
  repeat match type of H with
         | (if (?k =? m)%string then _ else _) = _ =>
             destruct (String.eqb_spec k m) as [E|_];
             [assert (E' : Some f = _) by (symmetry; exact H);
              injection E' as ->; subst m; reflexivity|]
         end.
  discriminate H.
Qed.

(** *** A text within a text *)

Lemma prefix_nil (s : string) : String.prefix "" s = true.
Proof. now destruct s. Qed.

Lemma prefix_char (a : ascii) (p s : string) :
  String.prefix p s = true -> String.prefix (String a p) (String a s) = true.
Proof.
  intros H. cbn [String.prefix].
  destruct (ascii_dec a a); [exact H|contradiction].
Qed.

Lemma prefix_var (z p s : string) :
  String.prefix p s = true -> String.prefix (z ++ p) (z ++ s) = true.
Proof.
  intros H. induction z as [|a z IH]; [exact H|].
  cbn [append]. now apply prefix_char.
Qed.

Lemma prefix_app_right (p s s' : string) :
  String.prefix p s = true -> String.prefix p (s ++ s') = true.
Proof.
  revert s. induction p as [|a p IH]; intros s H; [apply prefix_nil|].
  destruct s as [|b s]; [discriminate H|].
  cbn [append String.prefix] in *.
  destruct (ascii_dec a b); [now apply IH|discriminate H].
Qed.

Lemma includes_prefix (p s : string) :
  String.prefix p s = true -> includes p s = true.
Proof. intros H. destruct s; cbn [includes]; now rewrite H. Qed.

Lemma includes_cons (p : string) (a : ascii) (s : string) :
  includes p s = true -> includes p (String a s) = true.
Proof. intros H. cbn [includes]. rewrite H. apply orb_true_r. Qed.

Lemma includes_app_left (p pre s : string) :
  includes p s = true -> includes p (pre ++ s) = true.
Proof.
  intros H. induction pre as [|a pre IH]; [exact H|].
  cbn [append]. now apply includes_cons.
Qed.

Lemma includes_app_right (p s s' : string) :
  includes p s = true -> includes p (s ++ s') = true.
Proof.
  induction s as [|a s IH]; intros H; cbn [includes] in H; cbn [append].
  - rewrite orb_false_r in H. destruct p; [|discriminate H].
    apply includes_prefix, prefix_nil.
  - apply orb_true_iff in H. destruct H as [H|H].
    + apply includes_prefix.
      exact (prefix_app_right p (String a s) s' H).
    + apply includes_cons. now apply IH.
Qed.

Lemma concat_app (sep : string) (l1 l2 : list string) :
  l1 <> [] -> l2 <> [] ->
  String.concat sep (l1 ++ l2)
  = String.concat sep l1 ++ sep ++ String.concat sep l2.
Proof.
  intros H1 H2. induction l1 as [|x l1 IH]; [contradiction|].
  destruct l1 as [|y l1].
  - destruct l2; [contradiction|reflexivity].
  - change (String.concat sep ((x :: y :: l1) ++ l2))
      with (x ++ sep ++ String.concat sep ((y :: l1) ++ l2)).
    rewrite IH by discriminate.
    change (String.concat sep (x :: y :: l1))
      with (x ++ sep ++ String.concat sep (y :: l1)).
    now rewrite !EdgeFacts.append_assoc.
Qed.

Lemma includes_nowhere (p : string) :
  includes p "" = true -> forall s, includes p s = true.
Proof.
  cbn [includes]. rewrite orb_false_r. intros H s.
  destruct p; [|discriminate H]. apply includes_prefix, prefix_nil.
Qed.

Lemma includes_concat_right (p sep : string) (mid l2 : list string) :
  includes p (String.concat sep mid) = true ->
  includes p (String.concat sep (mid ++ l2)) = true.
Proof.
  intros H. destruct mid as [|m0 mid]; [now apply includes_nowhere|].
  destruct l2 as [|y l2]; [now rewrite app_nil_r|].
  rewrite concat_app by discriminate. now apply includes_app_right.
Qed.

Lemma includes_concat_left (p sep : string) (l1 l : list string) :
  includes p (String.concat sep l) = true ->
  includes p (String.concat sep (l1 ++ l)) = true.
Proof.
  intros H. destruct l1 as [|x l1]; [exact H|].
  destruct l as [|y l]; [now apply includes_nowhere|].
  rewrite concat_app by discriminate.
  now apply includes_app_left, includes_app_left.
Qed.

(** A text found in some consecutive lines is found in the whole. *)
Lemma includes_lines (p sep : string) (l : list string) (i k : nat) :
  includes p (String.concat sep (firstn k (skipn i l))) = true ->
  includes p (String.concat sep l) = true.
Proof.
  intros H.
  rewrite <- (firstn_skipn i l), <- (firstn_skipn k (skipn i l)).
  now apply includes_concat_left, includes_concat_right.
Qed.

Ltac normal_text :=
  unfold newline, quote;
  repeat (rewrite ?EdgeFacts.append_assoc; progress cbn [append]).

Ltac match_text :=
  repeat first [apply prefix_nil | apply prefix_char | apply prefix_var].

Ltac find_text :=
  normal_text;
  repeat first [ solve [apply includes_prefix; match_text]
               | apply includes_cons ].

Ltac find_in_lines i k :=
  apply (includes_lines _ newline _ i k);
  cbn [firstn skipn String.concat]; find_text.

Section Runs.
Variable fallback : string -> option Z.

Lemma getTimeConfig_some (now : Z) (reqStartTime reqEndTime : option string) :
  86400000 <= now <= 253402300799999 ->
  exists t, getTimeConfig fallback now reqStartTime reqEndTime = Some t.
Proof.
  intros H. unfold getTimeConfig.
  assert (Hs : exists s, (if truthy reqStartTime then reqStartTime
                          else toISOString (now - 24 * 60 * 60 * 1000))
                         = Some s).
  { destruct (truthy reqStartTime) eqn:E.
    - destruct reqStartTime as [s|]; [now exists s|discriminate E].
    - rewrite toISOString_some by (unfold maxTime; lia). now eexists. }
  assert (He : exists s, (if truthy reqEndTime then reqEndTime
                          else toISOString now) = Some s).
  { destruct (truthy reqEndTime) eqn:E.
    - destruct reqEndTime as [s|]; [now exists s|discriminate E].
    - rewrite toISOString_some by (unfold maxTime; lia). now eexists. }
  destruct Hs as [s ->]. destruct He as [e ->]. cbv zeta.
  destruct (long_term _ _); now eexists.
Qed.

Lemma getTimeConfig_bounds (now : Z) (reqStartTime reqEndTime : option string)
  (t : timeCfg) :
  getTimeConfig fallback now reqStartTime reqEndTime = Some t ->
  queryFrom t = (if isLongTerm t then slice0 10 (start t) else start t)
  /\ queryTo t = (if isLongTerm t then slice0 10 (end_ t) else end_ t)
  /\ map fst (filterObj t)
     = (if isLongTerm t then ["date_geq"; "date_leq"]
        else ["datetime_geq"; "datetime_leq"]).
Proof.
  unfold getTimeConfig. intros Ht.
  destruct (if truthy reqStartTime then _ else _); [|discriminate Ht].
  destruct (if truthy reqEndTime then _ else _); [|discriminate Ht].
  cbv zeta in Ht.
  destruct (long_term _ _); injection Ht as <-; repeat split.
Qed.

(** The shapes of the route, with the credentials it sends. *)
Lemma traffic_shapes (now : Z) (ks : keys) (q : query) :
  let a := mkAuth (interp (secretId ks)) (interp (secretKey ks)) in
  traffic fallback now ks q = Respond 401 (Error_body "Missing credentials")
  \/ traffic fallback now ks q = Respond 400 (Error_body "Invalid metric")
  \/ traffic fallback now ks q = Respond 500 (Exception_body RangeError)
  \/ (exists z f t, traffic fallback now ks q = topn_branch a z f t)
  \/ (exists c t, traffic fallback now ks q = zone_branch a c t)
  \/ (exists tag c t,
         traffic fallback now ks q
         = account_branch fallback a tag (metric q) c t).
Proof.
  intros a. unfold traffic. fold a.
  destruct (credentials_missing ks); [now left|].
  destruct (topn_field _) as [f|].
  - destruct (getTimeConfig _ _ _ _) as [t|]; [|now (right; right; left)].
    right; right; right; left. now do 3 eexists.
  - destruct (metric_config _) as [c|]; [|now (right; left)].
    destruct (getTimeConfig _ _ _ _) as [t|]; [|now (right; right; left)].
    destruct (match scope c with Some sc => _ | None => _ end).
    + right; right; right; right; left. now do 2 eexists.
    + right; right; right; right; right. now do 3 eexists.
Qed.

Lemma topn_branch_run u a z f t :
  exists status b text,
    run u (topn_branch a z f t) = ((status, b), [GraphQL text])
    /\ In status [200; 400; 500]
    /\ headers u (topn_branch a z f t) = [a].
Proof.
  unfold topn_branch.
  cbn [run headers]. destruct (graphql_topn u _) as [e|apiData].
  - cbn. do 3 eexists. split; [reflexivity|]. cbn. auto.
  - destruct (topn_errors apiData);
      [cbn; do 3 eexists; split; [reflexivity|]; cbn; auto|].
    destruct (topn_zones apiData) as [[|zone0 ?]|];
      try (cbn; do 3 eexists; split; [reflexivity|]; cbn; now auto).
    destruct (httpRequestsAdaptiveGroups zone0);
      cbn; do 3 eexists; (split; [reflexivity|]); cbn; auto.
Qed.

Lemma zone_branch_run u a c t :
  exists status b,
    (run u (zone_branch a c t) = ((status, b), [ZoneListing])
     /\ headers u (zone_branch a c t) = [a]
     \/ exists text,
          run u (zone_branch a c t) = ((status, b), [ZoneListing; GraphQL text])
          /\ headers u (zone_branch a c t) = [a; a])
    /\ In status [200; 400; 500].
Proof.
  unfold zone_branch. cbn [run headers].
  destruct (zones_api u) as [e|ok statusText result].
  - cbn. do 2 eexists. split; [left; split; reflexivity|cbn; auto].
  - destruct ok; cbn [negb];
      [|cbn; do 2 eexists; split; [left; split; reflexivity|cbn; auto]].
    destruct (zone_ids (opt_list result)) as [|id ids];
      [cbn; do 2 eexists; split; [left; split; reflexivity|cbn; auto]|].
    cbn [run headers].
    destruct (graphql_zone u _ _) as [e|apiData];
      [cbn; do 2 eexists; split;
       [right; eexists; split; reflexivity|cbn; auto]|].
    destruct (zone_errors apiData);
      cbn; do 2 eexists;
      (split; [right; eexists; split; reflexivity|cbn; auto]).
Qed.

Lemma account_branch_run u a tag m c t :
  exists status b text,
    run u (account_branch fallback a tag m c t) = ((status, b), [GraphQL text])
    /\ In status [200; 400; 500]
    /\ headers u (account_branch fallback a tag m c t) = [a].
Proof.
  unfold account_branch.
  destruct (account_request m c t) as [[text ?] filter].
  cbn [run headers]. destruct (graphql_account u _ _) as [e|apiData].
  - cbn. do 3 eexists. split; [reflexivity|]. cbn. auto.
  - destruct (account_errors apiData);
      [cbn; do 3 eexists; split; [reflexivity|]; cbn; auto|].
    destruct (accounts apiData) as [[|account0 ?]|];
      try (cbn; do 3 eexists; split; [reflexivity|]; cbn; now auto).
    destruct (is_distribution c);
      [cbn; do 3 eexists; split; [reflexivity|]; cbn; auto|].
    destruct (detail_of fallback _) as [detail|].
    + destruct (final_detail fallback _ _ _);
        cbn; do 3 eexists; (split; [reflexivity|]); cbn; auto.
    + destruct (isFunctionMetric m && isLongTerm t);
        cbn; do 3 eexists; (split; [reflexivity|]); cbn; auto.
Qed.

End Runs.

(** The day loop stops at the first point whose day cannot be
    printed. *)
Lemma day_merge_fails (detail : list Point.t) (item : Point.t) :
  In item detail -> day_of item = None ->
  forall dayMerged, day_merge detail dayMerged = None.
Proof.
  intros Hin Hday. induction detail as [|p detail IH]; [contradiction|].
  intros dayMerged. cbn [day_merge]. destruct Hin as [->|Hin].
  - now rewrite Hday.
  - destruct (day_of p); [now apply IH|reflexivity].
Qed.

(** The loop of [fetchZones] over [data.result]. *)
Lemma id_name_map_snoc (result : list zone_item) (item : zone_item) :
  id_name_map (result ++ [item])
  = set (id_name_map result) (zone_id item) (zone_name item).
Proof. unfold id_name_map. now rewrite fold_left_app. Qed.

Lemma id_name_map_lookup (result : list zone_item) (id : string) :
  own (id_name_map result) id = option_map zone_name (last_named id result).
Proof.
  unfold last_named.
  induction result as [|item result IH] using rev_ind; [reflexivity|].
  rewrite id_name_map_snoc, rev_app_distr. cbn [rev app find].
  destruct (String.eqb_spec (zone_id item) id) as [->|Hne].
  - now rewrite own_set_same.
  - now rewrite own_set_other.
Qed.

Lemma zone_total_rows (zone : zone_entry) :
  zone_total (opt_list (zone_rows zone)) = rows_total zone.
Proof.
  unfold zone_total, rows_total.
  set (f := fun item => match row_sum item with Some v => v | None => 0 end).
  assert (H : forall l acc,
             fold_left (fun a item => a + f item) l acc
             = acc + fold_right (fun item a => f item + a) 0 l).
  { induction l as [|x l IH]; intros acc; cbn [fold_left fold_right]; [lia|].
    rewrite IH. lia. }
  now rewrite H.
Qed.

End CdnRouteFacts.

Module CdnRouteProperties.

Import JS JSSpec JSFacts Cdn CdnSpec CdnFacts NumberFacts RouteSpec
       CdnRouteFacts.

Section Runs.
Variable fallback : string -> option Z.

(** X4. Whatever the request, the credentials, the clock and the
    upstream, the CDN route answers [200], [400], [401] or [500], and
    makes no upstream request, one GraphQL request, the zone listing
    alone, or the zone listing followed by one GraphQL request: never
    more than two requests, and the zone listing never after a GraphQL
    request. *)
Theorem cdn_call_budget (u : upstream) (now : Z) (ks : keys) (q : query) :
  let r := run u (traffic fallback now ks q) in
  In (fst (fst r)) [200; 400; 401; 500]
  /\ (snd r = []
      \/ (exists text, snd r = [GraphQL text])
      \/ snd r = [ZoneListing]
      \/ (exists text, snd r = [ZoneListing; GraphQL text])).
Proof.
  cbv zeta.
  destruct (traffic_shapes fallback now ks q)
    as [H|[H|[H|[(z & f & t & H)|[(c & t & H)|(tag & c & t & H)]]]]];
    rewrite H.
  - cbn. auto 10.
  - cbn. auto 10.
  - cbn. auto 10.
  - destruct (topn_branch_run
                u (mkAuth (interp (secretId ks)) (interp (secretKey ks)))
                z f t)
      as (st & b & text & -> & Hs & _).
    cbn [fst snd]. split; [cbn in *; intuition|]. right; left. now eexists.
  - destruct (zone_branch_run
                u (mkAuth (interp (secretId ks)) (interp (secretKey ks))) c t)
      as (st & b & [[-> _]|(text & -> & _)] & Hs); cbn [fst snd];
      (split; [cbn in *; intuition|]).
    + auto.
    + right; right; right. now eexists.
  - destruct (account_branch_run fallback
                u (mkAuth (interp (secretId ks)) (interp (secretKey ks)))
                tag (metric q) c t)
      as (st & b & text & -> & Hs & _).
    cbn [fst snd]. split; [cbn in *; intuition|]. right; left. now eexists.
Qed.

(** X5. Every upstream request of a run of the CDN route, the zone
    listing included, carries the credentials [secretId] and [secretKey]
    that [getKeys()] found, as [X-Auth-Email] and [X-Auth-Key]. *)
Theorem cdn_requests_carry_credentials
  (u : upstream) (now : Z) (ks : keys) (q : query) :
  Forall (fun a => X_Auth_Email a = interp (secretId ks)
                   /\ X_Auth_Key a = interp (secretKey ks))
         (headers u (traffic fallback now ks q)).
Proof.
  destruct (traffic_shapes fallback now ks q)
    as [H|[H|[H|[(z & f & t & H)|[(c & t & H)|(tag & c & t & H)]]]]];
    rewrite H; try (cbn; now constructor).
  - destruct (topn_branch_run
                u (mkAuth (interp (secretId ks)) (interp (secretKey ks)))
                z f t)
      as (st & b & text & _ & _ & ->).
    repeat constructor.
  - destruct (zone_branch_run
                u (mkAuth (interp (secretId ks)) (interp (secretKey ks))) c t)
      as (st & b & [[_ ->]|(text & _ & ->)] & _); repeat constructor.
  - destruct (account_branch_run fallback
                u (mkAuth (interp (secretId ks)) (interp (secretKey ks)))
                tag (metric q) c t)
      as (st & b & text & _ & _ & ->).
    repeat constructor.
Qed.

(** X6. When the upstream cannot be reached, a request with complete
    credentials and a metric that one of the two lookups resolves is
    answered [500] with the message of the failure, after one attempted
    request: the route never reports success, and does not retry. *)
Theorem unreachable_upstream
  (e : exn) (now : Z) (ks : keys) (q : query) :
  86400000 <= now <= 253402300799999 ->
  credentials_missing ks = false ->
  topn_field (property_key (metric q)) <> None
  \/ metric_config (property_key (metric q)) <> None ->
  exists call,
    run (unreachable e) (traffic fallback now ks q)
    = ((500, Exception_body e), [call]).
Proof.
  intros Hnow Hc Hm. unfold traffic. rewrite Hc.
  destruct (getTimeConfig_some fallback now (startTime q) (endTime q) Hnow)
    as (t & Ht).
  rewrite Ht.
  destruct (topn_field _) as [f|].
  - eexists. reflexivity.
  - destruct Hm as [Hm|Hm]; [contradiction|].
    destruct (metric_config _) as [c|]; [|contradiction].
    destruct (match scope c with Some sc => _ | None => _ end).
    + eexists. reflexivity.
    + unfold account_branch.
      destruct (account_request _ _ _) as [[text ?] filter].
      eexists. reflexivity.
Qed.

(** X7. When the time strings of the rows parse and their values, in
    absolute value, sum to less than [2^53], the [Sum] of an
    account-scope time series is the sum of the values of all the rows
    upstream sent, whatever seconds they fall on: the merge neither
    loses nor repeats a value. *)
Theorem sum_is_conserved (resultData : list row) :
  parses fallback resultData ->
  exactly_summable resultData ->
  exists detail,
    detail_of fallback resultData = Some detail
    /\ total detail = Finite (sum_values resultData).
Proof.
  intros Hp Hs. eexists. split; [now apply detail_of_number|].
  rewrite total_number.
  - now rewrite total_detail.
  - pose proof (points_weight_detail fallback resultData).
    unfold exactly_summable in Hs. lia.
Qed.

(** X8. A row whose time string does not parse is not dropped: it is
    filed under the key [NaN] of [merged], where, the values being
    exactly summable, the sum of the values of all such rows stands.
    With that key the comparator of the sort is not consistent, so the
    order of the points is the engine's.  For a function metric under a
    long-term window the day loop fails on the point of that key
    ([toISOString] of an invalid date) wherever it stands, and the
    request is answered [500] with the [RangeError], whatever the other
    rows are; otherwise the request is answered [200] with the entries
    of [merged] as points. *)
Theorem unparsable_row
  (u : upstream) (a : auth) (tag : string) (m : option string) (c : config)
  (t : timeCfg) (rows : list row) (r : row) (others : list account) :
  In r rows ->
  parse_iso (dimension_value r) = None ->
  fallback (dimension_value r) = None ->
  (forall text variables,
      graphql_account u text variables
      = Fulfilled (mkAccountPayload None
                     (Some (mkAccount (Some rows) :: others)))) ->
  is_distribution c = false ->
  In "NaN" (map fst (merge fallback rows))
  /\ (exactly_summable rows ->
      own (merge fallback rows) "NaN"
      = Some (Finite (sum_values (unparsed fallback rows))))
  /\ detail_of fallback rows = None
  /\ fst (run u (account_branch fallback a tag m c t))
     = if isFunctionMetric m && isLongTerm t
       then (500, Exception_body RangeError)
       else (200, Data [TypeValueUnsorted (merge fallback rows) (name c)]).
Proof.
  intros Hr Hiso Hfb Hu Hd.
  assert (Hnan : second_of fallback (dimension_value r) = None)
    by (unfold second_of; now rewrite Hiso, Hfb).
  assert (Hk : In "NaN" (map fst (merge fallback rows))).
  { pose proof (merge_has_key fallback rows r Hr) as H.
    now rewrite Hnan in H. }
  pose proof (detail_of_NaN fallback rows Hk) as Hnone.
  split; [exact Hk|]. split; [|split; [exact Hnone|]].
  - intros Hs. rewrite (merge_number fallback rows Hs), own_number.
    now rewrite (merge_NaN fallback rows r Hr Hnan).
  - unfold account_branch.
    destruct (account_request m c t) as [[text ?] filter].
    cbn [run]. rewrite Hu.
    cbn [account_errors accounts resultData opt_list].
    rewrite Hd, Hnone.
    destruct (isFunctionMetric m && isLongTerm t); reflexivity.
Qed.

(** X9. What an account-scope metric of the registry asks upstream,
    as the text of the query posted shows it.  A distribution posts the
    operation [GetAccountDistribution], which reads the overview
    dataset limited to 100 rows and ordered by its sum descending, with
    the filter [datetime_geq]/[datetime_leq] on the whole bounds
    whatever the length of the window.  A series posts
    [GetAccountTraffic], limited to 1000 rows: a function metric reads
    the invocations dataset by hour in both modes of the window, any
    other series the day-grouped or the hour-grouped dataset of the
    window; both send the filter of the window, which is by date, on
    the first ten characters of the bounds, under [isLongTerm].  Each
    query selects the sum and the dimension of its descriptor. *)
Theorem account_request_by_kind
  (now : Z) (ks : keys) (q : query) (m : string) (c : config) :
  86400000 <= now <= 253402300799999 ->
  credentials_missing ks = false ->
  metric q = Some m ->
  own METRIC_MAP m = Some c ->
  scope c = Some "account" ->
  exists t text filter k,
    getTimeConfig fallback now (startTime q) (endTime q) = Some t
    /\ traffic fallback now ks q = account_post ks text filter k
    /\ if is_distribution c then
         asks text "GetAccountDistribution"
              "httpRequestsOverviewAdaptiveGroups" "100"
              ("sum_" ++ interp (sumid c) ++ "_DESC")
              (interp (sumid c)) (interp (dimension c))
         /\ filter = [("datetime_geq", start t); ("datetime_leq", end_ t)]
       else if isFunctionMetric (Some m) then
         asks text "GetAccountTraffic" "workersInvocationsAdaptive" "1000"
              "datetimeHour_ASC" (interp (sumid c)) "datetimeHour"
         /\ filter = window_filter t
       else
         asks text "GetAccountTraffic"
              (if isLongTerm t then "httpRequests1dGroups"
               else "httpRequests1hGroups")
              "1000"
              (if isLongTerm t then "date_ASC" else "datetime_ASC")
              (interp (sumid c))
              (if isLongTerm t then "date" else "datetime")
         /\ filter = window_filter t.
Proof.
  intros Hnow Hc Hm Hown Hscope.
  destruct (Properties.getTimeConfig_dataset fallback now (startTime q)
              (endTime q) Hnow) as (t & Ht & Hmode).
  exists t. unfold traffic. rewrite Hc, Hm. cbn [property_key interp].
  destruct (metric_map_cases m c Hown) as [-> ->].
  rewrite Ht, Hscope.
  replace ("account" =? "zone")%string with false by reflexivity.
  unfold account_branch, account_request, account_post, window_filter.
  assert (Hfilter : filterObj t
                    = if isLongTerm t
                      then [("date_geq", slice0 10 (start t));
                            ("date_leq", slice0 10 (end_ t))]
                      else [("datetime_geq", start t);
                            ("datetime_leq", end_ t)]).
  { destruct (isLongTerm t);
      destruct Hmode as (Hf & Hto & _ & _ & _ & ->); now rewrite Hf, Hto. }
  destruct (is_distribution c).
  - do 3 eexists. split; [reflexivity|]. split; [reflexivity|].
    split; [|reflexivity]. unfold asks, account_query, unlines.
    split; [find_in_lines 1%nat 1%nat|].
    split; [find_in_lines 3%nat 2%nat|].
    split; [find_in_lines 5%nat 1%nat|find_in_lines 6%nat 1%nat].
  - destruct (isFunctionMetric (Some m)).
    + do 3 eexists. split; [reflexivity|]. split; [reflexivity|].
      split; [|exact Hfilter]. unfold asks, account_query, unlines.
      split; [find_in_lines 1%nat 1%nat|].
      split; [find_in_lines 3%nat 2%nat|].
      split; [find_in_lines 5%nat 1%nat|find_in_lines 6%nat 1%nat].
    + do 3 eexists. split; [reflexivity|]. split; [reflexivity|].
      split; [|exact Hfilter]. unfold asks, account_query, unlines.
      destruct (isLongTerm t);
        destruct Hmode as (_ & _ & -> & -> & -> & _);
        (split; [find_in_lines 1%nat 1%nat|]);
        (split; [find_in_lines 3%nat 2%nat|]);
        (split; [find_in_lines 5%nat 1%nat|find_in_lines 6%nat 1%nat]).
Qed.

(** X10. What a metric of [ZONE_TOPN_CONFIG] asks upstream, as the
    text of the query posted shows it: one GraphQL request, without any
    zone listing, for the ten largest groups of the configured zone by
    count, grouped by the field the table gives, with [queryFrom] of the
    window as [datetime_geq] and [queryTo] as [datetime_lt]; under
    [isLongTerm] these are the first ten characters of the bounds,
    dates without a time. *)
Theorem adhoc_topn_request
  (now : Z) (ks : keys) (q : query) (m f : string) :
  86400000 <= now <= 253402300799999 ->
  credentials_missing ks = false ->
  metric q = Some m ->
  own ZONE_TOPN_CONFIG m = Some f ->
  exists t text k,
    getTimeConfig fallback now (startTime q) (endTime q) = Some t
    /\ traffic fallback now ks q
       = PostTopN (mkAuth (interp (secretId ks)) (interp (secretKey ks)))
                  text k
    /\ asks_topn text (interp (zonetag ks))
         (if isLongTerm t then slice0 10 (start t) else start t)
         (if isLongTerm t then slice0 10 (end_ t) else end_ t) f.
Proof.
  intros Hnow Hc Hm Hown.
  destruct (getTimeConfig_some fallback now (startTime q) (endTime q) Hnow)
    as (t & Ht).
  destruct (getTimeConfig_bounds fallback _ _ _ _ Ht) as (Hf & Hto & _).
  exists t. unfold traffic. rewrite Hc, Hm. cbn [property_key interp].
  rewrite (topn_cases m f Hown), Ht. unfold topn_branch.
  do 2 eexists. split; [reflexivity|]. split; [reflexivity|].
  rewrite <- Hf, <- Hto. unfold asks_topn, topn_query, unlines.
  split; [find_in_lines 3%nat 4%nat|].
  split; [find_in_lines 7%nat 4%nat|find_in_lines 13%nat 3%nat].
Qed.

End Runs.

(** A request for [l7Flow_flux] at midnight of 1 January 2024, the
    network being down. *)
Lemma unreachable_upstream_witness :
  exists call,
    run (unreachable (Error "fetch failed"))
      (traffic (fun _ => None) 1704067200000
         (mkKeys (Some "id") (Some "key") (Some "tag") (Some "zone"))
         (mkQuery (Some "l7Flow_flux") None None))
    = ((500, Exception_body (Error "fetch failed")), [call]).
Proof.
  apply unreachable_upstream;
    [lia|reflexivity|right; vm_compute; discriminate].
Defined.

(** A request for [function_requestCount] since 1 January 2024, at noon
    of 5 January 2024. *)
Lemma account_request_by_kind_witness :
  let ks := mkKeys (Some "id") (Some "key") (Some "tag") (Some "zone") in
  let q := mkQuery (Some "function_requestCount")
                   (Some "2024-01-01T00:00:00Z") None in
  exists text k,
    traffic (fun _ => None) 1704456000000 ks q
    = account_post ks text
        [("date_geq", "2024-01-01"); ("date_leq", "2024-01-05")] k
    /\ asks text "GetAccountTraffic" "workersInvocationsAdaptive" "1000"
            "datetimeHour_ASC" "requests" "datetimeHour".
Proof.
  cbv zeta.
  destruct (account_request_by_kind (fun _ => None) 1704456000000
              (mkKeys (Some "id") (Some "key") (Some "tag") (Some "zone"))
              (mkQuery (Some "function_requestCount")
                       (Some "2024-01-01T00:00:00Z") None)
              "function_requestCount"
              (series "function_requestCount" "requests" "account"))
    as (t & text & filter & k & Ht & Hrun & Hasks);
    [lia|reflexivity|reflexivity|reflexivity|reflexivity|].
  vm_compute in Ht. injection Ht as <-.
  destruct Hasks as [Hasks ->].
  exists text, k. split; [exact Hrun|exact Hasks].
Defined.

(** Rows valued 3 and 5 of two seconds. *)
Lemma sum_is_conserved_witness :
  exists detail,
    detail_of (fun _ => None)
      [mkRow "2024-01-01T00:00:00Z" 3; mkRow "2024-01-01T01:00:00Z" 5]
    = Some detail
    /\ total detail = Finite 8.
Proof.
  apply (sum_is_conserved (fun _ => None)
           [mkRow "2024-01-01T00:00:00Z" 3; mkRow "2024-01-01T01:00:00Z" 5]).
  - intros r [<-|[<-|[]]]; vm_compute; discriminate.
  - vm_compute. reflexivity.
Defined.

(** One hourly row and one row dated ["yesterday"], which the engine
    does not read, for [function_requestCount] under a long-term
    window. *)
Lemma unparsable_row_witness :
  let rows := [mkRow "2024-01-01T00:00:00Z" 2; mkRow "yesterday" 3] in
  let u := mkUpstream (ZonesRejected TypeError) (fun _ => Rejected TypeError)
             (fun _ _ => Rejected TypeError)
             (fun _ _ => Fulfilled (mkAccountPayload None
                                      (Some [mkAccount (Some rows)]))) in
  let c := series "function_requestCount" "requests" "account" in
  let t := mkTimeCfg "2024-01-01T00:00:00Z" "2024-01-05T00:00:00Z"
             "2024-01-01" "2024-01-05" "httpRequests1dGroups" "date_ASC"
             "date" true
             [("date_geq", "2024-01-01"); ("date_leq", "2024-01-05")] in
  own (merge (fun _ => None) rows) "NaN" = Some (Finite 3)
  /\ detail_of (fun _ => None) rows = None
  /\ fst (run u (account_branch (fun _ => None) (mkAuth "id" "key") "tag"
                   (Some "function_requestCount") c t))
     = (500, Exception_body RangeError).
Proof.
  cbv zeta.
  destruct (unparsable_row (fun _ => None)
              (mkUpstream (ZonesRejected TypeError)
                 (fun _ => Rejected TypeError)
                 (fun _ _ => Rejected TypeError)
                 (fun _ _ =>
                    Fulfilled
                      (mkAccountPayload None
                         (Some [mkAccount
                                  (Some [mkRow "2024-01-01T00:00:00Z" 2;
                                         mkRow "yesterday" 3])]))))
              (mkAuth "id" "key") "tag" (Some "function_requestCount")
              (series "function_requestCount" "requests" "account")
              (mkTimeCfg "2024-01-01T00:00:00Z" "2024-01-05T00:00:00Z"
                 "2024-01-01" "2024-01-05" "httpRequests1dGroups" "date_ASC"
                 "date" true
                 [("date_geq", "2024-01-01"); ("date_leq", "2024-01-05")])
              [mkRow "2024-01-01T00:00:00Z" 2; mkRow "yesterday" 3]
              (mkRow "yesterday" 3) [])
    as (_ & Hown & Hnone & Hrun);
    [right; left; reflexivity|reflexivity|reflexivity|reflexivity
    |reflexivity|].
  split; [|split; [exact Hnone|exact Hrun]].
  rewrite Hown by (vm_compute; reflexivity). reflexivity.
Defined.

(** A request for [l7Flow_request_sip] since 1 January 2024, at noon of
    5 January 2024. *)
Lemma adhoc_topn_request_witness :
  let ks := mkKeys (Some "id") (Some "key") (Some "tag") (Some "zone") in
  let q := mkQuery (Some "l7Flow_request_sip")
                   (Some "2024-01-01T00:00:00Z") None in
  exists text k,
    traffic (fun _ => None) 1704456000000 ks q
    = PostTopN (mkAuth "id" "key") text k
    /\ asks_topn text "zone" "2024-01-01" "2024-01-05" "clientIP".
Proof.
  cbv zeta.
  destruct (adhoc_topn_request (fun _ => None) 1704456000000
              (mkKeys (Some "id") (Some "key") (Some "tag") (Some "zone"))
              (mkQuery (Some "l7Flow_request_sip")
                       (Some "2024-01-01T00:00:00Z") None)
              "l7Flow_request_sip" "clientIP")
    as (t & text & k & Ht & Hrun & Hasks);
    [lia|reflexivity|reflexivity|reflexivity|].
  vm_compute in Ht. injection Ht as <-.
  exists text, k. split; [exact Hrun|exact Hasks].
Defined.

(** X11. [fetchZones] files every listed zone under its identifier; of
    two items with the same identifier the later one gives the name.
    The identifiers of the object are those listed, each once, while
    [zoneIds] keeps every item, repeated identifiers included.  No
    listed identifier is taken to be ["__proto__"], which an assignment
    does not file. *)
Theorem zone_names_last_wins (result : list zone_item) (id : string) :
  ~ In "__proto__" (zone_ids result) ->
  own (id_name_map result) id = option_map zone_name (last_named id result)
  /\ NoDup (map fst (id_name_map result))
  /\ (In id (map fst (id_name_map result)) <-> In id (zone_ids result))
  /\ List.length (zone_ids result) = List.length result.
Proof.
  intros _. split; [|split; [|split]].
  - apply id_name_map_lookup.
  - induction result as [|item result IH] using rev_ind; [constructor|].
    rewrite id_name_map_snoc. now apply set_NoDup.
  - induction result as [|item result IH] using rev_ind; [reflexivity|].
    rewrite id_name_map_snoc, set_keys. unfold zone_ids in *.
    rewrite map_app, in_app_iff, IH. cbn. intuition.
  - unfold zone_ids. apply length_map.
Qed.

(** A listing that names the zone [z1] twice. *)
Lemma zone_names_last_wins_witness :
  let result := [ mkZoneItem "z1" "old.example"; mkZoneItem "z2" "b.example";
                  mkZoneItem "z1" "new.example" ] in
  own (id_name_map result) "z1"
  = option_map zone_name (last_named "z1" result)
  /\ NoDup (map fst (id_name_map result))
  /\ (In "z1" (map fst (id_name_map result)) <-> In "z1" (zone_ids result))
  /\ List.length (zone_ids result) = List.length result.
Proof.
  cbv zeta. apply zone_names_last_wins. intros H. vm_compute in H.
  destruct H as [H|[H|[H|H]]];
    [discriminate H|discriminate H|discriminate H|exact H].
Defined.



Section Listing.
Variable fallback : string -> option Z.

(** X13. A zone-scope request whose zone listing fails is answered
    [500] without any GraphQL request: with the message
    [Fetch Zones Failed: ] followed by the status text when the listing
    is not [ok], even if it carries zones, and with the message of the
    failure when the request itself fails.  A listing that is [ok] and
    carries no array, or an empty one, is answered [200] with
    [{ Data: [] }], again without any GraphQL request. *)
Theorem zone_listing_failure
  (u : upstream) (now : Z) (ks : keys) (q : query) (m : string) (c : config) :
  86400000 <= now <= 253402300799999 ->
  credentials_missing ks = false ->
  metric q = Some m ->
  own METRIC_MAP m = Some c ->
  scope c = Some "zone" ->
  match zones_api u with
  | ZonesRejected e =>
      run u (traffic fallback now ks q)
      = ((500, Exception_body e), [ZoneListing])
  | ZonesResponse false statusText _ =>
      run u (traffic fallback now ks q)
      = ((500, Exception_body (Error ("Fetch Zones Failed: " ++ statusText))),
         [ZoneListing])
  | ZonesResponse true _ result =>
      result = None \/ result = Some [] ->
      run u (traffic fallback now ks q) = ((200, Data []), [ZoneListing])
  end.
Proof.
  intros Hnow Hc Hm Hown Hscope.
  destruct (getTimeConfig_some fallback now (startTime q) (endTime q) Hnow)
    as (t & Ht).
  unfold traffic. rewrite Hc, Hm. cbn [property_key interp].
  destruct (metric_map_cases m c Hown) as [-> ->].
  rewrite Ht, Hscope.
  replace ("zone" =? "zone")%string with true by reflexivity.
  unfold zone_branch. cbn [run].
  destruct (zones_api u) as [e|[|] statusText result]; try reflexivity.
  intros [-> | ->]; reflexivity.
Qed.

End Listing.

(** A zone listing answered [403 Forbidden], though with a zone in its
    body. *)
Lemma zone_listing_failure_witness :
  run (mkUpstream
         (ZonesResponse false "Forbidden" (Some [mkZoneItem "z1" "a.example"]))
         (fun _ => Rejected TypeError) (fun _ _ => Rejected TypeError)
         (fun _ _ => Rejected TypeError))
      (traffic (fun _ => None) 1704067200000
         (mkKeys (Some "id") (Some "key") (Some "tag") (Some "zone"))
         (mkQuery (Some "l7Flow_outFlux_domain") None None))
  = ((500, Exception_body (Error "Fetch Zones Failed: Forbidden")),
     [ZoneListing]).
Proof.
  apply (zone_listing_failure (fun _ => None)
           (mkUpstream
              (ZonesResponse false "Forbidden"
                 (Some [mkZoneItem "z1" "a.example"]))
              (fun _ => Rejected TypeError) (fun _ _ => Rejected TypeError)
              (fun _ _ => Rejected TypeError))
           1704067200000
           (mkKeys (Some "id") (Some "key") (Some "tag") (Some "zone"))
           (mkQuery (Some "l7Flow_outFlux_domain") None None)
           "l7Flow_outFlux_domain"
           (series "l7Flow_outFlux_domain" "bytes" "zone"));
    [lia|reflexivity|reflexivity|reflexivity|reflexivity].
Defined.

End CdnRouteProperties.

(** ** The edge adapter's encodings *)

Module SignerFacts.

Import JS JSSpec JSFacts Edge EdgeSpec EdgeFacts SignerSpec.

Lemma percent_decode_pe_char (c : ascii) (rest : string) :
  percent_decode (pe_char c ++ rest) = String c (percent_decode rest).
Proof. each_character c; reflexivity. Qed.

Lemma chars_app (a b : string) :
  list_ascii_of_string (a ++ b)
  = (list_ascii_of_string a ++ list_ascii_of_string b)%list.
Proof. induction a as [|c a IH]; simpl; [reflexivity|now rewrite IH]. Qed.

Lemma string_length_app (a b : string) :
  String.length (a ++ b) = (String.length a + String.length b)%nat.
Proof. induction a as [|c a IH]; simpl; [reflexivity|now rewrite IH]. Qed.

Lemma pe_char_encoded (c : ascii) :
  Forall (fun x => encoded_char x = true) (list_ascii_of_string (pe_char c))
  /\ (1 <= String.length (pe_char c) <= 3)%nat.
Proof.
  each_character c; (split; [repeat constructor|cbn; lia]).
Qed.

Lemma pe_app (a b : string) : pe (a ++ b) = pe a ++ pe b.
Proof.
  induction a as [|c a IH]; [reflexivity|].
  cbn [append pe]. now rewrite IH, append_assoc.
Qed.

Lemma count_char_app (x : ascii) (a b : string) :
  count_char x (a ++ b) = (count_char x a + count_char x b)%nat.
Proof. induction a as [|c a IH]; simpl; [reflexivity|]. rewrite IH. lia. Qed.

Lemma count_char_absent (x : ascii) (s : string) :
  has_char x s = false -> count_char x s = O.
Proof.
  induction s as [|c s IH]; simpl; [reflexivity|].
  intros H. apply orb_false_iff in H. destruct H as [-> H].
  now rewrite IH.
Qed.

(** A list of texts joined with [&], each free of [&] and holding [=]
    once. *)
Lemma count_joined (l : list string) :
  Forall (fun s => count_char "&" s = O /\ count_char "=" s = 1%nat) l ->
  count_char "=" (String.concat "&" l) = List.length l
  /\ count_char "&" (String.concat "&" l) = pred (List.length l).
Proof.
  induction 1 as [|a l [Ha1 Ha2] Hl [IH1 IH2]]; [split; reflexivity|].
  destruct l as [|b l].
  - cbn [String.concat List.length pred]. now split.
  - change (String.concat "&" (a :: b :: l))
      with (a ++ "&" ++ String.concat "&" (b :: l)).
    rewrite !count_char_app, Ha1, Ha2, IH1, IH2. cbn. split; lia.
Qed.

Lemma form_encode_separators (s : string) :
  has_char "&" (form_encode s) = false /\ has_char "=" (form_encode s) = false.
Proof.
  induction s as [|c s [IH1 IH2]]; [split; reflexivity|].
  cbn [form_encode]. rewrite !has_char_app, IH1, IH2.
  each_character c; split; reflexivity.
Qed.

Lemma canonical_pair_counts params key :
  count_char "&" (canonical_pair params key) = O
  /\ count_char "=" (canonical_pair params key) = 1%nat.
Proof.
  unfold canonical_pair. rewrite !percentEncode_pe, !count_char_app.
  rewrite !(count_char_absent _ _ (proj1 (pe_separators _))).
  rewrite !(count_char_absent _ _ (proj2 (pe_separators _))).
  split; reflexivity.
Qed.

Lemma form_pair_counts (p : string * string) :
  count_char "&" (form_encode (fst p) ++ "=" ++ form_encode (snd p)) = O
  /\ count_char "=" (form_encode (fst p) ++ "=" ++ form_encode (snd p))
     = 1%nat.
Proof.
  rewrite !count_char_app.
  rewrite !(count_char_absent _ _ (proj1 (form_encode_separators _))).
  rewrite !(count_char_absent _ _ (proj2 (form_encode_separators _))).
  split; reflexivity.
Qed.

Lemma URLSearchParams_counts (p : list (string * string)) :
  count_char "=" (URLSearchParams p) = List.length p
  /\ count_char "&" (URLSearchParams p) = pred (List.length p).
Proof.
  unfold URLSearchParams.
  rewrite <- (length_map (fun p0 => form_encode (fst p0) ++ "="
                                     ++ form_encode (snd p0)) p).
  apply count_joined. apply Forall_forall. intros s Hs.
  apply in_map_iff in Hs. destruct Hs as [e [<- _]].
  apply form_pair_counts.
Qed.

Lemma concat_snoc (sep : string) (l : list string) (a x : string) :
  String.concat sep ((a :: l) ++ [x])
  = String.concat sep (a :: l) ++ sep ++ x.
Proof.
  revert a. induction l as [|b l IH]; intros a; [reflexivity|].
  change (String.concat sep ((a :: b :: l) ++ [x]))
    with (a ++ sep ++ String.concat sep ((b :: l) ++ [x])).
  rewrite IH.
  change (String.concat sep (a :: b :: l))
    with (a ++ sep ++ String.concat sep (b :: l)).
  now rewrite !append_assoc.
Qed.

Lemma base64_char_digit (n : Z) :
  0 <= n < 64 -> base64_digit (base64_char n) = true.
Proof.
  intros H.
  assert (Hall : forallb (fun k => base64_digit (base64_char (Z.of_nat k)))
                         (seq 0 64) = true) by (vm_compute; reflexivity).
  rewrite forallb_forall in Hall.
  specialize (Hall (Z.to_nat n)). rewrite Z2Nat.id in Hall by lia.
  apply Hall. apply in_seq. lia.
Qed.

(** The seconds form of a date-time, [YYYY-MM-DDTHH:mm:ssZ]. *)
Lemma parse_iso_seconds (y1 y2 y3 y4 m1 m2 d1 d2 : ascii) (y m d : Z)
  (h1 h2 i1 i2 s1 s2 : ascii) (h i s : Z) :
  num [y1; y2; y3; y4] = Some y -> num [m1; m2] = Some m ->
  num [d1; d2] = Some d -> 1 <= m <= 12 ->
  1 <= d <= DaysInMonth y (m - 1) ->
  num [h1; h2] = Some h -> num [i1; i2] = Some i -> num [s1; s2] = Some s ->
  0 <= h <= 23 -> 0 <= i <= 59 -> 0 <= s <= 59 ->
  parse_iso
    (String y1 (String y2 (String y3 (String y4 (String "-"
      (String m1 (String m2 (String "-" (String d1 (String d2
        (String "T" (String h1 (String h2 (String ":"
          (String i1 (String i2 (String ":" (String s1 (String s2
            "Z")))))))))))))))))))
  = Some (MakeDate (MakeDay y (m - 1) d) (MakeTime h i s 0)).
Proof.
  intros Hy Hm Hd Hmr Hdr Hh Hi Hs Rh Ri Rs.
  unfold parse_iso.
  rewrite (parse_date_chars _ _ _ _ _ _ _ _ _ _ _ Hy Hm Hd Hmr Hdr).
  cbn [Ascii.eqb Bool.eqb andb]. unfold parse_time.
  cbn [list_ascii_of_string Ascii.eqb Bool.eqb andb].
  rewrite Hh, Hi, Hs.
  replace (h <=? 23) with true by (symmetry; apply Z.leb_le; lia).
  replace (i <=? 59) with true by (symmetry; apply Z.leb_le; lia).
  replace (s <=? 59) with true by (symmetry; apply Z.leb_le; lia).
  reflexivity.
Qed.

(** Within the years 0000 to 9999, [formatISO] prints twenty characters
    that read back as the instant cut to the second. *)
Lemma formatISO_parse (t : Z) :
  in_four_digit_years t ->
  exists s, formatISO t = Some s
            /\ String.length s = 20%nat
            /\ parse_iso s = Some (t - t mod 1000).
Proof.
  intros H. pose proof (year_in_range t H) as Hy.
  destruct (calendar_fields t) as (Hm & Hd & Hday).
  destruct (time_fields t) as (Hh & Hi & Hs & Hf & Htime).
  unfold formatISO.
  rewrite (toISOString_some t (four_digit_years_valid t H)).
  unfold year_string.
  replace (0 <=? YearFromTime t) with true by (symmetry; apply Z.leb_le; lia).
  replace (YearFromTime t <=? 9999) with true
    by (symmetry; apply Z.leb_le; lia).
  cbn [andb]. rewrite pad_4, !pad_2, pad_3.
  cbn [append option_map]. unfold slice0. cbn [substring append].
  eexists. split; [reflexivity|]. split; [reflexivity|].
  assert (Hm' : 1 <= MonthFromTime t + 1 <= 12) by lia.
  assert (Hd' : 1 <= DateFromTime t
                <= DaysInMonth (YearFromTime t) (MonthFromTime t + 1 - 1))
    by (replace (MonthFromTime t + 1 - 1) with (MonthFromTime t) by lia;
        exact Hd).
  assert (Hy4 := num_4 (YearFromTime t) ltac:(lia)).
  assert (Hm2 := num_2 (MonthFromTime t + 1) ltac:(lia)).
  assert (Hd2 : num [digit_char (DateFromTime t / 10 mod 10);
                     digit_char (DateFromTime t mod 10)]
                = Some (DateFromTime t)).
  { apply num_2. unfold DaysInMonth in Hd.
    assert (MonthStart (InLeapYear (YearFromTime t)) (MonthFromTime t + 1)
            - MonthStart (InLeapYear (YearFromTime t)) (MonthFromTime t)
            <= 31).
    { unfold MonthStart. destruct (InLeapYear (YearFromTime t));
      repeat match goal with
             | |- context [?a <=? ?b] => destruct (Z.leb_spec a b)
             | |- context [?a =? ?b] => destruct (Z.eqb_spec a b)
             end; lia. }
    lia. }
  assert (Hh2 := num_2 (HourFromTime t) ltac:(lia)).
  assert (Hi2 := num_2 (MinFromTime t) ltac:(lia)).
  assert (Hs2 := num_2 (SecFromTime t) ltac:(lia)).
  rewrite (parse_iso_seconds _ _ _ _ _ _ _ _ _ _ _ _ _ _ _ _ _ _ _ _
             Hy4 Hm2 Hd2 Hm' Hd' Hh2 Hi2 Hs2 Hh Hi Hs).
  f_equal.
  replace (MonthFromTime t + 1 - 1) with (MonthFromTime t) by lia.
  rewrite Hday.
  assert (E : MakeTime (HourFromTime t) (MinFromTime t) (SecFromTime t) 0
              = TimeWithinDay t - msFromTime t)
    by (rewrite <- Htime; unfold MakeTime; lia).
  rewrite E. unfold MakeDate, Day, TimeWithinDay, msFromTime, TimeWithinDay,
    msPerDay.
  Z.div_mod_to_equations. lia.
Qed.

End SignerFacts.

Module SignerProperties.

Import JS JSSpec JSFacts Edge EdgeSpec EdgeFacts SignerSpec SignerFacts.

(** X14. Of the three replacements [percentEncode] chains after
    [encodeURIComponent], only the one of [*] ever applies:
    [encodeURIComponent] writes no [+], and no [%7E] since it leaves [~]
    as it is. *)
Theorem percentEncode_replacements (str : string) :
  replace_char "+" "%20" (encodeURIComponent str) = encodeURIComponent str
  /\ percentEncode str = replace_char "*" "%2A" (encodeURIComponent str).
Proof.
  assert (Hplus : replace_char "+" "%20" (encodeURIComponent str)
                  = encodeURIComponent str).
  { induction str as [|c s IH]; [reflexivity|].
    cbn [encodeURIComponent]. fold (uri_token c).
    now rewrite replace_char_app, uri_token_plus, IH. }
  split; [exact Hplus|]. clear Hplus.
  rewrite percentEncode_pe.
  induction str as [|c s IH]; [reflexivity|].
  cbn [encodeURIComponent pe]. fold (uri_token c).
  rewrite replace_char_app, uri_token_star. f_equal. apply IH.
Qed.

(** X15. [percentEncode] loses nothing: reading every [%XX] of its
    output back as the byte [XX] gives the text it was given. *)
Theorem percentEncode_round_trip (str : string) :
  percent_decode (percentEncode str) = str.
Proof.
  rewrite percentEncode_pe.
  induction str as [|c s IH]; [reflexivity|].
  cbn [pe]. now rewrite percent_decode_pe_char, IH.
Qed.

(** X16. The output of [percentEncode] is made of letters, digits, the
    marks [-_.~!'()] and [%] only (so of no [&], [=], [+], [*], [/] or
    space), and each byte of the input gives one to three characters. *)
Theorem percentEncode_alphabet (str : string) :
  Forall (fun c => encoded_char c = true)
         (list_ascii_of_string (percentEncode str))
  /\ (String.length str <= String.length (percentEncode str)
      <= 3 * String.length str)%nat.
Proof.
  rewrite percentEncode_pe.
  induction str as [|c s [IH1 IH2]]; [split; [constructor|cbn; lia]|].
  cbn [pe]. rewrite chars_app, string_length_app.
  destruct (pe_char_encoded c) as [Hc Hl]. split.
  - apply Forall_app. now split.
  - cbn [String.length]. lia.
Qed.

(** X17. [percentEncode] goes through concatenation: no replacement
    spans the seam of two texts. *)
Theorem percentEncode_append (a b : string) :
  percentEncode (a ++ b) = percentEncode a ++ percentEncode b.
Proof. rewrite !percentEncode_pe. apply pe_app. Qed.

(** X18. The separators of the signed text are structural.  Whatever
    the keys and the values of the parameters, the canonical query holds
    one [=] per parameter and one [&] between two parameters, the string
    to sign is [GET&%2F&] followed by a text free of [&] and [=], and the
    query of the URL holds one [=] per parameter and one [&] between
    two. *)
Theorem separators_are_structural (params : list (string * string)) :
  count_char "=" (canonicalizedQuery params) = List.length params
  /\ count_char "&" (canonicalizedQuery params) = pred (List.length params)
  /\ stringToSign params
     = "GET&%2F&" ++ percentEncode (canonicalizedQuery params)
  /\ count_char "&" (percentEncode (canonicalizedQuery params)) = O
  /\ count_char "=" (percentEncode (canonicalizedQuery params)) = O
  /\ count_char "=" (URLSearchParams params) = List.length params
  /\ count_char "&" (URLSearchParams params) = pred (List.length params).
Proof.
  assert (Hc : count_char "=" (canonicalizedQuery params)
               = List.length params
               /\ count_char "&" (canonicalizedQuery params)
                  = pred (List.length params)).
  { unfold canonicalizedQuery. fold (canonical_pair params).
    replace (List.length params)
      with (List.length (map (canonical_pair params) (sorted_keys params))).
    - apply count_joined. apply Forall_forall. intros s Hs.
      apply in_map_iff in Hs. destruct Hs as [k [<- _]].
      apply canonical_pair_counts.
    - unfold sorted_keys. now rewrite length_map, sort_length, length_map. }
  destruct Hc as [Hc1 Hc2].
  destruct (URLSearchParams_counts params) as [Hu1 Hu2].
  repeat split; auto.
  - rewrite percentEncode_pe.
    apply count_char_absent, (proj1 (pe_separators _)).
  - rewrite percentEncode_pe.
    apply count_char_absent, (proj2 (pe_separators _)).
Qed.

(** X19. A signature is always twenty-eight characters: twenty-seven
    digits of the base64 alphabet, for the twenty bytes of the HMAC-SHA1
    digest, and one [=] of padding. *)
Theorem signature_text (secretKey stringToSign : string) :
  let signature := calculateSignature secretKey stringToSign in
  String.length signature = 28%nat
  /\ Forall (fun c => base64_digit c = true)
            (list_ascii_of_string (substring 0 27 signature))
  /\ substring 27 1 signature = "=".
Proof.
  unfold calculateSignature, hmac_sha1.
  destruct (hmac_state _ _) as [[[[a b] c] d] e].
  cbn [state_bytes word_bytes app btoa].
  cbv zeta. split; [reflexivity|]. split; [|reflexivity].
  cbn [substring list_ascii_of_string].
  repeat (apply Forall_cons; [apply base64_char_digit|]);
    try apply Forall_nil;
    repeat match goal with
           | |- context [Z.shiftr ?x ?n] =>
               generalize (Z.shiftr x n); intro
           end;
    Z.div_mod_to_equations; lia.
Qed.

(** X20. The signature is computed from the fifteen parameters of the
    literal, none of which is named [Signature], and is appended to them
    afterwards: it is the last parameter of the URL, whose query is the
    form encoding of the fifteen parameters followed by
    [&Signature=...], with fifteen [&] and sixteen [=] in all. *)
Theorem signature_is_appended
  (now : Z) (nonce id sk : string) (q : query) (c : config)
  (params : list (string * string)) :
  make_params now nonce id q c = Some params ->
  own params "Signature" = None
  /\ signed_params sk params
     = (params ++ [("Signature", Signature sk params)])%list
  /\ apiUrl sk params
     = "https://esa.cn-hangzhou.aliyuncs.com/?" ++ URLSearchParams params
       ++ "&Signature=" ++ form_encode (Signature sk params)
  /\ count_char "&" (URLSearchParams (signed_params sk params)) = 15%nat
  /\ count_char "=" (URLSearchParams (signed_params sk params)) = 16%nat.
Proof.
  intros H. unfold make_params in H.
  destruct (if truthy (endTime q) then _ else _) as [e|]; [|discriminate H].
  destruct (if truthy (startTime q) then _ else _) as [s|];
    [|discriminate H].
  destruct (formatISO now) as [ts|]; [|discriminate H].
  injection H as <-.
  match goal with
  | |- context [Signature sk ?p] => set (params := p)
  end.
  assert (Hs : signed_params sk params
               = (params ++ [("Signature", Signature sk params)])%list).
  { unfold signed_params. generalize (Signature sk params). intros sg.
    reflexivity. }
  split; [reflexivity|]. split; [exact Hs|]. split.
  - unfold apiUrl. rewrite Hs. unfold URLSearchParams. rewrite map_app.
    unfold params at 1. cbn [map]. rewrite concat_snoc. reflexivity.
  - destruct (URLSearchParams_counts (signed_params sk params)) as [-> ->].
    rewrite Hs, List.length_app. split; reflexivity.
Qed.

(** A request for [l7Flow_flux] on site ["1"] at midnight of 1 January
    2024. *)
Lemma signature_is_appended_witness :
  own (site_params "1") "Signature" = None
  /\ signed_params "key" (site_params "1")
     = (site_params "1"
        ++ [("Signature", Signature "key" (site_params "1"))])%list
  /\ apiUrl "key" (site_params "1")
     = "https://esa.cn-hangzhou.aliyuncs.com/?"
       ++ URLSearchParams (site_params "1")
       ++ "&Signature=" ++ form_encode (Signature "key" (site_params "1"))
  /\ count_char "&"
       (URLSearchParams (signed_params "key" (site_params "1"))) = 15%nat
  /\ count_char "="
       (URLSearchParams (signed_params "key" (site_params "1"))) = 16%nat.
Proof.
  apply (signature_is_appended 1704067200000 "n1" "id" "key"
           (site_query "1") (ts "Traffic")).
  vm_compute. reflexivity.
Defined.

Section Window.
Variable fallback : string -> option Z.

(** X21. The time parameters of the signed request.  A bound the
    request gives is sent as it is; [Timestamp], and [EndTime] when the
    request gives none, is the clock reading cut to the second, and
    [StartTime], when the request gives none, is exactly twenty-four
    hours earlier.  A row stamped with such a text gets the epoch second
    of the instant, whatever the engine answers on other formats. *)
Theorem default_window
  (now : Z) (nonce id : string) (q : query) (c : config) :
  in_four_digit_years (now - 24 * 60 * 60 * 1000) ->
  in_four_digit_years now ->
  exists params stamp,
    make_params now nonce id q c = Some params
    /\ own params "Timestamp" = Some stamp
    /\ parse_iso stamp = Some (now - now mod 1000)
    /\ own params "EndTime"
       = (if truthy (endTime q) then endTime q else Some stamp)
    /\ (if truthy (startTime q)
        then own params "StartTime" = startTime q
        else exists from,
               own params "StartTime" = Some from
               /\ parse_iso from
                  = Some (now - now mod 1000 - 24 * 60 * 60 * 1000))
    /\ (forall value key,
           Out.Timestamp (ts_point fallback
                            (Api.mkRow value key (Some stamp)))
           = Some (now / 1000)).
Proof.
  intros Hy Hn.
  destruct (formatISO_parse now Hn) as (ts & Ets & Lts & Pts).
  destruct (formatISO_parse _ Hy) as (ys & Eys & _ & Pys).
  assert (Estart : exists s,
             (if truthy (startTime q) then startTime q
              else formatISO (now - 24 * 60 * 60 * 1000)) = Some s
             /\ (if truthy (startTime q) then Some s = startTime q
                 else s = ys)).
  { destruct (truthy (startTime q)) eqn:E.
    - destruct (startTime q) as [s|]; [|discriminate E]. now exists s.
    - now exists ys. }
  assert (Eend : exists s,
             (if truthy (endTime q) then endTime q else formatISO now)
             = Some s
             /\ (if truthy (endTime q) then Some s = endTime q
                 else s = ts)).
  { destruct (truthy (endTime q)) eqn:E.
    - destruct (endTime q) as [s|]; [|discriminate E]. now exists s.
    - now exists ts. }
  destruct Estart as (s & Es & Hs). destruct Eend as (e & Ee & He).
  unfold make_params. cbv zeta. rewrite Ee, Es, Ets.
  eexists. exists ts. split; [reflexivity|]. split; [reflexivity|].
  split; [exact Pts|]. split; [|split].
  - cbn [own String.eqb Ascii.eqb Bool.eqb].
    destruct (truthy (endTime q)); congruence.
  - cbn [own String.eqb Ascii.eqb Bool.eqb].
    destruct (truthy (startTime q)); [congruence|].
    exists s. split; [reflexivity|]. subst s. rewrite Pys. f_equal.
    Z.div_mod_to_equations. lia.
  - intros value key. unfold ts_point. cbn [Api.TimeStamp Out.Timestamp].
    assert (Ht : truthy (Some ts) = true).
    { unfold truthy. destruct ts; [discriminate Lts|reflexivity]. }
    rewrite Ht. cbn [interp]. unfold Date_parse. rewrite Pts.
    cbn [option_map]. f_equal. Z.div_mod_to_equations. lia.
Qed.

End Window.

(** Noon of 5 January 2024, no bound in the request. *)
Lemma default_window_witness :
  exists params stamp,
    make_params 1704456000000 "n1" "id" (site_query "1") (ts "Traffic")
    = Some params
    /\ own params "Timestamp" = Some stamp
    /\ parse_iso stamp = Some (1704456000000 - 1704456000000 mod 1000)
    /\ own params "EndTime"
       = (if truthy (endTime (site_query "1"))
          then endTime (site_query "1") else Some stamp)
    /\ (if truthy (startTime (site_query "1"))
        then own params "StartTime" = startTime (site_query "1")
        else exists from,
               own params "StartTime" = Some from
               /\ parse_iso from
                  = Some (1704456000000 - 1704456000000 mod 1000
                          - 24 * 60 * 60 * 1000))
    /\ (forall value key,
           Out.Timestamp (ts_point (fun _ => None)
                            (Api.mkRow value key (Some stamp)))
           = Some (1704456000000 / 1000)).
Proof.
  apply (default_window (fun _ => None) 1704456000000 "n1" "id"
           (site_query "1") (ts "Traffic"));
    unfold in_four_digit_years; lia.
Defined.

End SignerProperties.

(** ** Runs of the edge route *)

Module EdgeRouteProperties.

Import JS JSSpec JSFacts Edge EdgeSpec.

Lemma formatISO_some (t : Z) :
  - maxTime <= t <= maxTime -> exists s, formatISO t = Some s.
Proof.
  intros H. unfold formatISO. rewrite toISOString_some by exact H.
  now eexists.
Qed.

Lemma make_params_some (now : Z) (nonce id : string) (q : query) (c : config) :
  86400000 <= now <= 253402300799999 ->
  exists params, make_params now nonce id q c = Some params.
Proof.
  intros H. unfold make_params. cbv zeta.
  destruct (formatISO_some now) as [ts Ets]; [unfold maxTime; lia|].
  destruct (formatISO_some (now - 24 * 60 * 60 * 1000)) as [ys Eys];
    [unfold maxTime; lia|].
  rewrite Ets, Eys.
  destruct (truthy (endTime q)) eqn:Ee;
    [destruct (endTime q) as [e|]; [|discriminate Ee]|];
    (destruct (truthy (startTime q)) eqn:Es;
     [destruct (startTime q) as [s|]; [|discriminate Es]|]);
    now eexists.
Qed.

Section Runs.
Variable fallback : string -> option Z.

(** X22. How the edge route answers each reply of the signed request,
    for complete credentials and a metric the registry resolves.  One
    request is made.  A failed request, an [ok] response whose body is
    no JSON and a response that is not [ok] and whose body cannot be
    read give [500] with [{ error: "Server error: " + message }],
    [message] being the message of the failure; a response that is not
    [ok] and whose body can be read gives the status of the upstream
    with [{ error: "Aliyun API error", detail }], [detail] being the
    text of that body; an [ok] response gives [200], whatever its own
    status, with the rewritten JSON. *)
Theorem edge_reply_mapping
  (upstream : string -> api_reply) (message : exn -> string) (now : Z)
  (nonce : string) (ks : keys) (q : query) (c : config) :
  86400000 <= now <= 253402300799999 ->
  credentials_missing ks = false ->
  metric_config (property_key (metric q)) = Some c ->
  exists params,
    make_params now nonce (interp (secretId ks)) q c = Some params
    /\ let url := apiUrl (interp (secretKey ks)) params in
       let r := run upstream (traffic fallback now nonce ks q) in
       snd r = [url]
       /\ match upstream url with
          | ApiRejected e =>
              fst r = (500, Exception_body e)
              /\ error_member message (snd (fst r))
                 = Some ("Server error: " ++ message e)
          | ApiUnreadable _ e =>
              fst r = (500, Exception_body e)
              /\ error_member message (snd (fst r))
                 = Some ("Server error: " ++ message e)
          | ApiResponse true _ _ (Rejected e) =>
              fst r = (500, Exception_body e)
              /\ error_member message (snd (fst r))
                 = Some ("Server error: " ++ message e)
          | ApiResponse false status text _ =>
              fst r = (status, Api_error text)
              /\ error_member message (snd (fst r))
                 = Some "Aliyun API error"
          | ApiResponse true _ _ (Fulfilled apiData) =>
              fst r = (200, Json (transform fallback (metric q) c apiData))
              /\ error_member message (snd (fst r)) = None
          end.
Proof.
  intros Hnow Hc Hm.
  destruct (make_params_some now nonce (interp (secretId ks)) q c Hnow)
    as (params & Hp).
  exists params. split; [exact Hp|]. cbv zeta.
  unfold traffic. rewrite Hc, Hm, Hp. cbn [run].
  destruct (upstream _) as [e|[|] status text [e|apiData]|status e];
    cbn; repeat split.
Qed.

(** X23. Whatever the request, the credentials, the clock and the
    upstream, the edge route makes at most one upstream request, and
    makes one only with both credentials and a metric the registry
    resolves; the URL it fetches is the signed URL of the parameters of
    the request. *)
Theorem edge_call_discipline
  (upstream : string -> api_reply) (now : Z) (nonce : string) (ks : keys)
  (q : query) :
  let calls := snd (run upstream (traffic fallback now nonce ks q)) in
  calls = []
  \/ (credentials_missing ks = false
      /\ exists c params,
           metric_config (property_key (metric q)) = Some c
           /\ make_params now nonce (interp (secretId ks)) q c = Some params
           /\ calls = [apiUrl (interp (secretKey ks)) params]).
Proof.
  cbv zeta. unfold traffic.
  destruct (credentials_missing ks); [now left|].
  destruct (metric_config _) as [c|]; [|now left].
  destruct (make_params _ _ _ _ _) as [params|] eqn:Hp; [|now left].
  right. split; [reflexivity|]. exists c, params.
  split; [reflexivity|]. split; [exact Hp|]. cbn [run].
  destruct (upstream _) as [e|[|] status text [e|apiData]|status e];
    reflexivity.
Qed.

(** X24. The rewriting of the upstream JSON keeps its shape: the items
    of [Data] are as many as upstream sent and the other members of the
    body pass through.  For a time series only the first item is
    rewritten: it gets one [TypeValue] entry named after the requested
    metric, whose [Sum] is the [Value] of the first element of
    [SummarizedData] (0 without one) and whose [Detail] has one point
    per row, in the order of the rows, with the row's value (0 without
    one) and the epoch second of its time stamp (0 without one), and
    [SummarizedData] is removed.  For any other descriptor every item
    whose [DetailData] is an array has its rows renamed one for one,
    [DimensionValue] becoming [Key], [Value] kept and [TimeStamp] kept
    when it is truthy, the other items and [SummarizedData] staying as
    they came. *)
Theorem transform_shape
  (metricKey : option string) (c : config) (apiData : Api.data) :
  let out := transform fallback metricKey c apiData in
  option_map (@List.length Out.item) (Out.Data out)
  = option_map (@List.length Api.item) (Api.Data apiData)
  /\ Out.rest out = Api.rest apiData
  /\ (type c = Some "TS" ->
      forall item0 items,
        Api.Data apiData = Some (item0 :: items) ->
        let rows := match Api.DetailData item0 with
                    | Some rows => rows
                    | None => []
                    end in
        exists entry,
          Out.Data out
          = Some (Out.SeriesItem [entry] (Api.fields item0)
                  :: map Out.Untouched items)
          /\ Out.MetricName entry = metricKey
          /\ Out.Sum entry
             = match Api.SummarizedData apiData with
               | Some (first :: _) =>
                   match Api.SummaryValue first with
                   | Some v => v
                   | None => 0
                   end
               | _ => 0
               end
          /\ List.length (Out.Detail entry) = List.length rows
          /\ (forall i r,
                 nth_error rows i = Some r ->
                 exists p,
                   nth_error (Out.Detail entry) i = Some p
                   /\ Out.Value p = match Api.Value r with
                                    | Some v => v
                                    | None => 0
                                    end
                   /\ (truthy (Api.TimeStamp r) = false ->
                       Out.Timestamp p = Some 0)
                   /\ (forall s instant,
                          Api.TimeStamp r = Some s -> s <> "" ->
                          parse_iso s = Some instant ->
                          Out.Timestamp p = Some (instant / 1000)))
          /\ Out.SummarizedData out = None)
  /\ (type c <> Some "TS" ->
      Out.Data out = option_map (map top_item) (Api.Data apiData)
      /\ Out.SummarizedData out = Api.SummarizedData apiData
      /\ forall item,
           match top_item item, Api.DetailData item with
           | Out.TopItem rows fields, Some rows_in =>
               List.length rows = List.length rows_in
               /\ fields = Api.fields item
               /\ forall i r,
                    nth_error rows_in i = Some r ->
                    exists r',
                      nth_error rows i = Some r'
                      /\ Out.Key r' = Api.DimensionValue r
                      /\ Out.RowValue r' = Api.Value r
                      /\ Out.TimeStamp r'
                         = if truthy (Api.TimeStamp r)
                           then Api.TimeStamp r else None
           | Out.Untouched item', None => item' = item
           | _, _ => False
           end).
Proof.
  cbv zeta. unfold transform.
  assert (Hts : forall s, (match type c with
                           | Some t => (t =? s)%string
                           | None => false
                           end) = true <-> type c = Some s).
  { intros s. destruct (type c) as [t|]; [|split; discriminate].
    destruct (String.eqb_spec t s) as [->|Hne]; split; auto;
      try discriminate. intros E. injection E as ->. contradiction. }
  specialize (Hts "TS").
  assert (Htop : forall item,
             match top_item item, Api.DetailData item with
             | Out.TopItem rows fields, Some rows_in =>
                 List.length rows = List.length rows_in
                 /\ fields = Api.fields item
                 /\ forall i r,
                      nth_error rows_in i = Some r ->
                      exists r',
                        nth_error rows i = Some r'
                        /\ Out.Key r' = Api.DimensionValue r
                        /\ Out.RowValue r' = Api.Value r
                        /\ Out.TimeStamp r'
                           = if truthy (Api.TimeStamp r)
                             then Api.TimeStamp r else None
             | Out.Untouched item', None => item' = item
             | _, _ => False
             end).
  { intros item. unfold top_item.
    destruct (Api.DetailData item) as [rows_in|]; [|reflexivity].
    split; [now rewrite length_map|]. split; [reflexivity|].
    intros i r Hr. rewrite nth_error_map, Hr. cbn [option_map].
    eexists. split; [reflexivity|]. repeat split. }
  destruct (Api.Data apiData) as [[|item0 items]|] eqn:Hd.
  - cbn. repeat split; try reflexivity; try discriminate. exact Htop.
  - destruct (match type c with Some t => _ | None => _ end) eqn:E.
    + cbn [Out.Data Out.rest Out.SummarizedData option_map].
      split; [cbn [List.length]; now rewrite length_map|].
      split; [reflexivity|]. split.
      * intros _ i0 is0 Hi. injection Hi as <- <-.
        eexists. split; [reflexivity|].
        cbn [Out.MetricName Out.Sum Out.Detail].
        split; [reflexivity|]. split; [reflexivity|].
        split; [now rewrite length_map|]. split; [|reflexivity].
        intros i r Hr. rewrite nth_error_map, Hr. cbn [option_map].
        eexists. split; [reflexivity|]. unfold ts_point.
        cbn [Out.Value Out.Timestamp]. split; [reflexivity|]. split.
        -- intros Hf. now rewrite Hf.
        -- intros s0 instant Hs0 Hne Hi. rewrite Hs0.
           cbn [truthy interp]. apply String.eqb_neq in Hne. rewrite Hne.
           cbn [negb]. unfold Date_parse. now rewrite Hi.
      * intros Hn. exfalso. apply Hn. now apply Hts.
    + cbn [Out.Data Out.rest Out.SummarizedData option_map].
      split; [now rewrite !length_map|]. split; [reflexivity|]. split.
      * intros Ht. apply Hts in Ht. congruence.
      * intros _. split; [reflexivity|]. split; [reflexivity|exact Htop].
  - cbn. repeat split; try reflexivity; try discriminate. exact Htop.
Qed.

End Runs.

(** A request for [l7Flow_flux] answered [403] with the text
    [Forbidden]. *)
Lemma edge_reply_mapping_witness :
  let ks := mkKeys (Some "id") (Some "key") in
  exists params,
    make_params 1704067200000 "n1" "id" (site_query "1") (ts "Traffic")
    = Some params
    /\ let url := apiUrl "key" params in
       run (fun _ => ApiResponse false 403 "Forbidden" (Rejected TypeError))
           (traffic (fun _ => None) 1704067200000 "n1" ks (site_query "1"))
       = ((403, Api_error "Forbidden"), [url]).
Proof.
  cbv zeta.
  destruct (edge_reply_mapping (fun _ => None)
              (fun _ => ApiResponse false 403 "Forbidden" (Rejected TypeError))
              (fun _ => "") 1704067200000 "n1"
              (mkKeys (Some "id") (Some "key"))
              (site_query "1") (ts "Traffic"))
    as (params & Hp & Hcalls & Hreply & _);
    [lia|reflexivity|reflexivity|].
  exists params. split; [exact Hp|].
  rewrite (surjective_pairing (run _ _)), Hreply, Hcalls. reflexivity.
Defined.

(** X25. The load-time loop over the registry.  An entry with an
    [action] is left as written; an entry without one gets the action
    [DescribeSiteTopData] and the type ["TOP"]; the loop never touches
    [field] or [dimension], and running it twice changes nothing more.
    After it every entry of the registry has an action and a type that
    go together: [DescribeSiteTimeSeriesData] with ["TS"], or
    [DescribeSiteTopData] with ["TOP"]. *)
Theorem default_fill (m : config) (key : string) :
  (truthy (action m) = true -> fill m = m)
  /\ (truthy (action m) = false ->
      action (fill m) = Some "DescribeSiteTopData"
      /\ type (fill m) = Some "TOP")
  /\ field (fill m) = field m
  /\ dimension (fill m) = dimension m
  /\ fill (fill m) = fill m
  /\ match own METRIC_CONFIG key with
     | Some c =>
         (action c = Some "DescribeSiteTimeSeriesData"
          /\ type c = Some "TS")
         \/ (action c = Some "DescribeSiteTopData" /\ type c = Some "TOP")
     | None => True
     end.
Proof.
  repeat split.
  - intros H. unfold fill. now rewrite H.
  - unfold fill. now rewrite H.
  - unfold fill. now rewrite H.
  - unfold fill. now destruct (truthy (action m)).
  - unfold fill. now destruct (truthy (action m)).
  - unfold fill. destruct (truthy (action m)) eqn:E; [now rewrite E|].
    reflexivity.
  - assert (Hall : Forall
                     (fun e : string * config =>
                        (action (snd e) = Some "DescribeSiteTimeSeriesData"
                         /\ type (snd e) = Some "TS")
                        \/ (action (snd e) = Some "DescribeSiteTopData"
                            /\ type (snd e) = Some "TOP"))
                     METRIC_CONFIG).
    { unfold METRIC_CONFIG, METRIC_CONFIG_literal. cbn [map].
      repeat (constructor; [cbn; auto|]). constructor. }
    induction Hall as [|[k v] l Hv Hall IH]; cbn [own]; [exact I|].
    destruct (k =? key)%string; [exact Hv|exact IH].
Qed.

Lemma inherited_cases (m : string) :
  inherited m = true ->
  Cdn.topn_field m = Some (Cdn.inherited_text m)
  /\ metric_config m = Some inherited_metric.
Proof.
  unfold inherited, object_prototype_keys. cbn [existsb]. intros H.
  repeat match type of H with
         | (?k =? m)%string || _ = true =>
             destruct (String.eqb_spec k m) as [E|_];
             [subst m; split; reflexivity|cbn [orb] in H]
         end.
  discriminate H.
Qed.

Section Inherited.
Variable fallback : string -> option Z.

(** X26. A metric key that names a member of [Object.prototype]
    ([constructor], [toString], [__proto__] and the like) is in neither
    adapter's table and yet is not refused.  The CDN adapter finds it in
    [ZONE_TOPN_CONFIG] by inheritance and posts the ad-hoc Top-N query
    with the text of the inherited member in the place of the field;
    the edge adapter finds it in [METRIC_CONFIG] by inheritance and
    fetches a signed URL whose [Action] and [Metric] are
    ["undefined"]. *)
Theorem inherited_keys_pass_validation
  (now : Z) (nonce : string) (m : string)
  (cks : Cdn.keys) (cq : Cdn.query) (eks : keys) (eq : query) :
  86400000 <= now <= 253402300799999 ->
  inherited m = true ->
  Cdn.credentials_missing cks = false ->
  Cdn.metric cq = Some m ->
  credentials_missing eks = false ->
  metric eq = Some m ->
  own Cdn.ZONE_TOPN_CONFIG m = None
  /\ own Cdn.METRIC_MAP m = None
  /\ own METRIC_CONFIG m = None
  /\ (exists t k,
         Cdn.getTimeConfig fallback now (Cdn.startTime cq) (Cdn.endTime cq)
         = Some t
         /\ Cdn.traffic fallback now cks cq
            = Cdn.PostTopN
                (Cdn.mkAuth (interp (Cdn.secretId cks))
                            (interp (Cdn.secretKey cks)))
                (Cdn.topn_query (interp (Cdn.zonetag cks)) (Cdn.queryFrom t)
                                (Cdn.queryTo t) (Cdn.inherited_text m))
                k)
  /\ (exists params k,
         make_params now nonce (interp (secretId eks)) eq inherited_metric
         = Some params
         /\ own params "Action" = Some "undefined"
         /\ own params "Metric" = Some "undefined"
         /\ traffic fallback now nonce eks eq
            = Fetch (apiUrl (interp (secretKey eks)) params) k).
Proof.
  intros Hnow Hm Hc Hcm He Hem.
  destruct (inherited_cases m Hm) as [Ht Hcfg].
  assert (Hown : own Cdn.ZONE_TOPN_CONFIG m = None
                 /\ own Cdn.METRIC_MAP m = None
                 /\ own METRIC_CONFIG m = None).
  { unfold inherited, object_prototype_keys in Hm. cbn [existsb] in Hm.
    repeat match type of Hm with
           | (?k =? m)%string || _ = true =>
               destruct (String.eqb_spec k m) as [E|_];
               [subst m; repeat split; reflexivity|cbn [orb] in Hm]
           end.
    discriminate Hm. }
  destruct Hown as (H1 & H2 & H3).
  split; [exact H1|]. split; [exact H2|]. split; [exact H3|]. split.
  - destruct (CdnRouteFacts.getTimeConfig_some fallback now
                (Cdn.startTime cq) (Cdn.endTime cq) Hnow) as (t & Et).
    exists t. unfold Cdn.traffic. rewrite Hc, Hcm.
    cbn [property_key interp]. rewrite Ht, Et. unfold Cdn.topn_branch.
    eexists. split; reflexivity.
  - destruct (make_params_some now nonce (interp (secretId eks)) eq
                inherited_metric Hnow) as (params & Hp).
    exists params. unfold traffic. rewrite He, Hem.
    cbn [property_key interp]. rewrite Hcfg, Hp.
    eexists. split; [reflexivity|].
    unfold make_params in Hp.
    destruct (if truthy (endTime eq) then _ else _); [|discriminate Hp].
    destruct (if truthy (startTime eq) then _ else _); [|discriminate Hp].
    destruct (formatISO now); [|discriminate Hp].
    injection Hp as <-. repeat split.
Qed.

End Inherited.

(** A request for the metric [constructor] to each adapter. *)
Lemma inherited_keys_pass_validation_witness :
  let cks := Cdn.mkKeys (Some "id") (Some "key") (Some "tag") (Some "zone") in
  let cq := Cdn.mkQuery (Some "constructor") None None in
  let eks := mkKeys (Some "id") (Some "key") in
  let eq := mkQuery (Some "constructor") None None None None None in
  own Cdn.ZONE_TOPN_CONFIG "constructor" = None
  /\ own Cdn.METRIC_MAP "constructor" = None
  /\ own METRIC_CONFIG "constructor" = None
  /\ (exists t k,
         Cdn.getTimeConfig (fun _ => None) 1704067200000 (Cdn.startTime cq)
                           (Cdn.endTime cq)
         = Some t
         /\ Cdn.traffic (fun _ => None) 1704067200000 cks cq
            = Cdn.PostTopN
                (Cdn.mkAuth (interp (Cdn.secretId cks))
                            (interp (Cdn.secretKey cks)))
                (Cdn.topn_query (interp (Cdn.zonetag cks)) (Cdn.queryFrom t)
                                (Cdn.queryTo t)
                                (Cdn.inherited_text "constructor"))
                k)
  /\ (exists params k,
         make_params 1704067200000 "n1" (interp (secretId eks)) eq
                     inherited_metric
         = Some params
         /\ own params "Action" = Some "undefined"
         /\ own params "Metric" = Some "undefined"
         /\ traffic (fun _ => None) 1704067200000 "n1" eks eq
            = Fetch (apiUrl (interp (secretKey eks)) params) k).
Proof.
  cbv zeta.
  apply (inherited_keys_pass_validation (fun _ => None) 1704067200000 "n1"
           "constructor"
           (Cdn.mkKeys (Some "id") (Some "key") (Some "tag") (Some "zone"))
           (Cdn.mkQuery (Some "constructor") None None)
           (mkKeys (Some "id") (Some "key"))
           (mkQuery (Some "constructor") None None None None None));
    [lia|reflexivity|reflexivity|reflexivity|reflexivity|reflexivity].
Defined.

End EdgeRouteProperties.
